(** * Shopee Story Maker (src/App.tsx): a shallow embedding and its properties

    The application is one React component.  Its original logic is
    - [generateAudio]: a 44-byte WAV header written through a [DataView]
      in front of the decoded narration bytes;
    - [handleMediaUpload], [analyzeProduct], [generateAudio] and
      [startRecording]: four handlers that drive the component state through
      React setters and the browser media objects;
    - [draw]: the animation-frame loop of [startRecording].

    Conventions of the embedding.
    - An integer JavaScript number is a [Z]; [DataView.setUint32] and
      [setUint16] reduce it modulo the field width, as ToUint32/ToUint16 do.
    - A number that may be fractional or special (the audio duration, the
      frame timestamps, the progress) is a [jsnum]: NaN, the two infinities,
      or a finite value, which is an exact rational.  Rounding of doubles is
      not modelled.
    - The trigonometric animation offsets are stated over the reals.
    - A handler is a function from the state it closes over and the settled
      outcome of what it awaits to the list of effects it performs, in order;
      React setters are effects, and the state after the handler is the fold
      of the setters over the state. *)

From Stdlib Require Import ZArith QArith Qround Bool List String Ascii Lia Lqa.
From Stdlib Require Import Permutation.
From Stdlib Require Import Reals Lra.
Import ListNotations.

(* ------------------------------------------------------------------ *)
(** ** JavaScript numbers with their special values *)

Module JsNum.

Local Open Scope Q_scope.

(** There is one zero: the sign of a zero is not kept, so a division of a
    non-zero number by zero takes the sign of the dividend. *)
Inductive jsnum : Type :=
| NaN
| PInf
| NInf
| Fin (q : Q).

Definition Qltb (a b : Q) : bool := negb (Qle_bool b a).

(** ToBoolean on a number: 0 and NaN are falsy. *)
Definition truthy (a : jsnum) : bool :=
  match a with
  | NaN => false
  | PInf | NInf => true
  | Fin q => negb (Qeq_bool q 0)
  end.

Definition isNaN (a : jsnum) : bool :=
  match a with NaN => true | _ => false end.

(** The sign of an infinity times a finite factor; zero gives NaN. *)
Definition infTimes (pos : bool) (q : Q) : jsnum :=
  if Qeq_bool q 0 then NaN
  else if Bool.eqb pos (Qltb 0 q) then PInf else NInf.

Definition jsmul (a b : jsnum) : jsnum :=
  match a, b with
  | NaN, _ | _, NaN => NaN
  | Fin x, Fin y => Fin (x * y)
  | PInf, Fin y => infTimes true y
  | NInf, Fin y => infTimes false y
  | Fin x, PInf => infTimes true x
  | Fin x, NInf => infTimes false x
  | PInf, PInf | NInf, NInf => PInf
  | PInf, NInf | NInf, PInf => NInf
  end.

Definition jsadd (a b : jsnum) : jsnum :=
  match a, b with
  | NaN, _ | _, NaN => NaN
  | Fin x, Fin y => Fin (x + y)
  | PInf, NInf | NInf, PInf => NaN
  | PInf, _ | _, PInf => PInf
  | NInf, _ | _, NInf => NInf
  end.

Definition jsdiv (a b : jsnum) : jsnum :=
  match a, b with
  | NaN, _ | _, NaN => NaN
  | Fin x, Fin y =>
      if Qeq_bool y 0
      then (if Qeq_bool x 0 then NaN else if Qltb 0 x then PInf else NInf)
      else Fin (x / y)
  | Fin _, (PInf | NInf) => Fin 0
  | (PInf | NInf), (PInf | NInf) => NaN
  | PInf, Fin y => if Qltb y 0 then NInf else PInf
  | NInf, Fin y => if Qltb y 0 then PInf else NInf
  end.

(** [Math.min] of two numbers: NaN if either is NaN. *)
Definition jsmin (a b : jsnum) : jsnum :=
  match a, b with
  | NaN, _ | _, NaN => NaN
  | NInf, _ | _, NInf => NInf
  | PInf, c | c, PInf => c
  | Fin x, Fin y => if Qle_bool x y then Fin x else Fin y
  end.

(** [a < b]: false as soon as one side is NaN. *)
Definition jslt (a b : jsnum) : bool :=
  match a, b with
  | NaN, _ | _, NaN => false
  | _, NInf => false
  | NInf, _ => true
  | PInf, _ => false
  | Fin _, PInf => true
  | Fin x, Fin y => Qltb x y
  end.

End JsNum.

(* ------------------------------------------------------------------ *)
(** ** The WAV header of [generateAudio] *)

Module Wav.

Local Open Scope Z_scope.

(** A small error monad: a [DataView] access outside the buffer throws a
    RangeError. *)
Definition bind {A B : Type} (m : option A) (k : A -> option B) : option B :=
  match m with
  | Some a => k a
  | None => None
  end.

Notation "x <- m ;; k" := (bind m (fun x => k))
  (at level 61, m at next level, right associativity).

(** [new ArrayBuffer(n)]: n zero bytes. *)
Definition ArrayBuffer (n : nat) : list Z := repeat 0 n.

(** Byte number [k] of [v], counted from the least significant one. *)
Definition octet (v : Z) (k : nat) : Z :=
  Z.land (Z.shiftr v (8 * Z.of_nat k)) 255.

Definition octetsLE (w : nat) (v : Z) : list Z := map (octet v) (seq 0 w).

Definition fromOctetsLE (bs : list Z) : Z :=
  fold_right (fun b acc => b + 256 * acc) 0 bs.

(** ToUint32 / ToUint16 on an integer number. *)
Definition ToUint (w : nat) (v : Z) : Z := v mod 2 ^ (8 * Z.of_nat w).

(** [view.setUintN(off, v, littleEndian)] for a field of [w] bytes. *)
Definition setUint (w : nat) (view : list Z) (off : nat) (v : Z)
  (littleEndian : bool) : option (list Z) :=
  if (off + w <=? List.length view)%nat then
    let le := octetsLE w (ToUint w v) in
    Some (firstn off view
            ++ (if littleEndian then le else rev le)
            ++ skipn (off + w) view)
  else None.

(** [view.getUintN(off, littleEndian)]. *)
Definition getUint (w : nat) (view : list Z) (off : nat)
  (littleEndian : bool) : option Z :=
  if (off + w <=? List.length view)%nat then
    let bs := firstn w (skipn off view) in
    Some (fromOctetsLE (if littleEndian then bs else rev bs))
  else None.

Definition setUint32 := setUint 4.
Definition setUint16 := setUint 2.
Definition getUint32 := getUint 4.
Definition getUint16 := getUint 2.

(** The header written by [generateAudio] for [bytes.length = len]. *)
Definition wavHeader (len : Z) : option (list Z) :=
  let view := ArrayBuffer 44 in
  view <- setUint32 view 0 0x52494646 false ;;
  view <- setUint32 view 4 (36 + len) true ;;
  view <- setUint32 view 8 0x57415645 false ;;
  view <- setUint32 view 12 0x666d7420 false ;;
  view <- setUint32 view 16 16 true ;;
  view <- setUint16 view 20 1 true ;;
  view <- setUint16 view 22 1 true ;;
  view <- setUint32 view 24 24000 true ;;
  view <- setUint32 view 28 (24000 * 2) true ;;
  view <- setUint16 view 32 2 true ;;
  view <- setUint16 view 34 16 true ;;
  view <- setUint32 view 36 0x64617461 false ;;
  setUint32 view 40 len true.

(** [bytes[i] = binaryString.charCodeAt(i)] for every index: the string that
    [atob] returns holds one byte per character. *)
Fixpoint charCodes (binaryString : string) : list Z :=
  match binaryString with
  | EmptyString => []
  | String c rest => Z.of_nat (nat_of_ascii c) :: charCodes rest
  end.

(** [new Blob([wavHeader, bytes])]: the contents of the audio blob. *)
Definition wavBlob (binaryString : string) : option (list Z) :=
  let bytes := charCodes binaryString in
  header <- wavHeader (Z.of_nat (List.length bytes)) ;;
  Some (header ++ bytes).

End Wav.

(* ------------------------------------------------------------------ *)
(** ** The animation branches of [draw] *)

Module Anim.

Local Open Scope string_scope.
Local Open Scope R_scope.

(** [let x = 0, y = 0, s = 1.1] after the branch has run. *)
Record Placement : Type := mkPlacement { x : R; y : R; s : R }.

(** [productInfo.animationType || 'panning']: an absent value and the empty
    string are falsy. *)
Definition animTypeOf (animationType : option string) : string :=
  match animationType with
  | None => "panning"
  | Some t => if String.eqb t "" then "panning" else t
  end.

(** Lines 318-323 of [draw], over the reals: the ranges proved of it are
    those of the code, an exact value of the real sine (0 at a multiple of
    pi) is not one of [Math.sin].  [random1] and [random2] are the two results of
    [Math.random()], which the vibrating branch alone consumes. *)
Definition animate (animationType : option string)
  (progress random1 random2 : R) : Placement :=
  let animType := animTypeOf animationType in
  if String.eqb animType "panning" then
    mkPlacement (sin (progress * PI) * 50) 0 (11 / 10)
  else if String.eqb animType "bouncing" then
    mkPlacement 0 (sin (progress * PI * 4) * 30) (11 / 10)
  else if String.eqb animType "vibrating" then
    mkPlacement ((random1 - 1 / 2) * 10) ((random2 - 1 / 2) * 10) (11 / 10)
  else if String.eqb animType "sliding" then
    mkPlacement (-100 + progress * 200) 0 (11 / 10)
  else
    mkPlacement 0 0 (11 / 10).

Definition recognized (t : string) : bool :=
  String.eqb t "panning" || String.eqb t "bouncing"
  || String.eqb t "vibrating" || String.eqb t "sliding".

(** The canvas of the page: [width={1080} height={1920}]. *)
Definition canvasWidth : R := 1080.
Definition canvasHeight : R := 1920.

(** The rectangle that [ctx.drawImage] fills (lines 325-328), for a canvas
    of the given size and an asset of the given aspect (height by width). *)
Record Rect : Type := mkRect { left : R; top : R; width : R; height : R }.

Definition drawRect (cw ch aspect : R) (a : Placement) : Rect :=
  let drawW := cw * a.(s) in
  let drawH := drawW * aspect in
  mkRect ((cw - drawW) / 2 + a.(x)) ((ch - drawH) / 2 + a.(y)) drawW drawH.

(** The picture leaves no strip of the canvas uncovered on the left or on
    the right. *)
Definition spansWidth (cw : R) (r : Rect) : Prop :=
  r.(left) <= 0 /\ cw <= r.(left) + r.(width).

End Anim.

(* ------------------------------------------------------------------ *)
(** ** The component: state, effects and handlers *)

Module App.

Import JsNum.
Local Open Scope string_scope.
Local Open Scope list_scope.

Inductive MediaType : Type := Image | Video.
Inductive ScriptType : Type := Auto | Manual.
Inductive VoiceGender : Type := Male | Female.

Record MediaSource : Type := mkMediaSource { url : string; type : MediaType }.

(** The object that [JSON.parse] hands to [setProductInfo].  The three
    fields the code guards with [||] or [?.] may be absent. *)
Record ProductInfo : Type := mkProductInfo {
  name : string;
  description : string;
  features : list string;
  script : option string;
  headline : option string;
  animationType : option string
}.

(** A blob (a [File] is one): its bytes and its MIME type. *)
Record Blob : Type := mkBlob { content : list Z; blobType : string }.

(** The [useState] cells of [App], and whether [canvasRef.current] is set. *)
Record State : Type := mkState {
  mediaSource : option MediaSource;
  userProductDescription : string;
  manualHeadline : string;
  manualScript : string;
  activeScriptType : ScriptType;
  voiceGender : VoiceGender;
  isAnalyzing : bool;
  isGeneratingAudio : bool;
  isRecording : bool;
  productInfo : option ProductInfo;
  audioUrl : option string;
  videoBlobUrl : option string;
  error : option string;
  recordingProgress : jsnum;
  useBackgroundMusic : bool;
  canvasRef : bool
}.

Inductive Track : Type :=
| VideoTrack (id : nat)
| AudioTrack (id : nat).

Definition getVideoTracks (stream : list Track) : list Track :=
  filter (fun t => match t with VideoTrack _ => true | AudioTrack _ => false end)
    stream.

Definition getAudioTracks (stream : list Track) : list Track :=
  filter (fun t => match t with AudioTrack _ => true | VideoTrack _ => false end)
    stream.

(** The media elements and the two ends of the audio graph. *)
Inductive Element : Type := Narration | Music | Asset.
Inductive Sink : Type := RecordingDestination | Speakers.

(** What a handler does, in program order: React setters first, then the
    calls on browser objects that the claims speak about. *)
Inductive Effect : Type :=
| setMediaSource (v : option MediaSource)
| setManualHeadline (v : string)
| setManualScript (v : string)
| setIsAnalyzing (v : bool)
| setIsGeneratingAudio (v : bool)
| setIsRecording (v : bool)
| setProductInfo (v : option ProductInfo)
| setAudioUrl (v : option string)
| setVideoBlobUrl (v : option string)
| setError (v : option string)
| setRecordingProgress (v : jsnum)
| NewAudio (e : Element) (src : string)
| SetVolume (e : Element) (volume : Q)
| SetLoop (e : Element) (loop : bool)
| CreateMediaElementSource (e : Element)
| Connect (e : Element) (to : Sink)
| CaptureStream (frameRate : Z)
| NewMediaStream (tracks : list Track)
| NewMediaRecorder (tracks : list Track) (mimeType : string)
| LoadAsset (m : MediaSource)
| RecorderStart
| RecorderStop
| AudioContextResume
| AudioContextClose
| Play (e : Element)
| Pause (e : Element)
| RequestAnimationFrame
| Paint (progress : jsnum)
| NewBlob (parts : list (list Z)) (mimeType : string).

(** The effect of one setter on the state; browser calls leave it alone. *)
Definition apply (st : State) (e : Effect) : State :=
  match e with
  | setMediaSource v =>
      mkState v st.(userProductDescription) st.(manualHeadline)
        st.(manualScript) st.(activeScriptType) st.(voiceGender)
        st.(isAnalyzing) st.(isGeneratingAudio) st.(isRecording)
        st.(productInfo) st.(audioUrl) st.(videoBlobUrl) st.(error)
        st.(recordingProgress) st.(useBackgroundMusic) st.(canvasRef)
  | setManualHeadline v =>
      mkState st.(mediaSource) st.(userProductDescription) v
        st.(manualScript) st.(activeScriptType) st.(voiceGender)
        st.(isAnalyzing) st.(isGeneratingAudio) st.(isRecording)
        st.(productInfo) st.(audioUrl) st.(videoBlobUrl) st.(error)
        st.(recordingProgress) st.(useBackgroundMusic) st.(canvasRef)
  | setManualScript v =>
      mkState st.(mediaSource) st.(userProductDescription) st.(manualHeadline)
        v st.(activeScriptType) st.(voiceGender)
        st.(isAnalyzing) st.(isGeneratingAudio) st.(isRecording)
        st.(productInfo) st.(audioUrl) st.(videoBlobUrl) st.(error)
        st.(recordingProgress) st.(useBackgroundMusic) st.(canvasRef)
  | setIsAnalyzing v =>
      mkState st.(mediaSource) st.(userProductDescription) st.(manualHeadline)
        st.(manualScript) st.(activeScriptType) st.(voiceGender)
        v st.(isGeneratingAudio) st.(isRecording)
        st.(productInfo) st.(audioUrl) st.(videoBlobUrl) st.(error)
        st.(recordingProgress) st.(useBackgroundMusic) st.(canvasRef)
  | setIsGeneratingAudio v =>
      mkState st.(mediaSource) st.(userProductDescription) st.(manualHeadline)
        st.(manualScript) st.(activeScriptType) st.(voiceGender)
        st.(isAnalyzing) v st.(isRecording)
        st.(productInfo) st.(audioUrl) st.(videoBlobUrl) st.(error)
        st.(recordingProgress) st.(useBackgroundMusic) st.(canvasRef)
  | setIsRecording v =>
      mkState st.(mediaSource) st.(userProductDescription) st.(manualHeadline)
        st.(manualScript) st.(activeScriptType) st.(voiceGender)
        st.(isAnalyzing) st.(isGeneratingAudio) v
        st.(productInfo) st.(audioUrl) st.(videoBlobUrl) st.(error)
        st.(recordingProgress) st.(useBackgroundMusic) st.(canvasRef)
  | setProductInfo v =>
      mkState st.(mediaSource) st.(userProductDescription) st.(manualHeadline)
        st.(manualScript) st.(activeScriptType) st.(voiceGender)
        st.(isAnalyzing) st.(isGeneratingAudio) st.(isRecording)
        v st.(audioUrl) st.(videoBlobUrl) st.(error)
        st.(recordingProgress) st.(useBackgroundMusic) st.(canvasRef)
  | setAudioUrl v =>
      mkState st.(mediaSource) st.(userProductDescription) st.(manualHeadline)
        st.(manualScript) st.(activeScriptType) st.(voiceGender)
        st.(isAnalyzing) st.(isGeneratingAudio) st.(isRecording)
        st.(productInfo) v st.(videoBlobUrl) st.(error)
        st.(recordingProgress) st.(useBackgroundMusic) st.(canvasRef)
  | setVideoBlobUrl v =>
      mkState st.(mediaSource) st.(userProductDescription) st.(manualHeadline)
        st.(manualScript) st.(activeScriptType) st.(voiceGender)
        st.(isAnalyzing) st.(isGeneratingAudio) st.(isRecording)
        st.(productInfo) st.(audioUrl) v st.(error)
        st.(recordingProgress) st.(useBackgroundMusic) st.(canvasRef)
  | setError v =>
      mkState st.(mediaSource) st.(userProductDescription) st.(manualHeadline)
        st.(manualScript) st.(activeScriptType) st.(voiceGender)
        st.(isAnalyzing) st.(isGeneratingAudio) st.(isRecording)
        st.(productInfo) st.(audioUrl) st.(videoBlobUrl) v
        st.(recordingProgress) st.(useBackgroundMusic) st.(canvasRef)
  | setRecordingProgress v =>
      mkState st.(mediaSource) st.(userProductDescription) st.(manualHeadline)
        st.(manualScript) st.(activeScriptType) st.(voiceGender)
        st.(isAnalyzing) st.(isGeneratingAudio) st.(isRecording)
        st.(productInfo) st.(audioUrl) st.(videoBlobUrl) st.(error)
        v st.(useBackgroundMusic) st.(canvasRef)
  | _ => st
  end.

(** The state once every queued setter of a handler has been applied. *)
Definition run (effects : list Effect) (st : State) : State :=
  fold_left apply effects st.

(** [a || fallback] on a string that may be absent. *)
Definition orElse (a : option string) (fallback : string) : string :=
  match a with
  | None => fallback
  | Some v => if String.eqb v "" then fallback else v
  end.

(** ToBoolean on a string that may be absent. *)
Definition present (a : option string) : bool :=
  match a with
  | None => false
  | Some v => negb (String.eqb v "")
  end.

Definition isSome {A : Type} (a : option A) : bool :=
  match a with Some _ => true | None => false end.

(** What the page gets from the browser, besides the settled outcome of
    each awaited call. *)
Record Browser : Type := mkBrowser {
  createObjectURL : Blob -> string;
  isTypeSupported : string -> bool;
  captureStream : Z -> list Track;
  destinationStream : list Track;
  audioContextSuspended : bool
}.

(** *** handleMediaUpload *)

(** Lines 65-76; [file] is [e.target.files?.[0]]. *)
Definition handleMediaUpload (b : Browser) (file : option Blob) : list Effect :=
  match file with
  | Some f =>
      let type := if String.prefix "video/" f.(blobType) then Video else Image in
      let url := b.(createObjectURL) f in
      [ setMediaSource (Some (mkMediaSource url type));
        setProductInfo None;
        setAudioUrl None;
        setVideoBlobUrl None;
        setError None ]
  | None => []
  end.

(** *** analyzeProduct *)

(** How the [try] block of [analyzeProduct] (lines 83-145) ends.  Reading
    the media, the request to the model and [JSON.parse] are the outside
    world.
    - [AnalysisThrew]: they throw a value that has properties, with its
      [message] if it has one (a string or an object without one has none).
    - [AnalysisThrewNullish]: they throw [undefined] or [null]; then
      [err.message] in the catch block (line 148) throws in its turn, before
      [setError] is called, and only the [finally] block still runs.
    - [AnalysisParsed]: the parsed JSON is an object.  A truthy value that is
      not an object (a number, a string, an array) has none of the guarded
      fields and behaves as an object without them.
    - [AnalysisParsedNull]: the parsed JSON is null, and [data.headline]
      throws after [setProductInfo(data)] has run.
    - [AnalysisParsedFalsy]: the parsed JSON is 0, the empty string or
      false; every test of the code reads such a productInfo as it reads
      null, and [data.headline] and [data.script] are undefined. *)
Inductive AnalysisOutcome : Type :=
| AnalysisThrew (message : option string)
| AnalysisParsed (data : ProductInfo)
| AnalysisParsedNull (message : option string)
| AnalysisThrewNullish
| AnalysisParsedFalsy.

Definition analysisError (message : option string) : Effect :=
  setError (Some (String.append "Erro na análise: "
    (orElse message "Verifique sua GEMINI_API_KEY no Vercel."))).

Definition analyzeProduct (outcome : AnalysisOutcome) (st : State) : list Effect :=
  match st.(mediaSource) with
  | None => []
  | Some _ =>
      [ setIsAnalyzing true; setError None ]
      ++ match outcome with
         | AnalysisParsed data =>
             [ setProductInfo (Some data);
               setManualHeadline (orElse data.(headline) "");
               setManualScript (orElse data.(script) "") ]
         | AnalysisThrew message => [ analysisError message ]
         | AnalysisParsedNull message =>
             [ setProductInfo None; analysisError message ]
         | AnalysisThrewNullish => []
         | AnalysisParsedFalsy =>
             [ setProductInfo None;
               setManualHeadline "";
               setManualScript "" ]
         end
      ++ [ setIsAnalyzing false ]
  end.

(** *** generateAudio *)

(** How the [try] block of [generateAudio] (lines 161-203) ends: an
    exception (from the request or from [atob]), a response without inline
    audio, or the binary string that [atob] decodes.  A RangeError of the
    [DataView] would be caught like any other exception. *)
Inductive SpeechOutcome : Type :=
| SpeechThrew
| SpeechEmpty
| SpeechDecoded (binaryString : string).

Definition scriptToUse (st : State) : option string :=
  match st.(activeScriptType) with
  | Auto => match st.(productInfo) with
            | Some info => info.(script)
            | None => None
            end
  | Manual => Some st.(manualScript)
  end.

Definition generateAudio (b : Browser) (outcome : SpeechOutcome) (st : State)
  : list Effect :=
  if negb (present (scriptToUse st)) then []
  else
    [ setIsGeneratingAudio true; setError None ]
    ++ match outcome with
       | SpeechDecoded binaryString =>
           match Wav.wavBlob binaryString with
           | Some bytes =>
               [ setAudioUrl
                   (Some (b.(createObjectURL) (mkBlob bytes "audio/wav"))) ]
           | None => [ setError (Some "Erro ao gerar a narração.") ]
           end
       | SpeechEmpty => []
       | SpeechThrew => [ setError (Some "Erro ao gerar a narração.") ]
       end
    ++ [ setIsGeneratingAudio false ].

(** *** startRecording *)

Definition BGM_URL : string :=
  "https://www.soundhelix.com/examples/mp3/SoundHelix-Song-1.mp3".

(** How the wait for the narration metadata ends. *)
Inductive AudioLoad : Type :=
| LoadedMetadata (duration : jsnum)
| LoadError
| LoadTimeout.

(** What happens during one call of [startRecording]: the outcome of the
    audio load, whether [createMediaElementSource(bgm)] throws, the
    timestamps of the animation frames delivered so far, and the data the
    recorder has passed to [ondataavailable]. *)
Record RecordingRun : Type := mkRecordingRun {
  audioLoad : AudioLoad;
  bgmSourceThrows : bool;
  timestamps : list Q;
  dataEvents : list (list Z)
}.

(** Lines 247-261: the element is configured first; when the source cannot
    be created, [bgm] is null again.  The boolean is [bgm !== null]. *)
Definition setupBackgroundMusic (enabled throws : bool) : bool * list Effect :=
  if enabled then
    let configured :=
      [ NewAudio Music BGM_URL; SetVolume Music 0.15; SetLoop Music true ] in
    if throws then (false, configured)
    else (true, configured
                ++ [ CreateMediaElementSource Music;
                     Connect Music RecordingDestination;
                     Connect Music Speakers ])
  else (false, []).

Definition mimeTypes : list string :=
  [ "video/webm;codecs=vp9,opus"; "video/webm;codecs=vp8,opus";
    "video/webm"; "video/mp4" ].

Fixpoint firstSupported (supported : string -> bool) (types : list string)
  : string :=
  match types with
  | [] => ""
  | type :: rest =>
      if supported type then type else firstSupported supported rest
  end.

Definition getSupportedMimeType (b : Browser) : string :=
  firstSupported b.(isTypeSupported) mimeTypes.

(** Line 307. *)
Definition recordingDuration (audioDuration : jsnum) : jsnum :=
  jsadd
    (jsmul (if truthy audioDuration && negb (isNaN audioDuration)
            then audioDuration else Fin 10)
       (Fin 1000))
    (Fin 1500).

(** [Math.min(elapsed / duration, 1)]. *)
Definition progressAt (duration : jsnum) (elapsed : Q) : jsnum :=
  jsmin (jsdiv (Fin elapsed) duration) (Fin 1).

(** What [draw] does when the recording is over (lines 355-358). *)
Definition stopEffects (bgm videoAsset : bool) : list Effect :=
  [ RecorderStop; Pause Narration ]
  ++ (if bgm then [ Pause Music ] else [])
  ++ (if videoAsset then [ Pause Asset ] else []).

(** One call of [draw]: the new [startTime], whether another frame was
    requested, and the effects.  The canvas calls of a frame are one
    [Paint]. *)
Definition draw (duration : jsnum) (bgm videoAsset : bool)
  (startTime timestamp : Q) : Q * bool * list Effect :=
  let startTime := if Qeq_bool startTime 0 then timestamp else startTime in
  let elapsed := (timestamp - startTime)%Q in
  let progress := progressAt duration elapsed in
  let again := jslt progress (Fin 1) in
  (startTime, again,
   [ setRecordingProgress (jsmul progress (Fin 100)); Paint progress ]
   ++ (if again then [ RequestAnimationFrame ] else stopEffects bgm videoAsset)).

(** The frames as the browser delivers them: [draw] runs on a timestamp only
    if the frame before asked for it.  The boolean tells whether the loop
    has stopped the recorder. *)
Fixpoint drawLoop (duration : jsnum) (bgm videoAsset : bool)
  (startTime : Q) (frames : list Q) : bool * list Effect :=
  match frames with
  | [] => (false, [])
  | timestamp :: rest =>
      let '(startTime', again, effects) :=
        draw duration bgm videoAsset startTime timestamp in
      if again then
        let '(stopped, later) := drawLoop duration bgm videoAsset startTime' rest in
        (stopped, effects ++ later)
      else (true, effects)
  end.

(** [recorder.onstop]. *)
Definition onstop (b : Browser) (chunks : list (list Z)) (mimeType : string)
  : list Effect :=
  [ NewBlob chunks mimeType;
    setVideoBlobUrl (Some (b.(createObjectURL) (mkBlob (List.concat chunks) mimeType)));
    setIsRecording false;
    AudioContextClose ].

Definition isVideo (m : MediaSource) : bool :=
  match m.(type) with Video => true | Image => false end.

(** What follows the audio load when it succeeds, up to the first request
    for a frame (lines 238-366, without the frames themselves).  The boolean
    is [bgm !== null]. *)
Definition prepare (b : Browser) (enabled throws : bool) (m : MediaSource)
  : bool * list Effect :=
  let '(bgm, music) := setupBackgroundMusic enabled throws in
  let combinedStream :=
    getVideoTracks (b.(captureStream) 30) ++ getAudioTracks b.(destinationStream) in
  let mimeType := getSupportedMimeType b in
  (bgm,
   [ CreateMediaElementSource Narration;
     Connect Narration RecordingDestination;
     Connect Narration Speakers ]
   ++ music
   ++ [ CaptureStream 30;
        NewMediaStream combinedStream;
        NewMediaRecorder combinedStream mimeType;
        LoadAsset m ]
   ++ (if isVideo m then [ Play Asset ] else [])
   ++ [ RecorderStart ]
   ++ (if b.(audioContextSuspended) then [ AudioContextResume ] else [])
   ++ [ Play Narration ]
   ++ (if bgm then [ Play Music ] else [])
   ++ [ RequestAnimationFrame ]).

(** The recording proper: the preparation, the frames that were delivered,
    and the stop event if the loop has stopped the recorder. *)
Definition record (b : Browser) (r : RecordingRun) (enabled : bool)
  (m : MediaSource) (audioDuration : jsnum) : list Effect :=
  let '(bgm, setup) := prepare b enabled r.(bgmSourceThrows) m in
  let duration := recordingDuration audioDuration in
  let '(stopped, frames) := drawLoop duration bgm (isVideo m) 0 r.(timestamps) in
  setup
  ++ frames
  ++ (if stopped then onstop b r.(dataEvents) (getSupportedMimeType b) else []).

(** Lines 212-236, then [record].  An empty audio URL is falsy like a
    missing one. *)
Definition startRecording (b : Browser) (r : RecordingRun) (st : State)
  : list Effect :=
  match st.(canvasRef), st.(audioUrl), st.(mediaSource), st.(productInfo) with
  | true, Some audio, Some m, Some _ =>
      if String.eqb audio "" then []
      else
        [ setIsRecording true;
          setRecordingProgress (Fin 0);
          setVideoBlobUrl None;
          NewAudio Narration audio ]
        ++ match r.(audioLoad) with
           | LoadedMetadata audioDuration =>
               record b r st.(useBackgroundMusic) m audioDuration
           | LoadError =>
               [ setError (Some "Erro ao carregar áudio da narração.");
                 setIsRecording false ]
           | LoadTimeout =>
               [ setError (Some "Tempo esgotado ao carregar áudio.");
                 setIsRecording false ]
           end
  | _, _, _, _ => []
  end.

(** *** Reading a list of effects *)

(** The effects that a selector picks, in order. *)
Fixpoint collect {A : Type} (f : Effect -> option A) (effects : list Effect)
  : list A :=
  match effects with
  | [] => []
  | e :: rest =>
      match f e with
      | Some a => a :: collect f rest
      | None => collect f rest
      end
  end.

Definition asProgress (e : Effect) : option jsnum :=
  match e with setRecordingProgress v => Some v | _ => None end.

Definition asPaint (e : Effect) : option jsnum :=
  match e with Paint p => Some p | _ => None end.

Definition asIsAnalyzing (e : Effect) : option bool :=
  match e with setIsAnalyzing v => Some v | _ => None end.

Definition asIsGeneratingAudio (e : Effect) : option bool :=
  match e with setIsGeneratingAudio v => Some v | _ => None end.

Definition asIsRecording (e : Effect) : option bool :=
  match e with setIsRecording v => Some v | _ => None end.

Definition asError (e : Effect) : option (option string) :=
  match e with setError v => Some v | _ => None end.

Definition asVideoBlobUrl (e : Effect) : option (option string) :=
  match e with setVideoBlobUrl v => Some v | _ => None end.

Definition asCapture (e : Effect) : option Z :=
  match e with CaptureStream fps => Some fps | _ => None end.

Definition asStream (e : Effect) : option (list Track) :=
  match e with NewMediaStream tracks => Some tracks | _ => None end.

Definition asRecorder (e : Effect) : option (list Track * string) :=
  match e with NewMediaRecorder tracks m => Some (tracks, m) | _ => None end.

Definition asRecorded (e : Effect) : option Element :=
  match e with Connect el RecordingDestination => Some el | _ => None end.

Definition asBlob (e : Effect) : option (list (list Z) * string) :=
  match e with NewBlob parts m => Some (parts, m) | _ => None end.

Definition asStop (e : Effect) : option unit :=
  match e with RecorderStop => Some tt | _ => None end.

Definition asStart (e : Effect) : option unit :=
  match e with RecorderStart => Some tt | _ => None end.

(** Every call on the music element: its configuration, its source, its
    connections, play and pause. *)
Definition asMusic (e : Effect) : option Effect :=
  match e with
  | NewAudio Music _ | SetVolume Music _ | SetLoop Music _
  | CreateMediaElementSource Music | Connect Music _
  | Play Music | Pause Music => Some e
  | _ => None
  end.

(** The values that the frames of a run pass to [setRecordingProgress]. *)
Definition progressValues (effects : list Effect) : list jsnum :=
  collect asProgress effects.

(** The value a cell holds after a list of writes to it. *)
Definition latest {A : Type} (writes : list A) (before : A) : A :=
  fold_left (fun _ v => v) writes before.

(** The effects a call of [draw] can have. *)
Definition frameEffect (e : Effect) : bool :=
  match e with
  | setRecordingProgress _ | Paint _ | RequestAnimationFrame
  | RecorderStop | Pause _ => true
  | _ => false
  end.

(** *** Reading the frames *)

(** [elapsed] in each call of [draw], were the loop never to stop. *)
Fixpoint elapsedSeq (startTime : Q) (frames : list Q) : list Q :=
  match frames with
  | [] => []
  | timestamp :: rest =>
      let startTime := if Qeq_bool startTime 0 then timestamp else startTime in
      (timestamp - startTime)%Q :: elapsedSeq startTime rest
  end.

Fixpoint nondecreasing (l : list Q) : Prop :=
  match l with
  | a :: (b :: _) as rest => (a <= b)%Q /\ nondecreasing rest
  | _ => True
  end.

(** What a media element reports as its duration: NaN before the metadata
    is there, infinity for an unbounded stream, a length in seconds
    otherwise. *)
Definition mediaDuration (d : jsnum) : Prop :=
  match d with
  | NaN | PInf => True
  | NInf => False
  | Fin q => (0 <= q)%Q
  end.

(** The finite value of [progressAt] for a duration that is positive or
    infinite. *)
Definition progressOf (duration : jsnum) (elapsed : Q) : Q :=
  match duration with
  | Fin d => if Qle_bool (elapsed / d) 1 then (elapsed / d)%Q else 1%Q
  | _ => 0%Q
  end.

Definition positiveDuration (duration : jsnum) : Prop :=
  match duration with
  | PInf => True
  | Fin d => (0 < d)%Q
  | _ => False
  end.

(** Whether [startRecording] passes its first line. *)
Definition canRecord (st : State) : bool :=
  st.(canvasRef) && present st.(audioUrl) && isSome st.(mediaSource)
  && isSome st.(productInfo).

Definition sampleBrowser : Browser :=
  mkBrowser (fun _ => "blob:1")
    (fun t => String.eqb t "video/webm" || String.eqb t "video/mp4")
    (fun _ => [ VideoTrack 0 ]) [ AudioTrack 1 ] false.

Definition sampleInfo : ProductInfo :=
  mkProductInfo "Fone" "Fone sem fio" [ "leve" ] (Some "Olha o que achei!")
    (Some "Olha!") (Some "sliding").

Definition idle : State :=
  mkState None "" "" "" Auto Female false false false None None None None
    (Fin 0) true true.

(** A state ready to record: media uploaded, analysed and narrated. *)
Definition ready : State :=
  mkState (Some (mkMediaSource "blob:0" Video)) "" "Olha!" "Olha o que achei!"
    Auto Female false false false (Some sampleInfo) (Some "blob:1") None None
    (Fin 0) true true.

(** A one-second narration, so 2500 ms of recording, and four frames. *)
Definition sampleRun : RecordingRun :=
  mkRecordingRun (LoadedMetadata (Fin 1)) false [ 16; 1216; 2600; 2700 ]%Q
    [ [ 1; 2 ]%Z; [ 3 ]%Z ].

(** *** The loop as the claim words it *)

(** [elapsed / duration < 1]. *)
Definition again (duration : jsnum) (elapsed : Q) : bool :=
  jslt (jsdiv (Fin elapsed) duration) (Fin 1).

(** The frames that are drawn, given the elapsed time of every delivered
    frame: all of them up to and including the first one at which
    [elapsed / duration < 1] fails. *)
Fixpoint drawnFrames (duration : jsnum) (elapsed : list Q) : list Q :=
  match elapsed with
  | [] => []
  | e :: rest =>
      if again duration e then e :: drawnFrames duration rest else [ e ]
  end.

(** What one drawn frame does, given its elapsed time. *)
Definition frameEffects (duration : jsnum) (bgm videoAsset : bool) (e : Q)
  : list Effect :=
  [ setRecordingProgress (jsmul (progressAt duration e) (Fin 100));
    Paint (progressAt duration e) ]
  ++ (if again duration e
      then [ RequestAnimationFrame ]
      else [ RecorderStop; Pause Narration ]
           ++ (if bgm then [ Pause Music ] else [])
           ++ (if videoAsset then [ Pause Asset ] else [])).

(** *** More ways to read a list of effects *)




(** The effects that [startRecording] has: everything but the setters of
    the cells it never writes. *)
Definition recordingEffect (e : Effect) : bool :=
  match e with
  | setMediaSource _ | setManualHeadline _ | setManualScript _
  | setIsAnalyzing _ | setIsGeneratingAudio _ | setProductInfo _
  | setAudioUrl _ => false
  | _ => true
  end.

(** The cells that no effect of [startRecording] writes. *)
Definition sameInputs (st st' : State) : Prop :=
  st'.(mediaSource) = st.(mediaSource)
  /\ st'.(userProductDescription) = st.(userProductDescription)
  /\ st'.(manualHeadline) = st.(manualHeadline)
  /\ st'.(manualScript) = st.(manualScript)
  /\ st'.(activeScriptType) = st.(activeScriptType)
  /\ st'.(voiceGender) = st.(voiceGender)
  /\ st'.(isAnalyzing) = st.(isAnalyzing)
  /\ st'.(isGeneratingAudio) = st.(isGeneratingAudio)
  /\ st'.(productInfo) = st.(productInfo)
  /\ st'.(audioUrl) = st.(audioUrl)
  /\ st'.(useBackgroundMusic) = st.(useBackgroundMusic)
  /\ st'.(canvasRef) = st.(canvasRef).

(** [currentHeadline] of [draw] (line 338); the headline of the analysis
    may be absent. *)
Definition currentHeadline (st : State) : option string :=
  match st.(activeScriptType) with
  | Auto => match st.(productInfo) with
            | Some info => info.(headline)
            | None => None
            end
  | Manual => Some st.(manualHeadline)
  end.

(** [Math.round]: the nearest integer, halves going up. *)
Definition mathRound (a : jsnum) : jsnum :=
  match a with
  | Fin q => Fin (inject_Z (Qfloor (q + (1 # 2))%Q))
  | other => other
  end.

(** The frames up to and including the first one that comes [d] or more
    after [s]. *)
Fixpoint untilElapsed (s d : Q) (frames : list Q) : list Q :=
  match frames with
  | [] => []
  | t :: rest =>
      if Qle_bool d (t - s)%Q then [ t ] else t :: untilElapsed s d rest
  end.

(** The [download] attribute of the link under the finished video; [now]
    is [Date.now()] as the template literal prints it. *)
Definition downloadName (now : string) : string :=
  String.append "shopee-achadinho-" (String.append now ".webm").

(** The state of the first render: the defaults of the [useState] calls,
    and no canvas yet. *)
Definition initial : State :=
  mkState None "" "" "" Auto Female false false false None None None None
    (Fin 0) true false.

End App.

(* ------------------------------------------------------------------ *)
(** ** The page: which control fires which handler, and when *)

Module Session.

Import JsNum App.
Local Open Scope string_scope.
Local Open Scope list_scope.

(** The setters that the JSX calls inline. *)
Definition setUserProductDescription (v : string) (st : State) : State :=
  mkState st.(mediaSource) v st.(manualHeadline)
    st.(manualScript) st.(activeScriptType) st.(voiceGender)
    st.(isAnalyzing) st.(isGeneratingAudio) st.(isRecording)
    st.(productInfo) st.(audioUrl) st.(videoBlobUrl) st.(error)
    st.(recordingProgress) st.(useBackgroundMusic) st.(canvasRef).

Definition setActiveScriptType (v : ScriptType) (st : State) : State :=
  mkState st.(mediaSource) st.(userProductDescription) st.(manualHeadline)
    st.(manualScript) v st.(voiceGender)
    st.(isAnalyzing) st.(isGeneratingAudio) st.(isRecording)
    st.(productInfo) st.(audioUrl) st.(videoBlobUrl) st.(error)
    st.(recordingProgress) st.(useBackgroundMusic) st.(canvasRef).

Definition setVoiceGender (v : VoiceGender) (st : State) : State :=
  mkState st.(mediaSource) st.(userProductDescription) st.(manualHeadline)
    st.(manualScript) st.(activeScriptType) v
    st.(isAnalyzing) st.(isGeneratingAudio) st.(isRecording)
    st.(productInfo) st.(audioUrl) st.(videoBlobUrl) st.(error)
    st.(recordingProgress) st.(useBackgroundMusic) st.(canvasRef).

Definition setUseBackgroundMusic (v : bool) (st : State) : State :=
  mkState st.(mediaSource) st.(userProductDescription) st.(manualHeadline)
    st.(manualScript) st.(activeScriptType) st.(voiceGender)
    st.(isAnalyzing) st.(isGeneratingAudio) st.(isRecording)
    st.(productInfo) st.(audioUrl) st.(videoBlobUrl) st.(error)
    st.(recordingProgress) v st.(canvasRef).

(** After a render the ref holds the canvas exactly when the studio card,
    which [productInfo &&] guards, is on the page. *)
Definition commit (st : State) : State :=
  mkState st.(mediaSource) st.(userProductDescription) st.(manualHeadline)
    st.(manualScript) st.(activeScriptType) st.(voiceGender)
    st.(isAnalyzing) st.(isGeneratingAudio) st.(isRecording)
    st.(productInfo) st.(audioUrl) st.(videoBlobUrl) st.(error)
    st.(recordingProgress) st.(useBackgroundMusic) (isSome st.(productInfo)).

(** What the user can do on the page; a handler comes with the outcome of
    what it awaits. *)
Inductive Event : Type :=
| Upload (file : option Blob)
| TypeDescription (v : string)
| SelectVoice (v : VoiceGender)
| Analyze (outcome : AnalysisOutcome)
| Generate (outcome : SpeechOutcome)
| Record (r : RecordingRun)
| ToggleMusic
| SelectScriptType (v : ScriptType)
| EditHeadline (v : string)
| EditScript (v : string)
| TypeManualHeadline (v : string)
| TypeManualScript (v : string).

Definition isManual (st : State) : bool :=
  match st.(activeScriptType) with Manual => true | Auto => false end.

(** The [disabled] attributes of the four buttons. *)
Definition analyzeDisabled (st : State) : bool :=
  negb (isSome st.(mediaSource)) || st.(isAnalyzing).

Definition topGenerateDisabled (st : State) : bool := st.(isGeneratingAudio).

Definition bottomGenerateDisabled (st : State) : bool :=
  st.(isGeneratingAudio)
  || (isManual st && negb (present (Some st.(manualScript)))).

Definition recordDisabled (st : State) : bool :=
  negb (present st.(audioUrl)) || st.(isRecording).

(** Whether the control of an event is on the page and not disabled.  The
    studio and the script card are rendered under [productInfo &&], the
    first voice button under [!audioUrl], the automatic fields in the
    automatic tab and the manual ones in the manual tab. *)
Definition enabled (ev : Event) (st : State) : bool :=
  match ev with
  | Upload _ | TypeDescription _ | SelectVoice _ => true
  | Analyze _ => negb (analyzeDisabled st)
  | Generate _ =>
      isSome st.(productInfo)
      && ((negb (present st.(audioUrl)) && negb (topGenerateDisabled st))
          || negb (bottomGenerateDisabled st))
  | Record _ => isSome st.(productInfo) && negb (recordDisabled st)
  | ToggleMusic | SelectScriptType _ => isSome st.(productInfo)
  | EditHeadline _ | EditScript _ =>
      isSome st.(productInfo) && negb (isManual st)
  | TypeManualHeadline _ | TypeManualScript _ =>
      isSome st.(productInfo) && isManual st
  end.

(** [{...productInfo, headline: v}] and [{...productInfo, script: v}]. *)
Definition withHeadline (v : string) (info : ProductInfo) : ProductInfo :=
  mkProductInfo info.(name) info.(description) info.(features) info.(script)
    (Some v) info.(animationType).

Definition withScript (v : string) (info : ProductInfo) : ProductInfo :=
  mkProductInfo info.(name) info.(description) info.(features) (Some v)
    info.(headline) info.(animationType).

Definition editInfo (f : ProductInfo -> ProductInfo) (st : State) : State :=
  match st.(productInfo) with
  | Some info => run [ setProductInfo (Some (f info)) ] st
  | None => st
  end.

(** The state that the next render shows after an event: after the handler
    has settled or, for a [Record] event, after the frames delivered to it;
    what a recording does after that is a [Late] step. *)
Definition step (b : Browser) (ev : Event) (st : State) : State :=
  commit
    match ev with
    | Upload file => run (handleMediaUpload b file) st
    | TypeDescription v => setUserProductDescription v st
    | SelectVoice v => setVoiceGender v st
    | Analyze outcome => run (analyzeProduct outcome st) st
    | Generate outcome => run (generateAudio b outcome st) st
    | Record r => run (startRecording b r st) st
    | ToggleMusic => setUseBackgroundMusic (negb st.(useBackgroundMusic)) st
    | SelectScriptType v => setActiveScriptType v st
    | EditHeadline v => editInfo (withHeadline v) st
    | EditScript v => editInfo (withScript v) st
    | TypeManualHeadline v => run [ setManualHeadline v ] st
    | TypeManualScript v => run [ setManualScript v ] st
    end.

(** What a recording that is still running does later, between or after
    other events: a further call of [draw] shows a progress, and the stop
    event of the recorder runs [onstop] with the chunks delivered. *)
Inductive Late : Type :=
| LateFrame (progress : jsnum)
| LateStop (chunks : list (list Z)).

Definition late (b : Browser) (l : Late) (st : State) : State :=
  commit
    match l with
    | LateFrame progress => run [ setRecordingProgress progress ] st
    | LateStop chunks => run (onstop b chunks (getSupportedMimeType b)) st
    end.

(** The states of a session: from the first render, by events whose control
    is on the page and not disabled, and by the late effects of a recording
    while one is running.  The handlers of an upload, an analysis and a
    narration have settled before the next event; a [Record] event covers the
    frames delivered up to the next event, and if the recorder has not been
    stopped by then the recording goes on, under [isRecording], through
    [Late] steps. *)
Inductive reachable (b : Browser) : State -> Prop :=
| reachable_initial : reachable b initial
| reachable_step (ev : Event) (st : State) :
    reachable b st -> enabled ev st = true -> reachable b (step b ev st)
| reachable_late (l : Late) (st : State) :
    reachable b st -> st.(isRecording) = true -> reachable b (late b l st).

(** The order of the pipeline, read as a property of a state: an analysis,
    a narration, a video and a running recording only with media, and no
    analysis or narration request under way. *)
Definition coherent (st : State) : Prop :=
  (isSome st.(productInfo) = true -> isSome st.(mediaSource) = true)
  /\ (isSome st.(audioUrl) = true -> isSome st.(mediaSource) = true)
  /\ (isSome st.(videoBlobUrl) = true -> isSome st.(mediaSource) = true)
  /\ st.(isAnalyzing) = false
  /\ st.(isGeneratingAudio) = false
  /\ (st.(isRecording) = true -> isSome st.(mediaSource) = true).

Definition consistent (st : State) : Prop :=
  coherent st /\ st.(canvasRef) = isSome st.(productInfo).


(** A browser that records mp4 only. *)
Definition mp4Browser : Browser :=
  mkBrowser (fun _ => "blob:2") (fun t => String.eqb t "video/mp4")
    (fun _ => [ VideoTrack 0 ]) [ AudioTrack 1 ] false.

(** A run of events from a state, each one checked against the page. *)
Fixpoint play (b : Browser) (events : list Event) (st : State) : option State :=
  match events with
  | [] => Some st
  | ev :: rest =>
      if enabled ev st then play b rest (step b ev st) else None
  end.

End Session.

(* ------------------------------------------------------------------ *)
(** ** Facts about the special values *)

Module JsNumFacts.

Import JsNum.
Local Open Scope Q_scope.

Lemma Qltb_lt (a b : Q) : Qltb a b = true <-> a < b.
Proof.
  unfold Qltb. rewrite negb_true_iff.
  destruct (Qle_bool b a) eqn:E.
  - apply Qle_bool_iff in E. split; [discriminate | intro H; exfalso; Lqa.lra].
  - split; [intros _ | reflexivity].
    destruct (Qlt_le_dec a b) as [H | H]; [exact H |].
    apply Qle_bool_iff in H. congruence.
Qed.

Lemma Qeq_bool_false (a b : Q) : Qeq_bool a b = false <-> ~ a == b.
Proof.
  split.
  - intros E H. apply Qeq_bool_iff in H. congruence.
  - intro H. destruct (Qeq_bool a b) eqn:E; [| reflexivity].
    apply Qeq_bool_iff in E. contradiction.
Qed.

End JsNumFacts.

(* ------------------------------------------------------------------ *)
(** ** The WAV header: properties *)

Module WavFacts.

Import Wav.
Local Open Scope Z_scope.

Example wavHeader_empty :
  wavHeader 0 =
  Some [82; 73; 70; 70; 36; 0; 0; 0; 87; 65; 86; 69; 102; 109; 116; 32;
        16; 0; 0; 0; 1; 0; 1; 0; 192; 93; 0; 0; 128; 187; 0; 0;
        2; 0; 16; 0; 100; 97; 116; 97; 0; 0; 0; 0].
Proof. reflexivity. Qed.

Example wavBlob_two :
  wavBlob "ab" =
  Some [82; 73; 70; 70; 38; 0; 0; 0; 87; 65; 86; 69; 102; 109; 116; 32;
        16; 0; 0; 0; 1; 0; 1; 0; 192; 93; 0; 0; 128; 187; 0; 0;
        2; 0; 16; 0; 100; 97; 116; 97; 2; 0; 0; 0; 97; 98].
Proof. reflexivity. Qed.

Lemma fromOctetsLE_octetsLE4 (v : Z) :
  0 <= v < 2 ^ 32 -> fromOctetsLE (octetsLE 4 v) = v.
Proof.
  intros Hv. unfold octetsLE, fromOctetsLE, octet. cbn [seq map fold_right].
  change 255 with (Z.ones 8).
  rewrite !Z.land_ones by lia.
  rewrite !Z.shiftr_div_pow2 by lia.
  change (8 * Z.of_nat 0) with 0. change (8 * Z.of_nat 1) with 8.
  change (8 * Z.of_nat 2) with 16. change (8 * Z.of_nat 3) with 24.
  change (2 ^ 0) with 1. change (2 ^ 8) with 256.
  change (2 ^ 16) with 65536. change (2 ^ 24) with 16777216.
  change (2 ^ 32) with 4294967296 in Hv.
  Z.div_mod_to_equations. lia.
Qed.

Lemma charCodes_length (s : string) :
  List.length (charCodes s) = String.length s.
Proof. induction s as [| c s IH]; cbn; [reflexivity | now rewrite IH]. Qed.

Lemma charCodes_range (s : string) :
  Forall (fun b => 0 <= b < 256) (charCodes s).
Proof.
  induction s as [| c s IH]; cbn; constructor; [| exact IH].
  pose proof (nat_ascii_bounded c). lia.
Qed.

Arguments octet : simpl never.
Arguments ToUint : simpl never.

(** The header as an explicit list, with the two length fields symbolic. *)
Lemma wavHeader_bytes (len : Z) :
  wavHeader len =
  Some ([82; 73; 70; 70] ++ octetsLE 4 (ToUint 4 (36 + len))
        ++ [87; 65; 86; 69; 102; 109; 116; 32;
            16; 0; 0; 0; 1; 0; 1; 0; 192; 93; 0; 0; 128; 187; 0; 0;
            2; 0; 16; 0; 100; 97; 116; 97]
        ++ octetsLE 4 (ToUint 4 len)).
Proof.
  unfold wavHeader, setUint32, setUint16, setUint, ArrayBuffer, octetsLE.
  cbn [bind repeat length Nat.add Nat.leb firstn skipn app seq map rev].
  reflexivity.
Qed.

Lemma ToUint4_range (v : Z) : 0 <= ToUint 4 v < 2 ^ 32.
Proof. unfold ToUint. apply Z.mod_pos_bound. reflexivity. Qed.

(** The two length fields hold their values modulo 2^32, whatever the
    length. *)
Lemma wavHeader_length_fields (len : Z) :
  exists header,
    wavHeader len = Some header /\
    List.length header = 44%nat /\
    getUint32 header 4 true = Some ((36 + len) mod 2 ^ 32) /\
    getUint32 header 40 true = Some (len mod 2 ^ 32).
Proof.
  rewrite wavHeader_bytes. eexists. split; [reflexivity |].
  split; [reflexivity |].
  unfold getUint32, getUint.
  split.
  - cbn [List.length app octetsLE map seq Nat.add Nat.leb firstn skipn].
    change [octet (ToUint 4 (36 + len)) 0; octet (ToUint 4 (36 + len)) 1;
            octet (ToUint 4 (36 + len)) 2; octet (ToUint 4 (36 + len)) 3]
      with (octetsLE 4 (ToUint 4 (36 + len))).
    rewrite fromOctetsLE_octetsLE4 by apply ToUint4_range. reflexivity.
  - cbn [List.length app octetsLE map seq Nat.add Nat.leb firstn skipn].
    change [octet (ToUint 4 len) 0; octet (ToUint 4 len) 1;
            octet (ToUint 4 len) 2; octet (ToUint 4 len) 3]
      with (octetsLE 4 (ToUint 4 len)).
    rewrite fromOctetsLE_octetsLE4 by apply ToUint4_range. reflexivity.
Qed.

(** C1.  [generateAudio] puts a 44-byte WAV header in front of the decoded
    bytes.  For every decoded string of [n] bytes with [36 + n < 2^32] (the
    range of the 32-bit size fields), the blob is the header followed by the
    bytes; read back through the [DataView], the RIFF chunk size at offset 4
    is [36 + n] and the data chunk size at offset 40 is [n], both
    little-endian; the fmt chunk has size 16 and declares format 1 (PCM),
    1 channel, 24000 Hz, byte rate 48000, block align 2 and 16 bits per
    sample; and the words RIFF, WAVE, fmt and data stand big-endian at
    offsets 0, 8, 12 and 36. *)
Theorem generateAudio_wav_header (binaryString : string) :
  let bytes := charCodes binaryString in
  let n := Z.of_nat (List.length bytes) in
  36 + n < 2 ^ 32 ->
  exists header,
    wavHeader n = Some header /\
    wavBlob binaryString = Some (header ++ bytes) /\
    List.length header = 44%nat /\
    getUint32 header 4 true = Some (36 + n) /\
    getUint32 header 40 true = Some n /\
    getUint32 header 16 true = Some 16 /\
    getUint16 header 20 true = Some 1 /\
    getUint16 header 22 true = Some 1 /\
    getUint32 header 24 true = Some 24000 /\
    getUint32 header 28 true = Some 48000 /\
    getUint16 header 32 true = Some 2 /\
    getUint16 header 34 true = Some 16 /\
    getUint32 header 0 false = Some 0x52494646 /\
    getUint32 header 8 false = Some 0x57415645 /\
    getUint32 header 12 false = Some 0x666d7420 /\
    getUint32 header 36 false = Some 0x64617461 /\
    firstn 4 header = charCodes "RIFF" /\
    firstn 4 (skipn 8 header) = charCodes "WAVE" /\
    firstn 4 (skipn 12 header) = charCodes "fmt " /\
    firstn 4 (skipn 36 header) = charCodes "data".
Proof.
  intros bytes n Hn.
  assert (H0 : 0 <= n) by (unfold n; lia).
  destruct (wavHeader_length_fields n) as (header & Hh & Hlen & H4 & H40).
  exists header.
  rewrite Z.mod_small in H4 by lia.
  rewrite Z.mod_small in H40 by lia.
  split; [exact Hh |].
  split; [unfold wavBlob; fold bytes; fold n; rewrite Hh; reflexivity |].
  split; [exact Hlen |].
  split; [exact H4 |].
  split; [exact H40 |].
  rewrite wavHeader_bytes in Hh. injection Hh as <-.
  repeat split; reflexivity.
Qed.

(** The header of a two-byte narration. *)
Lemma generateAudio_wav_header_witness :
  36 + Z.of_nat (List.length (charCodes "ab")) < 2 ^ 32
  /\ exists header,
      wavHeader 2 = Some header
      /\ getUint32 header 4 true = Some 38
      /\ getUint32 header 40 true = Some 2.
Proof.
  assert (Hn : 36 + Z.of_nat (List.length (charCodes "ab")) < 2 ^ 32)
    by reflexivity.
  split; [exact Hn |].
  destruct (generateAudio_wav_header "ab" Hn)
    as (header & Hh & _ & _ & H4 & H40 & _).
  exists header. repeat split; assumption.
Defined.

End WavFacts.

(* ------------------------------------------------------------------ *)
(** ** The animation branches: properties *)

Module AnimFacts.

Import Anim.
Local Open Scope string_scope.
Local Open Scope R_scope.

Lemma animate_missing (p r1 r2 : R) :
  animate None p r1 r2 = animate (Some "panning") p r1 r2
  /\ animate (Some "") p r1 r2 = animate (Some "panning") p r1 r2.
Proof. split; reflexivity. Qed.

Lemma animate_scale (a : option string) (p r1 r2 : R) :
  s (animate a p r1 r2) = 11 / 10.
Proof.
  unfold animate.
  repeat match goal with
         | |- context [if ?b then _ else _] => destruct b
         end; reflexivity.
Qed.

Lemma animate_unrecognized (t : string) (p r1 r2 : R) :
  t <> ""%string -> recognized t = false ->
  animate (Some t) p r1 r2 = mkPlacement 0 0 (11 / 10).
Proof.
  intros Ht Hr. unfold animate, animTypeOf.
  apply String.eqb_neq in Ht. rewrite Ht.
  unfold recognized in Hr.
  repeat (apply orb_false_iff in Hr; destruct Hr as [Hr ?]).
  repeat match goal with
         | H : String.eqb _ _ = false |- _ => rewrite H; clear H
         end.
  reflexivity.
Qed.

Lemma panning_range (p : R) : 0 <= p <= 1 -> 0 <= sin (p * PI) * 50 <= 50.
Proof.
  intros [H0 H1]. pose proof PI_RGT_0 as Hpi.
  assert (Hp0 : 0 <= p * PI) by (apply Rmult_le_pos; lra).
  assert (Hp1 : p * PI <= PI).
  { rewrite <- (Rmult_1_l PI) at 2. apply Rmult_le_compat_r; lra. }
  assert (Hs0 : 0 <= sin (p * PI)) by (apply sin_ge_0; assumption).
  pose proof (SIN_bound (p * PI)) as [_ Hs1]. lra.
Qed.

Lemma bouncing_range (p : R) : -30 <= sin (p * PI * 4) * 30 <= 30.
Proof. pose proof (SIN_bound (p * PI * 4)) as [Hl Hu]. lra. Qed.

Lemma sin_half_PI : sin (1 / 2 * PI) = 1.
Proof.
  replace (1 / 2 * PI) with (PI / 2) by lra. exact sin_PI2.
Qed.

Example animate_panning_halfway :
  animate (Some "panning") (1 / 2) 0 0 = mkPlacement 50 0 (11 / 10).
Proof.
  unfold animate, animTypeOf. cbn [String.eqb Ascii.eqb Bool.eqb].
  rewrite sin_half_PI. f_equal. lra.
Qed.

Example animate_vibrating_low :
  animate (Some "vibrating") (1 / 2) 0 0 = mkPlacement (-5) (-5) (11 / 10).
Proof.
  unfold animate, animTypeOf. cbn [String.eqb Ascii.eqb Bool.eqb].
  f_equal; lra.
Qed.

(** C3 as the claim has it fails twice.  An animation type that is present
    but is none of the four names is not drawn as panning: halfway through,
    panning has moved the picture by 50 and the unknown type by nothing.  And
    the vibrating offsets reach -5, when [Math.random()] returns 0. *)
Lemma draw_unrecognized_is_not_panning :
  animate (Some "zooming") (1 / 2) 0 0 <> animate (Some "panning") (1 / 2) 0 0
  /\ ~ (-5 < x (animate (Some "vibrating") (1 / 2) 0 0) < 5).
Proof.
  split.
  - rewrite animate_panning_halfway.
    rewrite animate_unrecognized by (discriminate || reflexivity).
    intro H. apply (f_equal x) in H. cbn [x] in H. lra.
  - rewrite animate_vibrating_low. cbn [x]. lra.
Qed.

(** C3, amended.  [draw] selects the animation by [productInfo.animationType],
    an absent or empty type standing for panning.  For every progress [p] in
    [0,1] and every pair of [Math.random()] results in [0,1): panning sets
    [x = sin(p*pi)*50], in [0,50], and [y = 0]; bouncing sets
    [y = sin(p*pi*4)*30], in [-30,30], and [x = 0]; sliding sets
    [x = -100 + p*200], from -100 at [p = 0] to 100 at [p = 1], and [y = 0];
    vibrating sets [x] and [y] to values in [-5,5); any other type leaves
    [x = 0] and [y = 0]; and the scale is 1.1 in every case. *)
Theorem draw_animation_branches (p r1 r2 : R) :
  0 <= p <= 1 -> 0 <= r1 < 1 -> 0 <= r2 < 1 ->
  animate None p r1 r2 = animate (Some "panning") p r1 r2
  /\ animate (Some "") p r1 r2 = animate (Some "panning") p r1 r2
  /\ (let a := animate (Some "panning") p r1 r2 in
      x a = sin (p * PI) * 50 /\ y a = 0 /\ 0 <= x a <= 50)
  /\ (let a := animate (Some "bouncing") p r1 r2 in
      y a = sin (p * PI * 4) * 30 /\ x a = 0 /\ -30 <= y a <= 30)
  /\ (let a := animate (Some "sliding") p r1 r2 in
      x a = -100 + p * 200 /\ y a = 0 /\ -100 <= x a <= 100)
  /\ x (animate (Some "sliding") 0 r1 r2) = -100
  /\ x (animate (Some "sliding") 1 r1 r2) = 100
  /\ (let a := animate (Some "vibrating") p r1 r2 in
      x a = (r1 - 1 / 2) * 10 /\ y a = (r2 - 1 / 2) * 10
      /\ -5 <= x a < 5 /\ -5 <= y a < 5)
  /\ (forall t : string, t <> ""%string -> recognized t = false ->
      x (animate (Some t) p r1 r2) = 0 /\ y (animate (Some t) p r1 r2) = 0)
  /\ (forall a : option string, s (animate a p r1 r2) = 11 / 10).
Proof.
  intros Hp Hr1 Hr2.
  split; [reflexivity |]. split; [reflexivity |].
  split.
  { cbv zeta. unfold animate, animTypeOf. cbn [String.eqb Ascii.eqb Bool.eqb x y].
    split; [reflexivity |]. split; [reflexivity |]. apply panning_range, Hp. }
  split.
  { cbv zeta. unfold animate, animTypeOf. cbn [String.eqb Ascii.eqb Bool.eqb x y].
    split; [reflexivity |]. split; [reflexivity |]. apply bouncing_range. }
  split.
  { cbv zeta. unfold animate, animTypeOf. cbn [String.eqb Ascii.eqb Bool.eqb x y].
    split; [reflexivity |]. split; [reflexivity |]. lra. }
  split.
  { unfold animate, animTypeOf. cbn [String.eqb Ascii.eqb Bool.eqb x]. lra. }
  split.
  { unfold animate, animTypeOf. cbn [String.eqb Ascii.eqb Bool.eqb x]. lra. }
  split.
  { cbv zeta. unfold animate, animTypeOf. cbn [String.eqb Ascii.eqb Bool.eqb x y].
    split; [reflexivity |]. split; [reflexivity |]. lra. }
  split.
  { intros t Ht Hrec. rewrite (animate_unrecognized t p r1 r2 Ht Hrec).
    split; reflexivity. }
  intro a. apply animate_scale.
Qed.

(** A quarter of the way through, with both random draws at one half. *)
Lemma draw_animation_branches_witness :
  (0 <= 1 / 4 <= 1)
  /\ x (animate (Some "sliding") (1 / 4) (1 / 2) (1 / 2)) = -100 + 1 / 4 * 200
  /\ x (animate (Some "vibrating") (1 / 4) (1 / 2) (1 / 2)) = (1 / 2 - 1 / 2) * 10.
Proof.
  assert (Hp : 0 <= 1 / 4 <= 1) by lra.
  assert (Hr : 0 <= 1 / 2 < 1) by lra.
  pose proof (draw_animation_branches (1 / 4) (1 / 2) (1 / 2) Hp Hr Hr)
    as (_ & _ & _ & _ & (Hs & _) & _ & _ & (Hv & _) & _).
  split; [exact Hp |]. split; [exact Hs | exact Hv].
Defined.

End AnimFacts.

(* ------------------------------------------------------------------ *)
(** ** The handlers: properties *)

Module AppFacts.

Import JsNum JsNumFacts App.
Local Open Scope string_scope.
Local Open Scope list_scope.

Example startRecording_sample :
  startRecording sampleBrowser sampleRun ready =
  [ setIsRecording true; setRecordingProgress (Fin 0); setVideoBlobUrl None;
    NewAudio Narration "blob:1";
    CreateMediaElementSource Narration;
    Connect Narration RecordingDestination; Connect Narration Speakers;
    NewAudio Music BGM_URL; SetVolume Music 0.15; SetLoop Music true;
    CreateMediaElementSource Music;
    Connect Music RecordingDestination; Connect Music Speakers;
    CaptureStream 30;
    NewMediaStream [ VideoTrack 0; AudioTrack 1 ];
    NewMediaRecorder [ VideoTrack 0; AudioTrack 1 ] "video/webm";
    LoadAsset (mkMediaSource "blob:0" Video); Play Asset;
    RecorderStart; Play Narration; Play Music; RequestAnimationFrame;
    setRecordingProgress (Fin (0 # 2500)); Paint (Fin (0 # 2500));
    RequestAnimationFrame;
    setRecordingProgress (Fin (120000 # 2500)); Paint (Fin (1200 # 2500));
    RequestAnimationFrame;
    setRecordingProgress (Fin 100); Paint (Fin 1);
    RecorderStop; Pause Narration; Pause Music; Pause Asset;
    NewBlob [ [ 1; 2 ]%Z; [ 3 ]%Z ] "video/webm";
    setVideoBlobUrl (Some "blob:1"); setIsRecording false; AudioContextClose ].
Proof. reflexivity. Qed.

(** *** Plumbing *)

Lemma run_nil (st : State) : run [] st = st.
Proof. reflexivity. Qed.

Lemma prefix_app (p t : string) :
  String.prefix p t = true <-> exists rest, t = String.append p rest.
Proof.
  revert t. induction p as [| a p IH]; intro t.
  - split; [intros _; exists t; reflexivity | intros _; destruct t; reflexivity].
  - destruct t as [| c t]; cbn.
    + split; [discriminate | intros [rest H]; discriminate].
    + destruct (ascii_dec a c) as [-> | Hneq].
      * rewrite IH. split; intros [rest H]; exists rest; congruence.
      * split; [discriminate | intros [rest H]; congruence].
Qed.

Lemma collect_app {A : Type} (f : Effect -> option A) (e1 e2 : list Effect) :
  collect f (e1 ++ e2) = collect f e1 ++ collect f e2.
Proof.
  induction e1 as [| e e1 IH]; cbn; [reflexivity |].
  destruct (f e); cbn; now rewrite IH.
Qed.

Lemma collect_none {A : Type} (f : Effect -> option A) (effects : list Effect) :
  Forall (fun e => f e = None) effects -> collect f effects = [].
Proof.
  induction 1 as [| e effects He _ IH]; cbn; [reflexivity |].
  now rewrite He.
Qed.

Lemma collect_if {A : Type} (f : Effect -> option A) (c : bool)
  (effects : list Effect) :
  collect f (if c then effects else []) = if c then collect f effects else [].
Proof. destruct c; reflexivity. Qed.

Lemma if_nil {A : Type} (c : bool) : (if c then @nil A else []) = [].
Proof. destruct c; reflexivity. Qed.

Ltac cell_is_latest :=
  let l := fresh "l" in
  let e := fresh "e" in
  let IH := fresh "IH" in
  intro l; induction l as [| e l IH]; intro st;
  [ reflexivity
  | unfold run in *; cbn [fold_left collect]; rewrite IH;
    destruct e; reflexivity ].

Lemma isAnalyzing_run : forall effects st,
  (run effects st).(isAnalyzing)
  = latest (collect asIsAnalyzing effects) st.(isAnalyzing).
Proof. cell_is_latest. Qed.

Lemma isGeneratingAudio_run : forall effects st,
  (run effects st).(isGeneratingAudio)
  = latest (collect asIsGeneratingAudio effects) st.(isGeneratingAudio).
Proof. cell_is_latest. Qed.

Lemma isRecording_run : forall effects st,
  (run effects st).(isRecording)
  = latest (collect asIsRecording effects) st.(isRecording).
Proof. cell_is_latest. Qed.

Lemma error_run : forall effects st,
  (run effects st).(error) = latest (collect asError effects) st.(error).
Proof. cell_is_latest. Qed.

Lemma videoBlobUrl_run : forall effects st,
  (run effects st).(videoBlobUrl)
  = latest (collect asVideoBlobUrl effects) st.(videoBlobUrl).
Proof. cell_is_latest. Qed.

(** *** The gate of startRecording *)

Lemma startRecording_closed (b : Browser) (r : RecordingRun) (st : State) :
  canRecord st = false -> startRecording b r st = [].
Proof.
  unfold canRecord, startRecording, present, isSome.
  destruct st.(canvasRef); [| reflexivity].
  destruct st.(audioUrl) as [audio |]; [| reflexivity].
  destruct (String.eqb audio ""); [destruct st.(mediaSource), st.(productInfo); reflexivity |].
  destruct st.(mediaSource); [| reflexivity].
  destruct st.(productInfo); [| reflexivity].
  discriminate.
Qed.

Lemma startRecording_open (b : Browser) (r : RecordingRun) (st : State) :
  canRecord st = true ->
  exists audio m,
    st.(audioUrl) = Some audio /\ st.(mediaSource) = Some m
    /\ startRecording b r st =
       [ setIsRecording true; setRecordingProgress (Fin 0);
         setVideoBlobUrl None; NewAudio Narration audio ]
       ++ match r.(audioLoad) with
          | LoadedMetadata audioDuration =>
              record b r st.(useBackgroundMusic) m audioDuration
          | LoadError =>
              [ setError (Some "Erro ao carregar áudio da narração.");
                setIsRecording false ]
          | LoadTimeout =>
              [ setError (Some "Tempo esgotado ao carregar áudio.");
                setIsRecording false ]
          end.
Proof.
  unfold canRecord, startRecording, present, isSome.
  destruct st.(canvasRef); [| discriminate].
  destruct st.(audioUrl) as [audio |]; [| discriminate].
  destruct (String.eqb audio "") eqn:Haudio; [discriminate |].
  destruct st.(mediaSource) as [m |]; [| discriminate].
  destruct st.(productInfo); [| discriminate].
  intros _. exists audio, m. repeat split.
Qed.

(** C4.  Each stage returns at once, with no effect and so no state change,
    when what it builds on is missing: [analyzeProduct] when mediaSource is
    null; [generateAudio] when the selected script (productInfo.script for
    auto, manualScript for manual) is absent or empty; [startRecording]
    unless the canvas, a non-empty audio URL, the media source and the
    product info are all there.  In every other case the stage starts, and
    its first effect raises its busy flag. *)
Theorem stages_are_gated (b : Browser) (a : AnalysisOutcome)
  (sp : SpeechOutcome) (r : RecordingRun) (st : State) :
  (st.(mediaSource) = None ->
     analyzeProduct a st = [] /\ run (analyzeProduct a st) st = st)
  /\ (st.(mediaSource) <> None ->
     hd_error (analyzeProduct a st) = Some (setIsAnalyzing true))
  /\ scriptToUse st =
     match st.(activeScriptType) with
     | Auto => match st.(productInfo) with
               | Some info => info.(script)
               | None => None
               end
     | Manual => Some st.(manualScript)
     end
  /\ (scriptToUse st = None \/ scriptToUse st = Some "" ->
     generateAudio b sp st = [] /\ run (generateAudio b sp st) st = st)
  /\ (scriptToUse st <> None -> scriptToUse st <> Some "" ->
     hd_error (generateAudio b sp st) = Some (setIsGeneratingAudio true))
  /\ (st.(canvasRef) = false \/ st.(audioUrl) = None \/ st.(audioUrl) = Some ""
      \/ st.(mediaSource) = None \/ st.(productInfo) = None ->
     startRecording b r st = [] /\ run (startRecording b r st) st = st)
  /\ (st.(canvasRef) = true -> st.(audioUrl) <> None -> st.(audioUrl) <> Some ""
      -> st.(mediaSource) <> None -> st.(productInfo) <> None ->
     hd_error (startRecording b r st) = Some (setIsRecording true)).
Proof.
  split.
  { intro H. unfold analyzeProduct. rewrite H. split; reflexivity. }
  split.
  { intro H. unfold analyzeProduct. destruct st.(mediaSource); [reflexivity | contradiction]. }
  split; [reflexivity |].
  split.
  { intro H. assert (Hp : present (scriptToUse st) = false)
      by (destruct H as [-> | ->]; reflexivity).
    unfold generateAudio. rewrite Hp. split; reflexivity. }
  split.
  { intros Hn He. unfold generateAudio.
    destruct (scriptToUse st) as [t |] eqn:Ht; [| contradiction]. cbn [present].
    destruct (String.eqb_spec t ""); [subst; contradiction | reflexivity]. }
  split.
  { intro H. assert (Hc : canRecord st = false).
    { unfold canRecord.
      destruct H as [-> | [-> | [-> | [-> | ->]]]]; cbn;
        rewrite ?andb_false_r; reflexivity. }
    rewrite (startRecording_closed b r st Hc). split; reflexivity. }
  intros Hc Ha He Hm Hi.
  assert (Hopen : canRecord st = true).
  { unfold canRecord. rewrite Hc.
    destruct st.(audioUrl) as [t |]; [| contradiction].
    destruct st.(mediaSource); [| contradiction].
    destruct st.(productInfo); [| contradiction].
    cbn. destruct (String.eqb_spec t ""); [subst; contradiction | reflexivity]. }
  destruct (startRecording_open b r st Hopen) as (audio & m & _ & _ & ->).
  reflexivity.
Qed.

(** Nothing uploaded yet: the three stages do nothing. *)
Lemma stages_are_gated_witness :
  idle.(mediaSource) = None
  /\ analyzeProduct (AnalysisThrew None) idle = []
  /\ generateAudio sampleBrowser SpeechEmpty idle = []
  /\ startRecording sampleBrowser sampleRun idle = [].
Proof.
  pose proof (stages_are_gated sampleBrowser (AnalysisThrew None) SpeechEmpty
                sampleRun idle) as (Ha & _ & _ & Hg & _ & Hr & _).
  split; [reflexivity |].
  split; [apply Ha; reflexivity |].
  split; [apply Hg; left; reflexivity |].
  apply Hr. right. left. reflexivity.
Defined.

(** *** The frame loop *)

Lemma jslt_jsmin_one (a : jsnum) :
  jslt (jsmin a (Fin 1)) (Fin 1) = jslt a (Fin 1).
Proof.
  destruct a as [| | | x]; try reflexivity.
  cbn [jsmin jslt]. destruct (Qle_bool x 1) eqn:Hx; [reflexivity |].
  cbn [jslt]. unfold Qltb.
  assert (H1 : Qle_bool 1 1 = true) by reflexivity.
  assert (H2 : Qle_bool 1 x = true).
  { apply Qle_bool_iff. destruct (Qlt_le_dec 1 x) as [H | H].
    - apply Qlt_le_weak, H.
    - apply Qle_bool_iff in H. congruence. }
  rewrite H1, H2. reflexivity.
Qed.

Lemma drawLoop_cons (D : jsnum) (bgm v : bool) (s t : Q) (rest : list Q) :
  drawLoop D bgm v s (t :: rest) =
  let s' := if Qeq_bool s 0 then t else s in
  let p := progressAt D (t - s') in
  if jslt p (Fin 1) then
    (fst (drawLoop D bgm v s' rest),
     [ setRecordingProgress (jsmul p (Fin 100)); Paint p; RequestAnimationFrame ]
     ++ snd (drawLoop D bgm v s' rest))
  else
    (true,
     [ setRecordingProgress (jsmul p (Fin 100)); Paint p ] ++ stopEffects bgm v).
Proof.
  cbn [drawLoop draw]. cbv zeta.
  destruct (jslt (progressAt D (t - (if Qeq_bool s 0 then t else s))) (Fin 1));
    [| reflexivity].
  destruct (drawLoop D bgm v (if Qeq_bool s 0 then t else s) rest); reflexivity.
Qed.

Lemma stopEffects_frame (bgm v : bool) :
  Forall (fun e => frameEffect e = true) (stopEffects bgm v).
Proof. destruct bgm, v; repeat constructor. Qed.

Lemma drawLoop_frameEffects (D : jsnum) (bgm v : bool) (frames : list Q) :
  forall s, Forall (fun e => frameEffect e = true) (snd (drawLoop D bgm v s frames)).
Proof.
  induction frames as [| t rest IH]; intro s; [constructor |].
  rewrite drawLoop_cons. cbv zeta.
  destruct (jslt _ _); cbn [snd app].
  - do 3 (constructor; [reflexivity |]). apply IH.
  - do 2 (constructor; [reflexivity |]). apply stopEffects_frame.
Qed.

(** A selector that ignores what [draw] does finds nothing in the frames. *)
Lemma drawLoop_collect_none {A : Type} (f : Effect -> option A)
  (D : jsnum) (bgm v : bool) (s : Q) (frames : list Q) :
  (forall e, frameEffect e = true -> f e = None) ->
  collect f (snd (drawLoop D bgm v s frames)) = [].
Proof.
  intro Hf. apply collect_none.
  eapply Forall_impl; [| apply drawLoop_frameEffects].
  exact Hf.
Qed.

Lemma stopEffects_stop (bgm v : bool) : collect asStop (stopEffects bgm v) = [ tt ].
Proof. destruct bgm, v; reflexivity. Qed.

Lemma stopEffects_paint (bgm v : bool) : collect asPaint (stopEffects bgm v) = [].
Proof. destruct bgm, v; reflexivity. Qed.

Lemma stopEffects_progress (bgm v : bool) :
  collect asProgress (stopEffects bgm v) = [].
Proof. destruct bgm, v; reflexivity. Qed.

(** The recorder is stopped once if the loop has stopped, and not at all
    otherwise. *)
Lemma drawLoop_stop_once (D : jsnum) (bgm v : bool) (frames : list Q) :
  forall s,
    collect asStop (snd (drawLoop D bgm v s frames))
    = if fst (drawLoop D bgm v s frames) then [ tt ] else [].
Proof.
  induction frames as [| t rest IH]; intro s; [reflexivity |].
  rewrite drawLoop_cons. cbv zeta.
  destruct (jslt _ _); cbn [fst snd app collect asStop].
  - apply IH.
  - apply stopEffects_stop.
Qed.

(** While the loop has not stopped, every delivered frame was painted with
    a progress below 1. *)
Lemma drawLoop_running (D : jsnum) (bgm v : bool) (frames : list Q) :
  forall s,
    fst (drawLoop D bgm v s frames) = false ->
    List.length (collect asPaint (snd (drawLoop D bgm v s frames)))
    = List.length frames
    /\ Forall (fun p => jslt p (Fin 1) = true)
         (collect asPaint (snd (drawLoop D bgm v s frames))).
Proof.
  induction frames as [| t rest IH]; intro s; [split; [reflexivity | constructor] |].
  rewrite drawLoop_cons. cbv zeta.
  destruct (jslt _ _) eqn:Hlt; cbn [fst snd app collect asPaint]; [| discriminate].
  intro Hrun. destruct (IH _ Hrun) as [Hlen Hall].
  split; [cbn [List.length]; now rewrite Hlen | constructor; assumption].
Qed.

(** When the loop has stopped, the last painted frame is the first whose
    progress is not below 1, and the loop ended with the stop effects. *)
Lemma drawLoop_stopped (D : jsnum) (bgm v : bool) (frames : list Q) :
  forall s,
    fst (drawLoop D bgm v s frames) = true ->
    exists before p pre,
      collect asPaint (snd (drawLoop D bgm v s frames)) = before ++ [ p ]
      /\ Forall (fun q => jslt q (Fin 1) = true) before
      /\ jslt p (Fin 1) = false
      /\ (List.length before < List.length frames)%nat
      /\ snd (drawLoop D bgm v s frames) = pre ++ stopEffects bgm v
      /\ collect asStop pre = [].
Proof.
  induction frames as [| t rest IH]; intro s; [discriminate |].
  rewrite drawLoop_cons. cbv zeta.
  destruct (jslt _ _) eqn:Hlt; cbn [fst snd].
  - intro Hstop. destruct (IH _ Hstop) as (before & p & pre & Hp & Hb & Hlast & Hlen & Hpre & Hnone).
    eexists (_ :: before), p, (_ :: _ :: _ :: pre).
    cbn [app collect asPaint asStop]. rewrite Hp, Hpre.
    repeat split; try assumption.
    + constructor; [exact Hlt | exact Hb].
    + cbn [List.length]. lia.
  - intros _. eexists [], _, [ _; _ ].
    cbn [app collect asPaint asStop]. rewrite stopEffects_paint.
    split; [reflexivity |]. split; [constructor |]. split; [exact Hlt |].
    split; [cbn [List.length]; lia |]. split; reflexivity.
Qed.

(** Frames delivered after the stop are never drawn. *)
Lemma drawLoop_after_stop (D : jsnum) (bgm v : bool) (frames more : list Q) :
  forall s,
    fst (drawLoop D bgm v s frames) = true ->
    drawLoop D bgm v s (frames ++ more) = drawLoop D bgm v s frames.
Proof.
  induction frames as [| t rest IH]; intro s; [discriminate |].
  rewrite <- app_comm_cons, !drawLoop_cons. cbv zeta.
  destruct (jslt _ _); cbn [fst snd]; [| reflexivity].
  intro Hstop. now rewrite (IH _ Hstop).
Qed.

Lemma drawLoop_paint_length (D : jsnum) (bgm v : bool) (frames : list Q) :
  forall s,
    (List.length (collect asPaint (snd (drawLoop D bgm v s frames)))
     <= List.length frames)%nat.
Proof.
  induction frames as [| t rest IH]; intro s; [apply Nat.le_refl |].
  rewrite drawLoop_cons. cbv zeta.
  destruct (jslt _ _); cbn [fst snd app collect asPaint List.length].
  - apply le_n_S, IH.
  - rewrite stopEffects_paint. cbn. lia.
Qed.

Lemma Qeq_bool_neq (a b : Q) : ~ a == b -> Qeq_bool a b = false.
Proof. apply Qeq_bool_false. Qed.

Lemma jsdiv_Fin (e d : Q) : ~ d == 0 -> jsdiv (Fin e) (Fin d) = Fin (e / d).
Proof. intro Hd. cbn [jsdiv]. now rewrite (Qeq_bool_neq d 0 Hd). Qed.

Lemma below_one (e d : Q) : 0 < d -> (e / d < 1 <-> e < d).
Proof.
  intro Hd.
  assert (Hne : ~ d == 0) by (intro H; rewrite H in Hd; apply (Qlt_irrefl 0 Hd)).
  assert (He : e == e / d * d) by (field; exact Hne).
  split; intro H.
  - assert (H' : e / d * d < 1 * d) by (apply Qmult_lt_compat_r; assumption).
    rewrite <- He, Qmult_1_l in H'. exact H'.
  - apply Qlt_shift_div_r; [exact Hd |]. now rewrite Qmult_1_l.
Qed.

(** With a finite positive duration, another frame is requested exactly
    while less than the duration has elapsed. *)
Lemma again_iff (e d : Q) :
  0 < d -> (jslt (progressAt (Fin d) e) (Fin 1) = true <-> e < d).
Proof.
  intro Hd.
  assert (Hne : ~ d == 0) by (intro H; rewrite H in Hd; apply (Qlt_irrefl 0 Hd)).
  unfold progressAt. rewrite jslt_jsmin_one, (jsdiv_Fin e d Hne). cbn [jslt].
  rewrite Qltb_lt. apply below_one, Hd.
Qed.

(** Once [startTime] is set, the loop stops as soon as a frame comes whose
    timestamp is a full duration after it. *)
Lemma drawLoop_reaches_end (d : Q) (bgm v : bool) (frames : list Q) :
  0 < d ->
  forall s,
    ~ s == 0 ->
    (exists t, In t frames /\ d <= t - s) ->
    fst (drawLoop (Fin d) bgm v s frames) = true.
Proof.
  intro Hd. induction frames as [| t rest IH]; intros s Hs (t' & Hin & Hlate).
  - destruct Hin.
  - rewrite drawLoop_cons. cbv zeta. rewrite (Qeq_bool_neq s 0 Hs).
    destruct (jslt (progressAt (Fin d) (t - s)) (Fin 1)) eqn:Hagain;
      cbn [fst]; [| reflexivity].
    apply (again_iff (t - s) d Hd) in Hagain.
    apply IH; [exact Hs |].
    destruct Hin as [-> | Hin].
    + exfalso. apply (Qlt_irrefl d). eapply Qle_lt_trans; eassumption.
    + exists t'. split; assumption.
Qed.

Lemma drawLoop_first_frame (d : Q) (bgm v : bool) (t0 : Q) (rest : list Q) :
  0 < d -> ~ t0 == 0 ->
  fst (drawLoop (Fin d) bgm v 0 (t0 :: rest))
  = fst (drawLoop (Fin d) bgm v t0 rest).
Proof.
  intros Hd Ht0. rewrite drawLoop_cons. cbv zeta.
  change (Qeq_bool 0 0) with true. cbv iota.
  assert (Hagain : jslt (progressAt (Fin d) (t0 - t0)) (Fin 1) = true).
  { apply (again_iff _ d Hd). setoid_replace (t0 - t0) with 0 by ring. exact Hd. }
  rewrite Hagain. reflexivity.
Qed.

Lemma recordingDuration_finite (q : Q) :
  ~ q == 0 -> recordingDuration (Fin q) = Fin (q * 1000 + 1500).
Proof.
  intro Hq. unfold recordingDuration. cbn [truthy isNaN].
  rewrite (Qeq_bool_neq q 0 Hq). reflexivity.
Qed.

Lemma recordingDuration_default (ad : jsnum) :
  truthy ad = false \/ isNaN ad = true -> recordingDuration ad = Fin 11500.
Proof.
  intro H. unfold recordingDuration.
  assert (Hc : truthy ad && negb (isNaN ad) = false).
  { destruct H as [-> | ->]; [reflexivity | apply andb_false_r]. }
  rewrite Hc. reflexivity.
Qed.

(** *** The loop against the claim's wording *)

Lemma again_progress (D : jsnum) (e : Q) :
  jslt (progressAt D e) (Fin 1) = again D e.
Proof. apply jslt_jsmin_one. Qed.

(** The loop is the clock, the stopping rule and the effects of a frame put
    together. *)
Lemma drawLoop_pinned (D : jsnum) (bgm v : bool) (frames : list Q) :
  forall s,
    snd (drawLoop D bgm v s frames)
    = flat_map (frameEffects D bgm v) (drawnFrames D (elapsedSeq s frames))
    /\ fst (drawLoop D bgm v s frames)
       = negb (forallb (again D) (elapsedSeq s frames)).
Proof.
  induction frames as [| t rest IH]; intro s; [split; reflexivity |].
  rewrite drawLoop_cons. cbv zeta. cbn [elapsedSeq drawnFrames forallb].
  rewrite again_progress.
  set (s' := if Qeq_bool s 0 then t else s).
  destruct (IH s') as [IHe IHs].
  destruct (again D (t - s')) eqn:Hagain; cbn [fst snd flat_map andb negb].
  - unfold frameEffects at 1. rewrite Hagain, IHe, IHs. split; reflexivity.
  - unfold frameEffects at 1. rewrite Hagain, app_nil_r. split; reflexivity.
Qed.

Lemma elapsedSeq_set (frames : list Q) (s : Q) :
  ~ s == 0 -> elapsedSeq s frames = map (fun t => t - s) frames.
Proof.
  intro Hs. pose proof (Qeq_bool_neq s 0 Hs) as Hs0.
  induction frames as [| t rest IH]; [reflexivity |].
  cbn [elapsedSeq map]. rewrite Hs0, IH. reflexivity.
Qed.

Lemma again_finite (d e : Q) : 0 < d -> (again (Fin d) e = true <-> e < d).
Proof.
  intro Hd. rewrite <- again_progress. apply again_iff, Hd.
Qed.

Lemma again_infinite (e : Q) : again PInf e = true.
Proof. reflexivity. Qed.

Lemma some_frame_late (D : jsnum) (es : list Q) :
  negb (forallb (again D) es) = true <->
  exists e, In e es /\ again D e = false.
Proof.
  induction es as [| e es IH]; cbn [forallb In].
  - split; [discriminate | intros (e & [] & _)].
  - destruct (again D e) eqn:He; cbn [andb negb].
    + rewrite IH. split.
      * intros (e' & Hin & H). exists e'. split; [right; exact Hin | exact H].
      * intros (e' & [<- | Hin] & H); [congruence |].
        exists e'. split; assumption.
    + split; [| reflexivity].
      intros _. exists e. split; [left; reflexivity | exact He].
Qed.

(** With a finite positive duration: either no delivered frame is late, and
    all are drawn, or the frames drawn are those before the first late one
    and that one. *)
Lemma drawnFrames_finite (d : Q) (es : list Q) :
  0 < d ->
  (forallb (again (Fin d)) es = true
   /\ drawnFrames (Fin d) es = es
   /\ Forall (fun e => e < d) es)
  \/ (exists before e after,
        forallb (again (Fin d)) es = false
        /\ es = before ++ e :: after
        /\ drawnFrames (Fin d) es = before ++ [ e ]
        /\ Forall (fun e' => e' < d) before
        /\ d <= e).
Proof.
  intro Hd. induction es as [| e es IH]; cbn [forallb drawnFrames].
  - left. repeat split. constructor.
  - destruct (again (Fin d) e) eqn:He; cbn [andb].
    + pose proof (proj1 (again_finite d e Hd) He) as Hlt.
      destruct IH as [(Hall & Hdrawn & Hsmall)
                     | (before & e' & after & Hall & Hes & Hdrawn & Hsmall & Hlate)].
      * left. rewrite Hdrawn. repeat split; [exact Hall |].
        constructor; assumption.
      * right. exists (e :: before), e', after. rewrite Hdrawn.
        split; [exact Hall |]. rewrite Hes.
        repeat split; [| exact Hlate].
        constructor; assumption.
    + right. exists [], e, es. repeat split; [constructor |].
      destruct (Qlt_le_dec e d) as [Hlt | Hle]; [| exact Hle].
      apply (again_finite d e Hd) in Hlt. congruence.
Qed.

Lemma drawLoop_infinite (bgm v : bool) (frames : list Q) (s : Q) :
  fst (drawLoop PInf bgm v s frames) = false
  /\ drawnFrames PInf (elapsedSeq s frames) = elapsedSeq s frames.
Proof.
  split.
  - rewrite (proj2 (drawLoop_pinned PInf bgm v frames s)).
    apply negb_false_iff, forallb_forall. intros e _. reflexivity.
  - generalize (elapsedSeq s frames). intro es.
    induction es as [| e es IH]; [reflexivity |].
    cbn [drawnFrames]. now rewrite again_infinite, IH.
Qed.

Lemma recordingDuration_at_least (ad : jsnum) :
  mediaDuration ad ->
  recordingDuration ad = PInf
  \/ exists d, recordingDuration ad = Fin d /\ 1500 <= d.
Proof.
  destruct ad as [| | | q]; cbn [mediaDuration]; intro H.
  - right. eexists. split; [reflexivity | discriminate].
  - left. reflexivity.
  - destruct H.
  - right. unfold recordingDuration. cbn [truthy isNaN].
    destruct (Qeq_bool q 0); cbn [negb andb jsmul jsadd].
    + eexists. split; [reflexivity | discriminate].
    + eexists. split; [reflexivity |].
      apply Qle_trans with (y := 0 * 1000 + 1500); [discriminate |].
      apply Qplus_le_l. apply Qmult_le_compat_r; [exact H | discriminate].
Qed.

(** C2 as the claim has it fails where it concludes that the loop always
    terminates.  An infinite duration is truthy and is not NaN, so it is the
    duration of the loop; elapsed/duration is then 0 on every frame, another
    frame is requested every time, and no delivered frame, however late,
    stops the recorder. *)
Lemma recording_with_infinite_duration_never_stops :
  truthy PInf = true /\ isNaN PInf = false
  /\ recordingDuration PInf = PInf
  /\ fst (drawLoop (recordingDuration PInf) true true 0
            [ 16; 1016; 100000016 ]) = false
  /\ (forall frames : list Q,
        fst (drawLoop (recordingDuration PInf) true true 0 frames) = false)
  /\ (run (startRecording sampleBrowser
             (mkRecordingRun (LoadedMetadata PInf) false
                [ 16; 1016; 100000016 ]%Q [])
             ready) ready).(isRecording) = true.
Proof.
  split; [reflexivity |]. split; [reflexivity |]. split; [reflexivity |].
  split; [reflexivity |].
  split; [| reflexivity].
  intro frames. apply (drawLoop_infinite true true frames 0).
Qed.

(** C2, amended.  The loop of [startRecording] lasts the audio duration in
    seconds times 1000 plus 1500 milliseconds when the narration reports a
    truthy duration that is not NaN, an infinite one included, and 11500
    milliseconds otherwise; for a duration that a media element can report
    it is infinite or at least 1500.  A call of [draw] sets the clock to its
    timestamp if the clock is unset, takes the elapsed time from the clock,
    requests another frame exactly when elapsed/duration is below 1, and
    otherwise stops the recorder, pauses the narration, pauses the music if
    there is one and pauses the asset if it is a video.  Over the delivered
    frames the loop does exactly this: it draws the frames up to and
    including the first one at which elapsed/duration is not below 1, one
    after the other, and has stopped exactly if there is such a frame; once
    it has stopped, later frames are not drawn.  So with a finite positive
    duration d every frame drawn before the last has an elapsed time below
    d, and the loop has stopped exactly when a frame with an elapsed time of
    d or more was delivered, at the first such frame; with an infinite
    duration every delivered frame is drawn and the loop never stops. *)
Theorem recording_loop_timing (ad : jsnum) (bgm v : bool) (s t : Q)
  (frames more : list Q) :
  let D := recordingDuration ad in
  let start := if Qeq_bool s 0 then t else s in
  let loop := drawLoop D bgm v s frames in
  let elapsed := elapsedSeq s frames in
  (truthy ad = true -> isNaN ad = false ->
     D = jsadd (jsmul ad (Fin 1000)) (Fin 1500))
  /\ (forall q, ad = Fin q -> ~ q == 0 -> D = Fin (q * 1000 + 1500))
  /\ (ad = PInf -> D = PInf)
  /\ (truthy ad = false \/ isNaN ad = true -> D = Fin (10 * 1000 + 1500))
  /\ Fin (10 * 1000 + 1500) = Fin 11500
  /\ (mediaDuration ad -> D = PInf \/ exists d, D = Fin d /\ 1500 <= d)
  /\ draw D bgm v s t =
     (start,
      jslt (jsdiv (Fin (t - start)) D) (Fin 1),
      [ setRecordingProgress (jsmul (progressAt D (t - start)) (Fin 100));
        Paint (progressAt D (t - start)) ]
      ++ (if jslt (jsdiv (Fin (t - start)) D) (Fin 1)
          then [ RequestAnimationFrame ]
          else [ RecorderStop; Pause Narration ]
               ++ (if bgm then [ Pause Music ] else [])
               ++ (if v then [ Pause Asset ] else [])))
  /\ (forall e, again D e = jslt (jsdiv (Fin e) D) (Fin 1))
  /\ (~ s == 0 -> elapsed = map (fun t' => t' - s) frames)
  /\ (forall t0 rest,
        elapsedSeq 0 (t0 :: rest) = (t0 - t0) :: elapsedSeq t0 rest)
  /\ snd loop = flat_map (frameEffects D bgm v) (drawnFrames D elapsed)
  /\ fst loop = negb (forallb (again D) elapsed)
  /\ (fst loop = true <-> exists e, In e elapsed /\ again D e = false)
  /\ collect asStop (snd loop) = (if fst loop then [ tt ] else [])
  /\ (fst loop = true -> drawLoop D bgm v s (frames ++ more) = loop)
  /\ (forall d, D = Fin d -> 0 < d ->
        (forall e, again D e = true <-> e < d)
        /\ (fst loop = true <-> exists e, In e elapsed /\ d <= e)
        /\ ((fst loop = false
             /\ drawnFrames D elapsed = elapsed
             /\ Forall (fun e => e < d) elapsed)
            \/ (exists before e after,
                  fst loop = true
                  /\ elapsed = before ++ e :: after
                  /\ drawnFrames D elapsed = before ++ [ e ]
                  /\ Forall (fun e' => e' < d) before
                  /\ d <= e)))
  /\ (D = PInf -> fst loop = false /\ drawnFrames D elapsed = elapsed).
Proof.
  intros D start loop elapsed.
  destruct (drawLoop_pinned D bgm v frames s) as [Hsnd Hfst].
  fold loop elapsed in Hsnd, Hfst.
  split.
  { intros Ht Hn. unfold D, recordingDuration. now rewrite Ht, Hn. }
  split.
  { intros q -> Hq. apply recordingDuration_finite, Hq. }
  split.
  { intros ->. reflexivity. }
  split.
  { intro H. apply recordingDuration_default, H. }
  split; [reflexivity |].
  split; [apply recordingDuration_at_least |].
  split.
  { unfold draw. fold start.
    assert (Hlt : jslt (progressAt D (t - start)) (Fin 1)
                  = jslt (jsdiv (Fin (t - start)) D) (Fin 1))
      by apply jslt_jsmin_one.
    rewrite Hlt. reflexivity. }
  split; [reflexivity |].
  split; [apply elapsedSeq_set |].
  split; [reflexivity |].
  split; [exact Hsnd |].
  split; [exact Hfst |].
  split; [rewrite Hfst; apply some_frame_late |].
  split; [apply drawLoop_stop_once |].
  split; [apply drawLoop_after_stop |].
  split.
  { intros d HD Hd. rewrite Hfst. clearbody D. subst D.
    split; [intro e; apply again_finite, Hd |].
    split.
    - rewrite some_frame_late. split.
      + intros (e & Hin & He). exists e. split; [exact Hin |].
        destruct (Qlt_le_dec e d) as [Hlt | Hle]; [| exact Hle].
        apply (again_finite d e Hd) in Hlt. congruence.
      + intros (e & Hin & Hle). exists e. split; [exact Hin |].
        destruct (again (Fin d) e) eqn:He; [| reflexivity].
        apply (again_finite d e Hd) in He.
        exfalso. apply (Qlt_irrefl d). eapply Qle_lt_trans; eassumption.
    - destruct (drawnFrames_finite d elapsed Hd)
        as [(Hall & Hdrawn & Hsmall)
           | (before & e & after & Hall & Hes & Hdrawn & Hsmall & Hlate)].
      + left. rewrite Hall. repeat split; assumption.
      + right. exists before, e, after. rewrite Hall. repeat split; assumption. }
  intro HD. clearbody D. subst D. apply drawLoop_infinite.
Qed.

(** A one-second narration: 2500 ms of recording.  Of the frames at 16,
    1216, 2600 and 2700 the first three are drawn, and the third stops the
    recorder. *)
Lemma recording_loop_timing_witness :
  recordingDuration (Fin 1) = Fin (1 * 1000 + 1500)
  /\ 0 < 1 * 1000 + 1500
  /\ (fst (drawLoop (recordingDuration (Fin 1)) true true 0
             [ 16; 1216; 2600; 2700 ]) = true <->
      exists e,
        In e (elapsedSeq 0 [ 16; 1216; 2600; 2700 ]) /\ 1 * 1000 + 1500 <= e)
  /\ fst (drawLoop (recordingDuration (Fin 1)) true true 0
            [ 16; 1216; 2600; 2700 ]) = true.
Proof.
  pose proof (recording_loop_timing (Fin 1) true true 0 16
                [ 16; 1216; 2600; 2700 ] [])
    as (_ & Hfin & _ & _ & _ & _ & _ & _ & _ & _ & _ & _ & _ & _ & _ & Hd & _).
  assert (Hq : ~ 1 == 0) by discriminate.
  assert (Hpos : 0 < 1 * 1000 + 1500) by reflexivity.
  pose proof (Hfin 1 eq_refl Hq) as HD.
  destruct (Hd (1 * 1000 + 1500) HD Hpos) as (_ & Hstop & _).
  split; [exact HD |]. split; [exact Hpos |]. split; [exact Hstop |].
  apply Hstop. exists (2600 - 16). split; [| discriminate].
  right. right. left. reflexivity.
Defined.

(** *** The progress shown while recording *)

Lemma recordingDuration_positive (ad : jsnum) :
  mediaDuration ad -> positiveDuration (recordingDuration ad).
Proof.
  destruct ad as [| | | q]; cbn [mediaDuration]; intro H.
  - reflexivity.
  - exact I.
  - destruct H.
  - unfold recordingDuration. cbn [truthy isNaN].
    destruct (Qeq_bool q 0); cbn [negb andb jsmul jsadd positiveDuration].
    + reflexivity.
    + apply Qlt_le_trans with (y := 0 * 1000 + 1500); [reflexivity |].
      apply Qplus_le_l. apply Qmult_le_compat_r; [exact H | discriminate].
Qed.

Lemma progressAt_value (D : jsnum) (e : Q) :
  positiveDuration D -> progressAt D e = Fin (progressOf D e).
Proof.
  destruct D as [| | | d]; cbn [positiveDuration]; intro H;
    try contradiction; [reflexivity |].
  assert (Hne : ~ d == 0) by (intro H0; rewrite H0 in H; apply (Qlt_irrefl 0 H)).
  unfold progressAt, progressOf. rewrite (jsdiv_Fin e d Hne). cbn [jsmin].
  destruct (Qle_bool (e / d) 1); reflexivity.
Qed.

Lemma quotient_monotone (e1 e2 d : Q) : 0 < d -> e1 <= e2 -> e1 / d <= e2 / d.
Proof.
  intros Hd He. unfold Qdiv. apply Qmult_le_compat_r; [exact He |].
  apply Qlt_le_weak, Qinv_lt_0_compat, Hd.
Qed.

Lemma Qle_bool_false (a b : Q) : Qle_bool a b = false -> b < a.
Proof.
  intro H. destruct (Qlt_le_dec b a) as [Hlt | Hle]; [exact Hlt |].
  apply Qle_bool_iff in Hle. congruence.
Qed.

Lemma progressOf_range (D : jsnum) (e : Q) :
  positiveDuration D -> 0 <= e -> 0 <= progressOf D e <= 1.
Proof.
  destruct D as [| | | d]; cbn [positiveDuration progressOf]; intros H He;
    try contradiction; [split; discriminate |].
  destruct (Qle_bool (e / d) 1) eqn:Hq.
  - split; [| apply Qle_bool_iff, Hq].
    setoid_replace 0 with (0 / d) by (unfold Qdiv; ring).
    apply quotient_monotone; assumption.
  - split; discriminate.
Qed.

Lemma progressOf_monotone (D : jsnum) (e1 e2 : Q) :
  positiveDuration D -> e1 <= e2 -> progressOf D e1 <= progressOf D e2.
Proof.
  destruct D as [| | | d]; cbn [positiveDuration progressOf]; intros H He;
    try contradiction; [apply Qle_refl |].
  pose proof (quotient_monotone e1 e2 d H He) as Hq.
  destruct (Qle_bool (e1 / d) 1) eqn:H1, (Qle_bool (e2 / d) 1) eqn:H2.
  - exact Hq.
  - apply Qle_bool_iff, H1.
  - apply Qle_bool_false in H1. apply Qle_bool_iff in H2.
    exfalso. apply (Qlt_irrefl 1).
    eapply Qlt_le_trans; [exact H1 |]. eapply Qle_trans; eassumption.
  - apply Qle_refl.
Qed.

(** What the loop paints and shows is computed from a prefix of the elapsed
    times. *)
Lemma drawLoop_elapsed (D : jsnum) (bgm v : bool) (frames : list Q) :
  forall s, exists drawn later,
    elapsedSeq s frames = drawn ++ later
    /\ collect asPaint (snd (drawLoop D bgm v s frames))
       = map (progressAt D) drawn
    /\ collect asProgress (snd (drawLoop D bgm v s frames))
       = map (fun e => jsmul (progressAt D e) (Fin 100)) drawn.
Proof.
  induction frames as [| t rest IH]; intro s.
  - exists [], []. repeat split.
  - rewrite drawLoop_cons. cbv zeta. cbn [elapsedSeq].
    set (s' := if Qeq_bool s 0 then t else s).
    destruct (jslt (progressAt D (t - s')) (Fin 1)); cbn [snd app collect asPaint asProgress].
    + destruct (IH s') as (drawn & later & He & Hp & Hv).
      exists ((t - s') :: drawn), later. cbn [map app].
      rewrite He, Hp, Hv. repeat split.
    + exists [ t - s' ], (elapsedSeq s' rest).
      rewrite stopEffects_paint, stopEffects_progress. repeat split.
Qed.

Lemma nondecreasing_tail (a : Q) (l : list Q) :
  nondecreasing (a :: l) -> nondecreasing l.
Proof. destruct l as [| c l]; [intros _; exact I | intros [_ H]; exact H]. Qed.

Lemma nondecreasing_prefix (l1 l2 : list Q) :
  nondecreasing (l1 ++ l2) -> nondecreasing l1.
Proof.
  induction l1 as [| a l1 IH]; [intros _; exact I |].
  destruct l1 as [| c l1]; [intros _; exact I |].
  cbn [app nondecreasing]. intros [Hac H]. split; [exact Hac |].
  apply IH. exact H.
Qed.

Lemma nondecreasing_map (f : Q -> Q) (l : list Q) :
  (forall a c, a <= c -> f a <= f c) ->
  nondecreasing l -> nondecreasing (map f l).
Proof.
  intro Hf. induction l as [| a l IH]; [intros _; exact I |].
  destruct l as [| c l]; [intros _; exact I |].
  cbn [map nondecreasing]. intros [Hac H]. split; [apply Hf, Hac |].
  apply IH. exact H.
Qed.

Lemma nondecreasing_cons (a : Q) (l : list Q) :
  Forall (fun c => a <= c) l -> nondecreasing l -> nondecreasing (a :: l).
Proof.
  destruct l as [| c l]; [intros _ _; exact I |].
  intros Hall H. split; [now inversion Hall | exact H].
Qed.

(** The elapsed times never decrease when the timestamps do not. *)
Lemma elapsedSeq_nondecreasing (frames : list Q) :
  forall s, nondecreasing frames -> nondecreasing (elapsedSeq s frames).
Proof.
  induction frames as [| t1 rest IH]; intros s Hsorted; [exact I |].
  destruct rest as [| t2 rest]; [exact I |].
  destruct Hsorted as [H12 Hrest].
  specialize (IH (if Qeq_bool s 0 then t1 else s) Hrest).
  change (elapsedSeq s (t1 :: t2 :: rest))
    with ((t1 - (if Qeq_bool s 0 then t1 else s))
          :: elapsedSeq (if Qeq_bool s 0 then t1 else s) (t2 :: rest)).
  apply nondecreasing_cons; [| exact IH].
  cbn [elapsedSeq] in IH |- *.
  set (s1 := if Qeq_bool s 0 then t1 else s) in *.
  set (s2 := if Qeq_bool s1 0 then t2 else s1) in *.
  assert (Hhead : t1 - s1 <= t2 - s2).
  { unfold s2, s1. destruct (Qeq_bool s 0) eqn:Hs.
    - destruct (Qeq_bool t1 0); Lqa.lra.
    - rewrite Hs. Lqa.lra. }
  constructor; [exact Hhead |].
  assert (Hlater : nondecreasing ((t2 - s2) :: elapsedSeq s2 rest)) by exact IH.
  clear IH. revert Hlater Hhead. generalize (t2 - s2) (t1 - s1) (elapsedSeq s2 rest).
  intros e2 e1 l. revert e2. induction l as [| c l IHl]; intros e2 Hl He; [constructor |].
  destruct Hl as [Hc Hl]. constructor.
  - eapply Qle_trans; eassumption.
  - apply (IHl c Hl). eapply Qle_trans; eassumption.
Qed.

(** No elapsed time is negative when the timestamps do not decrease and
    [startTime] is unset or not after the first of them. *)
Lemma elapsedSeq_nonnegative (frames : list Q) :
  forall s,
    nondecreasing frames ->
    Qeq_bool s 0 = true \/ (forall t, hd_error frames = Some t -> s <= t) ->
    Forall (fun e => 0 <= e) (elapsedSeq s frames).
Proof.
  induction frames as [| t rest IH]; intros s Hsorted Hs; [constructor |].
  cbn [elapsedSeq]. constructor.
  - destruct (Qeq_bool s 0) eqn:H0; [Lqa.lra |].
    destruct Hs as [Hs | Hs]; [discriminate |].
    specialize (Hs t eq_refl). Lqa.lra.
  - apply IH; [eapply nondecreasing_tail, Hsorted |].
    right. intros t' Ht'. destruct rest as [| t2 rest]; [discriminate |].
    injection Ht' as <-. destruct Hsorted as [H12 _].
    destruct (Qeq_bool s 0) eqn:H0; [exact H12 |].
    destruct Hs as [Hs | Hs]; [discriminate |].
    specialize (Hs t eq_refl). Lqa.lra.
Qed.

(** *** The recording as three parts *)

Lemma record_eq (b : Browser) (r : RecordingRun) (enabled : bool)
  (m : MediaSource) (ad : jsnum) :
  let setup := prepare b enabled r.(bgmSourceThrows) m in
  let loop :=
    drawLoop (recordingDuration ad) (fst setup) (isVideo m) 0 r.(timestamps) in
  record b r enabled m ad =
  snd setup ++ snd loop
  ++ (if fst loop then onstop b r.(dataEvents) (getSupportedMimeType b) else []).
Proof.
  cbv zeta. unfold record.
  destruct (prepare b enabled r.(bgmSourceThrows) m) as [bgm setup]. cbn [fst snd].
  destruct (drawLoop (recordingDuration ad) bgm (isVideo m) 0 r.(timestamps));
    reflexivity.
Qed.

Lemma prepare_bgm (b : Browser) (enabled throws : bool) (m : MediaSource) :
  fst (prepare b enabled throws m) = enabled && negb throws.
Proof. destruct enabled, throws; reflexivity. Qed.

Ltac prepare_cases b enabled throws m :=
  unfold prepare;
  destruct enabled, throws, (isVideo m), (audioContextSuspended b);
  reflexivity.

Lemma prepare_progress (b : Browser) (enabled throws : bool) (m : MediaSource) :
  collect asProgress (snd (prepare b enabled throws m)) = [].
Proof. prepare_cases b enabled throws m. Qed.

(** The progress values of a whole call: the 0 of line 216, then those of
    the frames. *)
Lemma startRecording_progress (b : Browser) (r : RecordingRun) (st : State) :
  progressValues (startRecording b r st) = []
  \/ progressValues (startRecording b r st) = [ Fin 0 ]
  \/ exists ad m,
       r.(audioLoad) = LoadedMetadata ad
       /\ progressValues (startRecording b r st)
          = Fin 0
            :: collect asProgress
                 (snd (drawLoop (recordingDuration ad)
                         (st.(useBackgroundMusic) && negb r.(bgmSourceThrows))
                         (isVideo m) 0 r.(timestamps))).
Proof.
  destruct (canRecord st) eqn:Hgate.
  - destruct (startRecording_open b r st Hgate) as (audio & m & _ & _ & ->).
    unfold progressValues. rewrite collect_app. cbn [collect asProgress app].
    destruct r.(audioLoad) as [ad | |] eqn:Hload.
    + right. right. exists ad, m. split; [reflexivity |].
      pose proof (record_eq b r st.(useBackgroundMusic) m ad) as Hrec.
      cbv zeta in Hrec. rewrite Hrec, !collect_app, prepare_progress, prepare_bgm.
      cbn [app]. f_equal.
      clear Hrec. rewrite collect_if. unfold onstop. cbn [collect asProgress].
      destruct (fst _); apply app_nil_r.
    + right. left. reflexivity.
    + right. left. reflexivity.
  - left. now rewrite (startRecording_closed b r st Hgate).
Qed.

(** C9.  Every call of [draw] passes [Math.min(elapsed / duration, 1) * 100]
    to [setRecordingProgress].  When the narration reports a duration that
    is not negative and the frame timestamps never decrease, every value
    that a call of [startRecording] shows is a finite number in [0, 100],
    and the values never decrease from one frame to the next. *)
Theorem recording_progress_in_range (b : Browser) (r : RecordingRun)
  (st : State) :
  (forall ad, r.(audioLoad) = LoadedMetadata ad -> mediaDuration ad) ->
  nondecreasing r.(timestamps) ->
  (forall D bgm v s t,
      collect asProgress (snd (draw D bgm v s t))
      = [ jsmul (jsmin (jsdiv (Fin (t - (if Qeq_bool s 0 then t else s))) D)
                   (Fin 1))
            (Fin 100) ])
  /\ exists values : list Q,
      progressValues (startRecording b r st) = map Fin values
      /\ Forall (fun p => 0 <= p <= 100) values
      /\ nondecreasing values.
Proof.
  intros Hvalid Hsorted. split.
  { intros D bgm v s t. unfold draw. cbn [snd app collect asProgress].
    destruct (jslt _ _); [reflexivity |]. now rewrite stopEffects_progress. }
  destruct (startRecording_progress b r st) as [-> | [-> | (ad & m & Hload & ->)]].
  - exists []. repeat split. constructor.
  - exists [ 0 ]. repeat split. constructor; [split; discriminate | constructor].
  - pose proof (recordingDuration_positive ad (Hvalid ad Hload)) as HD.
    set (D := recordingDuration ad) in *.
    destruct (drawLoop_elapsed D (st.(useBackgroundMusic) && negb r.(bgmSourceThrows))
                (isVideo m) r.(timestamps) 0) as (drawn & later & He & _ & ->).
    pose proof (elapsedSeq_nondecreasing r.(timestamps) 0 Hsorted) as Hmono.
    pose proof (elapsedSeq_nonnegative r.(timestamps) 0 Hsorted (or_introl eq_refl))
      as Hpos.
    rewrite He in Hmono, Hpos.
    apply nondecreasing_prefix in Hmono. apply Forall_app in Hpos as [Hpos _].
    exists (0 :: map (fun e => progressOf D e * 100) drawn).
    assert (Hrange : Forall (fun p => 0 <= p <= 100)
                       (map (fun e => progressOf D e * 100) drawn)).
    { apply Forall_map. eapply Forall_impl; [| exact Hpos].
      intros e Hle. cbv beta.
      destruct (progressOf_range D e HD Hle) as [H0 H1]. split; Lqa.lra. }
    split.
    { cbn [map]. f_equal. rewrite map_map. apply map_ext.
      intro e. now rewrite (progressAt_value D e HD). }
    split.
    { constructor; [split; discriminate | exact Hrange]. }
    apply nondecreasing_cons.
    + eapply Forall_impl; [| exact Hrange]. intros p [Hp _]. exact Hp.
    + apply nondecreasing_map; [| exact Hmono].
      intros e1 e2 H12. pose proof (progressOf_monotone D e1 e2 HD H12). Lqa.lra.
Qed.

(** A one-second narration and four frames, the last two past the end. *)
Lemma recording_progress_in_range_witness :
  nondecreasing sampleRun.(timestamps)
  /\ exists values : list Q,
      progressValues (startRecording sampleBrowser sampleRun ready)
      = map Fin values
      /\ Forall (fun p => 0 <= p <= 100) values.
Proof.
  assert (Hsorted : nondecreasing sampleRun.(timestamps)).
  { cbn. repeat split; discriminate. }
  assert (Hvalid : forall ad,
             sampleRun.(audioLoad) = LoadedMetadata ad -> mediaDuration ad).
  { intros ad H. injection H as <-. cbn. discriminate. }
  destruct (recording_progress_in_range sampleBrowser sampleRun ready
              Hvalid Hsorted) as (_ & values & Hv & Hr & _).
  split; [exact Hsorted |]. exists values. split; assumption.
Defined.

(** *** A recording whose audio has loaded *)

Lemma startRecording_loaded (b : Browser) (r : RecordingRun) (st : State)
  (ad : jsnum) :
  canRecord st = true ->
  r.(audioLoad) = LoadedMetadata ad ->
  exists audio m,
    st.(audioUrl) = Some audio /\ st.(mediaSource) = Some m
    /\ let bgm := st.(useBackgroundMusic) && negb r.(bgmSourceThrows) in
       let loop :=
         drawLoop (recordingDuration ad) bgm (isVideo m) 0 r.(timestamps) in
       startRecording b r st =
       [ setIsRecording true; setRecordingProgress (Fin 0);
         setVideoBlobUrl None; NewAudio Narration audio ]
       ++ snd (prepare b st.(useBackgroundMusic) r.(bgmSourceThrows) m)
       ++ snd loop
       ++ (if fst loop
           then onstop b r.(dataEvents) (getSupportedMimeType b) else []).
Proof.
  intros Hgate Hload.
  destruct (startRecording_open b r st Hgate) as (audio & m & Ha & Hm & ->).
  exists audio, m. split; [exact Ha |]. split; [exact Hm |].
  cbv zeta. rewrite Hload.
  pose proof (record_eq b r st.(useBackgroundMusic) m ad) as Hrec.
  cbv zeta in Hrec. rewrite Hrec, prepare_bgm. reflexivity.
Qed.

Lemma in_stop (effects : list Effect) :
  In RecorderStop effects <-> collect asStop effects <> [].
Proof.
  induction effects as [| e effects IH]; cbn [In collect].
  - split; [intros [] | intro H; now apply H].
  - destruct e; cbn [asStop];
      try (rewrite <- IH; split; [intros [H | H]; [discriminate | exact H]
                                 | intro H; right; exact H]).
    split; [discriminate | intros _; left; reflexivity].
Qed.

Lemma prepare_stop (b : Browser) (enabled throws : bool) (m : MediaSource) :
  collect asStop (snd (prepare b enabled throws m)) = [].
Proof. prepare_cases b enabled throws m. Qed.

Lemma prepare_isRecording (b : Browser) (enabled throws : bool) (m : MediaSource) :
  collect asIsRecording (snd (prepare b enabled throws m)) = [].
Proof. prepare_cases b enabled throws m. Qed.

Lemma prepare_error (b : Browser) (enabled throws : bool) (m : MediaSource) :
  collect asError (snd (prepare b enabled throws m)) = [].
Proof. prepare_cases b enabled throws m. Qed.

Lemma prepare_videoBlobUrl (b : Browser) (enabled throws : bool) (m : MediaSource) :
  collect asVideoBlobUrl (snd (prepare b enabled throws m)) = [].
Proof. prepare_cases b enabled throws m. Qed.

(** In a recording whose audio has loaded, the recorder is stopped exactly
    when the loop has stopped. *)
Lemma startRecording_stop (b : Browser) (r : RecordingRun) (st : State)
  (ad : jsnum) (m : MediaSource) :
  canRecord st = true ->
  r.(audioLoad) = LoadedMetadata ad ->
  st.(mediaSource) = Some m ->
  (In RecorderStop (startRecording b r st) <->
   fst (drawLoop (recordingDuration ad)
          (st.(useBackgroundMusic) && negb r.(bgmSourceThrows))
          (isVideo m) 0 r.(timestamps)) = true).
Proof.
  intros Hgate Hload Hm.
  destruct (startRecording_loaded b r st ad Hgate Hload)
    as (audio & m' & _ & Hm' & Heq).
  rewrite Hm in Hm'. injection Hm' as <-. cbv zeta in Heq.
  rewrite in_stop, Heq, !collect_app, prepare_stop, drawLoop_stop_once, collect_if.
  cbn [collect asStop app onstop].
  destruct (fst _); cbn [app]; split; congruence.
Qed.

(** C7.  Each handler raises its busy flag first and lowers it last.
    [analyzeProduct], once past its gate, starts with setIsAnalyzing(true)
    and ends with setIsAnalyzing(false) whether the analysis succeeded or
    threw; [generateAudio] does the same with isGeneratingAudio.
    [startRecording], once past its gate, starts with setIsRecording(true);
    when the audio fails to load it stores the message of the failure and
    ends with setIsRecording(false); when the recorder is stopped it ends
    with the effects of onstop, setIsRecording(false) among them; until then
    the recording is in progress and the flag is up.  So from a state whose
    flag is down, a handler that has returned, failed, or stopped the
    recorder leaves its flag down. *)
Theorem busy_flags_are_cleared (b : Browser) (a : AnalysisOutcome)
  (sp : SpeechOutcome) (r : RecordingRun) (st : State) :
  (st.(mediaSource) <> None ->
     (exists mid,
         analyzeProduct a st
         = setIsAnalyzing true :: mid ++ [ setIsAnalyzing false ]
         /\ collect asIsAnalyzing mid = [])
     /\ (run (analyzeProduct a st) st).(isAnalyzing) = false)
  /\ (present (scriptToUse st) = true ->
     (exists mid,
         generateAudio b sp st
         = setIsGeneratingAudio true :: mid ++ [ setIsGeneratingAudio false ]
         /\ collect asIsGeneratingAudio mid = [])
     /\ (run (generateAudio b sp st) st).(isGeneratingAudio) = false)
  /\ (canRecord st = true ->
     hd_error (startRecording b r st) = Some (setIsRecording true)
     /\ (r.(audioLoad) = LoadError ->
         (exists pre,
             startRecording b r st
             = pre ++ [ setError (Some "Erro ao carregar áudio da narração.");
                        setIsRecording false ])
         /\ (run (startRecording b r st) st).(error)
            = Some "Erro ao carregar áudio da narração."
         /\ (run (startRecording b r st) st).(isRecording) = false)
     /\ (r.(audioLoad) = LoadTimeout ->
         (exists pre,
             startRecording b r st
             = pre ++ [ setError (Some "Tempo esgotado ao carregar áudio.");
                        setIsRecording false ])
         /\ (run (startRecording b r st) st).(error)
            = Some "Tempo esgotado ao carregar áudio."
         /\ (run (startRecording b r st) st).(isRecording) = false)
     /\ (In RecorderStop (startRecording b r st) ->
         (exists pre,
             startRecording b r st
             = pre ++ onstop b r.(dataEvents) (getSupportedMimeType b))
         /\ (run (startRecording b r st) st).(isRecording) = false)
     /\ ((exists ad, r.(audioLoad) = LoadedMetadata ad) ->
         ~ In RecorderStop (startRecording b r st) ->
         (run (startRecording b r st) st).(isRecording) = true))
  /\ (st.(isAnalyzing) = false ->
     (run (analyzeProduct a st) st).(isAnalyzing) = false)
  /\ (st.(isGeneratingAudio) = false ->
     (run (generateAudio b sp st) st).(isGeneratingAudio) = false)
  /\ (st.(isRecording) = false ->
     r.(audioLoad) = LoadError \/ r.(audioLoad) = LoadTimeout
     \/ In RecorderStop (startRecording b r st) \/ canRecord st = false ->
     (run (startRecording b r st) st).(isRecording) = false).
Proof.
  assert (Hanalyze : st.(mediaSource) <> None ->
            (exists mid,
                analyzeProduct a st
                = setIsAnalyzing true :: mid ++ [ setIsAnalyzing false ]
                /\ collect asIsAnalyzing mid = [])
            /\ (run (analyzeProduct a st) st).(isAnalyzing) = false).
  { intro Hm. unfold analyzeProduct.
    destruct st.(mediaSource); [| contradiction].
    split.
    - eexists (setError None :: _). split; [reflexivity |].
      destruct a; reflexivity.
    - rewrite isAnalyzing_run. destruct a; reflexivity. }
  assert (Hspeech : present (scriptToUse st) = true ->
            (exists mid,
                generateAudio b sp st
                = setIsGeneratingAudio true :: mid ++ [ setIsGeneratingAudio false ]
                /\ collect asIsGeneratingAudio mid = [])
            /\ (run (generateAudio b sp st) st).(isGeneratingAudio) = false).
  { intro Hp. unfold generateAudio. rewrite Hp. cbn [negb].
    split.
    - eexists (setError None :: _). split; [reflexivity |].
      destruct sp as [| | bin]; reflexivity.
    - rewrite isGeneratingAudio_run.
      destruct sp as [| | bin]; reflexivity. }
  assert (Hfail : canRecord st = true ->
            forall msg,
              (r.(audioLoad) = LoadError
               /\ msg = "Erro ao carregar áudio da narração.")
              \/ (r.(audioLoad) = LoadTimeout
                  /\ msg = "Tempo esgotado ao carregar áudio.") ->
              (exists pre,
                  startRecording b r st
                  = pre ++ [ setError (Some msg); setIsRecording false ])
              /\ (run (startRecording b r st) st).(error) = Some msg
              /\ (run (startRecording b r st) st).(isRecording) = false).
  { intros Hgate msg Hload.
    destruct (startRecording_open b r st Hgate) as (audio & m & _ & _ & ->).
    rewrite error_run, isRecording_run.
    destruct Hload as [[-> ->] | [-> ->]];
      (split; [eexists; reflexivity | split; reflexivity]). }
  assert (Hstop : canRecord st = true ->
            In RecorderStop (startRecording b r st) ->
            (exists pre,
                startRecording b r st
                = pre ++ onstop b r.(dataEvents) (getSupportedMimeType b))
            /\ (run (startRecording b r st) st).(isRecording) = false).
  { intros Hgate Hin.
    destruct r.(audioLoad) as [ad | |] eqn:Hload.
    - destruct (startRecording_loaded b r st ad Hgate Hload)
        as (audio & m & _ & Hm & Heq).
      apply (startRecording_stop b r st ad m Hgate Hload Hm) in Hin.
      cbv zeta in Heq. rewrite Hin in Heq.
      split.
      + eexists. rewrite Heq, !app_assoc. reflexivity.
      + rewrite isRecording_run, Heq, !collect_app, prepare_isRecording,
          (drawLoop_collect_none asIsRecording).
        * reflexivity.
        * intros e He. destruct e; try discriminate; reflexivity.
    - exfalso. destruct (startRecording_open b r st Hgate) as (audio & m & _ & _ & Heq).
      rewrite Hload in Heq. rewrite Heq in Hin. cbn in Hin.
      repeat (destruct Hin as [Hin | Hin]; [discriminate |]). exact Hin.
    - exfalso. destruct (startRecording_open b r st Hgate) as (audio & m & _ & _ & Heq).
      rewrite Hload in Heq. rewrite Heq in Hin. cbn in Hin.
      repeat (destruct Hin as [Hin | Hin]; [discriminate |]). exact Hin. }
  split; [exact Hanalyze |].
  split; [exact Hspeech |].
  split.
  { intro Hgate.
    split.
    { destruct (startRecording_open b r st Hgate) as (audio & m & _ & _ & ->).
      reflexivity. }
    split; [intro H; apply (Hfail Hgate); left; split; [exact H | reflexivity] |].
    split; [intro H; apply (Hfail Hgate); right; split; [exact H | reflexivity] |].
    split; [apply Hstop, Hgate |].
    intros [ad Hload] Hnot.
    destruct (startRecording_loaded b r st ad Hgate Hload)
      as (audio & m & _ & Hm & Heq).
    rewrite (startRecording_stop b r st ad m Hgate Hload Hm) in Hnot.
    apply not_true_is_false in Hnot. cbv zeta in Heq. rewrite Hnot in Heq.
    rewrite isRecording_run, Heq, !collect_app, prepare_isRecording,
      (drawLoop_collect_none asIsRecording).
    - reflexivity.
    - intros e He. destruct e; try discriminate; reflexivity. }
  split.
  { intro Hidle. destruct st.(mediaSource) eqn:Hm.
    - apply Hanalyze. congruence.
    - unfold analyzeProduct. rewrite Hm. exact Hidle. }
  split.
  { intro Hidle. destruct (present (scriptToUse st)) eqn:Hp.
    - apply Hspeech. reflexivity.
    - unfold generateAudio. rewrite Hp. exact Hidle. }
  intros Hidle Hdone.
  destruct (canRecord st) eqn:Hgate.
  - destruct Hdone as [H | [H | [H | H]]].
    + apply (Hfail eq_refl _ (or_introl (conj H eq_refl))).
    + apply (Hfail eq_refl _ (or_intror (conj H eq_refl))).
    + apply (Hstop eq_refl H).
    + discriminate.
  - rewrite (startRecording_closed b r st Hgate). exact Hidle.
Qed.

(** Every flag of the sample states comes down again. *)
Lemma busy_flags_are_cleared_witness :
  ready.(mediaSource) <> None
  /\ (run (analyzeProduct (AnalysisThrew None) ready) ready).(isAnalyzing) = false
  /\ (run (generateAudio sampleBrowser (SpeechDecoded "ab") ready) ready).(isGeneratingAudio)
     = false
  /\ (run (startRecording sampleBrowser sampleRun ready) ready).(isRecording)
     = false.
Proof.
  pose proof (busy_flags_are_cleared sampleBrowser (AnalysisThrew None)
                (SpeechDecoded "ab") sampleRun ready)
    as (Ha & Hg & Hr & _).
  assert (Hm : ready.(mediaSource) <> None) by discriminate.
  split; [exact Hm |].
  split; [apply (Ha Hm) |].
  split; [apply (Hg eq_refl) |].
  destruct (Hr eq_refl) as (_ & _ & _ & Hstop & _).
  apply Hstop. apply in_stop. vm_compute. discriminate.
Defined.

(** *** One stream, one recorder *)

(** What a selector that ignores the frames picks in a recording whose audio
    has loaded. *)
Lemma startRecording_collect {A : Type} (f : Effect -> option A)
  (b : Browser) (r : RecordingRun) (st : State) (ad : jsnum) :
  canRecord st = true ->
  r.(audioLoad) = LoadedMetadata ad ->
  (forall e, frameEffect e = true -> f e = None) ->
  exists audio m,
    st.(audioUrl) = Some audio /\ st.(mediaSource) = Some m
    /\ collect f (startRecording b r st) =
       collect f [ setIsRecording true; setRecordingProgress (Fin 0);
                   setVideoBlobUrl None; NewAudio Narration audio ]
       ++ collect f (snd (prepare b st.(useBackgroundMusic) r.(bgmSourceThrows) m))
       ++ (if fst (drawLoop (recordingDuration ad)
                     (st.(useBackgroundMusic) && negb r.(bgmSourceThrows))
                     (isVideo m) 0 r.(timestamps))
           then collect f (onstop b r.(dataEvents) (getSupportedMimeType b))
           else []).
Proof.
  intros Hgate Hload Hf.
  destruct (startRecording_loaded b r st ad Hgate Hload)
    as (audio & m & Ha & Hm & Heq).
  exists audio, m. split; [exact Ha |]. split; [exact Hm |].
  cbv zeta in Heq.
  rewrite Heq, !collect_app, (drawLoop_collect_none f _ _ _ _ _ Hf), collect_if.
  reflexivity.
Qed.

Lemma prepare_capture (b : Browser) (enabled throws : bool) (m : MediaSource) :
  collect asCapture (snd (prepare b enabled throws m)) = [ 30%Z ].
Proof. prepare_cases b enabled throws m. Qed.

Lemma prepare_stream (b : Browser) (enabled throws : bool) (m : MediaSource) :
  collect asStream (snd (prepare b enabled throws m))
  = [ getVideoTracks (b.(captureStream) 30)
      ++ getAudioTracks b.(destinationStream) ].
Proof. prepare_cases b enabled throws m. Qed.

Lemma prepare_recorder (b : Browser) (enabled throws : bool) (m : MediaSource) :
  collect asRecorder (snd (prepare b enabled throws m))
  = [ (getVideoTracks (b.(captureStream) 30)
       ++ getAudioTracks b.(destinationStream),
       getSupportedMimeType b) ].
Proof. prepare_cases b enabled throws m. Qed.

Lemma prepare_recorded (b : Browser) (enabled throws : bool) (m : MediaSource) :
  collect asRecorded (snd (prepare b enabled throws m))
  = Narration :: (if enabled && negb throws then [ Music ] else []).
Proof. prepare_cases b enabled throws m. Qed.

Lemma prepare_blob (b : Browser) (enabled throws : bool) (m : MediaSource) :
  collect asBlob (snd (prepare b enabled throws m)) = [].
Proof. prepare_cases b enabled throws m. Qed.

Lemma prepare_start (b : Browser) (enabled throws : bool) (m : MediaSource) :
  collect asStart (snd (prepare b enabled throws m)) = [ tt ].
Proof. prepare_cases b enabled throws m. Qed.

Lemma prepare_music (b : Browser) (enabled throws : bool) (m : MediaSource) :
  collect asMusic (snd (prepare b enabled throws m))
  = if enabled then
      [ NewAudio Music BGM_URL; SetVolume Music 0.15; SetLoop Music true ]
      ++ (if throws then []
          else [ CreateMediaElementSource Music;
                 Connect Music RecordingDestination;
                 Connect Music Speakers;
                 Play Music ])
    else [].
Proof. prepare_cases b enabled throws m. Qed.

Ltac not_a_frame_effect :=
  let e := fresh "e" in
  let He := fresh "He" in
  intros e He; destruct e; try discriminate; reflexivity.

(** C5.  A recording whose audio has loaded captures the canvas once, at 30
    frames per second, and creates one stream and one recorder: the stream
    holds the video tracks of the canvas capture followed by the audio
    tracks of the destination node, and the recorder gets this stream and
    the MIME type that [getSupportedMimeType] chose.  The narration is
    connected to the destination node, and the music after it exactly when
    it is enabled and its source could be created.  When the recorder is
    stopped, one blob is made, from the chunks the recorder delivered and
    with the same MIME type, and its URL is stored; before that no blob is
    made. *)
Theorem recording_is_one_multiplexed_stream (b : Browser) (r : RecordingRun)
  (st : State) (ad : jsnum) :
  canRecord st = true ->
  r.(audioLoad) = LoadedMetadata ad ->
  let effects := startRecording b r st in
  let combined :=
    getVideoTracks (b.(captureStream) 30) ++ getAudioTracks b.(destinationStream) in
  let mimeType := getSupportedMimeType b in
  collect asCapture effects = [ 30%Z ]
  /\ collect asStream effects = [ combined ]
  /\ collect asRecorder effects = [ (combined, mimeType) ]
  /\ (forall t, In t combined <->
        (exists id, t = VideoTrack id /\ In t (b.(captureStream) 30))
        \/ (exists id, t = AudioTrack id /\ In t b.(destinationStream)))
  /\ collect asRecorded effects
     = Narration
       :: (if st.(useBackgroundMusic) && negb r.(bgmSourceThrows)
           then [ Music ] else [])
  /\ (In RecorderStop effects ->
     collect asBlob effects = [ (r.(dataEvents), mimeType) ]
     /\ (run effects st).(videoBlobUrl)
        = Some (b.(createObjectURL)
                  (mkBlob (List.concat r.(dataEvents)) mimeType)))
  /\ (~ In RecorderStop effects ->
     collect asBlob effects = []
     /\ (run effects st).(videoBlobUrl) = None).
Proof.
  intros Hgate Hload effects combined mimeType. subst effects.
  split.
  { destruct (startRecording_collect asCapture b r st ad Hgate Hload)
      as (audio & m & _ & _ & ->); [not_a_frame_effect |].
    rewrite prepare_capture. cbn [collect asCapture app onstop].
    destruct (fst _); reflexivity. }
  split.
  { destruct (startRecording_collect asStream b r st ad Hgate Hload)
      as (audio & m & _ & _ & ->); [not_a_frame_effect |].
    rewrite prepare_stream. cbn [collect asStream app onstop].
    destruct (fst _); reflexivity. }
  split.
  { destruct (startRecording_collect asRecorder b r st ad Hgate Hload)
      as (audio & m & _ & _ & ->); [not_a_frame_effect |].
    rewrite prepare_recorder. cbn [collect asRecorder app onstop].
    destruct (fst _); reflexivity. }
  split.
  { intro t. unfold combined, getVideoTracks, getAudioTracks.
    rewrite in_app_iff, !filter_In. split.
    - intros [[Hin Hk] | [Hin Hk]]; destruct t as [id | id]; try discriminate.
      + left. exists id. split; [reflexivity | exact Hin].
      + right. exists id. split; [reflexivity | exact Hin].
    - intros [(id & -> & Hin) | (id & -> & Hin)].
      + left. split; [exact Hin | reflexivity].
      + right. split; [exact Hin | reflexivity]. }
  split.
  { destruct (startRecording_collect asRecorded b r st ad Hgate Hload)
      as (audio & m & _ & _ & ->); [not_a_frame_effect |].
    rewrite prepare_recorded. cbn [collect asRecorded app onstop].
    destruct (fst _); now rewrite app_nil_r. }
  destruct (startRecording_collect asBlob b r st ad Hgate Hload)
    as (audio & m & _ & Hm & Hblob); [not_a_frame_effect |].
  destruct (startRecording_collect asVideoBlobUrl b r st ad Hgate Hload)
    as (audio' & m' & _ & Hm' & Hurl); [not_a_frame_effect |].
  rewrite Hm in Hm'. injection Hm' as <-.
  pose proof (startRecording_stop b r st ad m Hgate Hload Hm) as Hstop.
  rewrite prepare_blob in Hblob. rewrite prepare_videoBlobUrl in Hurl.
  cbn [collect asBlob asVideoBlobUrl app onstop] in Hblob, Hurl.
  split.
  - intro Hin. apply Hstop in Hin. rewrite Hin in Hblob, Hurl.
    split; [exact Hblob |]. rewrite videoBlobUrl_run, Hurl. reflexivity.
  - intro Hnot. rewrite Hstop in Hnot. apply not_true_is_false in Hnot.
    rewrite Hnot in Hblob, Hurl.
    split; [exact Hblob |]. rewrite videoBlobUrl_run, Hurl. reflexivity.
Qed.

(** The sample recording: one video track, one audio track, plain webm. *)
Lemma recording_is_one_multiplexed_stream_witness :
  canRecord ready = true
  /\ collect asRecorder (startRecording sampleBrowser sampleRun ready)
     = [ ([ VideoTrack 0; AudioTrack 1 ], "video/webm") ].
Proof.
  split; [reflexivity |].
  apply (recording_is_one_multiplexed_stream sampleBrowser sampleRun ready (Fin 1));
    reflexivity.
Defined.

(** *** The background music *)

Lemma drawLoop_music (D : jsnum) (bgm v : bool) (frames : list Q) :
  forall s,
    collect asMusic (snd (drawLoop D bgm v s frames))
    = if fst (drawLoop D bgm v s frames) && bgm then [ Pause Music ] else [].
Proof.
  induction frames as [| t rest IH]; intro s; [reflexivity |].
  rewrite drawLoop_cons. cbv zeta.
  destruct (jslt _ _); cbn [fst snd app collect asMusic].
  - apply IH.
  - destruct bgm, v; reflexivity.
Qed.

(** C6.  In a recording whose audio has loaded, the music element is touched
    only when useBackgroundMusic is set, and then it is first created on
    BGM_URL with volume 0.15 and loop on.  If its source is created it is
    connected to the recording destination and to the speakers and played,
    and paused when the recording stops.  If creating the source throws,
    nothing more happens to the music: only the narration is connected to
    the recording destination.  Either way the recorder is started once and
    no error is set. *)
Theorem background_music_is_optional (b : Browser) (r : RecordingRun)
  (st : State) (ad : jsnum) :
  canRecord st = true ->
  r.(audioLoad) = LoadedMetadata ad ->
  let effects := startRecording b r st in
  (st.(useBackgroundMusic) = false -> collect asMusic effects = [])
  /\ (st.(useBackgroundMusic) = true -> r.(bgmSourceThrows) = true ->
     collect asMusic effects
     = [ NewAudio Music BGM_URL; SetVolume Music 0.15; SetLoop Music true ]
     /\ collect asRecorded effects = [ Narration ])
  /\ (st.(useBackgroundMusic) = true -> r.(bgmSourceThrows) = false ->
     (exists after,
         collect asMusic effects
         = [ NewAudio Music BGM_URL; SetVolume Music 0.15; SetLoop Music true;
             CreateMediaElementSource Music;
             Connect Music RecordingDestination; Connect Music Speakers;
             Play Music ] ++ after
         /\ (after = [] /\ ~ In RecorderStop effects
             \/ after = [ Pause Music ] /\ In RecorderStop effects))
     /\ collect asRecorded effects = [ Narration; Music ])
  /\ (In Music (collect asRecorded effects) ->
     st.(useBackgroundMusic) = true /\ r.(bgmSourceThrows) = false)
  /\ collect asStart effects = [ tt ]
  /\ collect asError effects = []
  /\ (run effects st).(error) = st.(error).
Proof.
  intros Hgate Hload effects. subst effects.
  destruct (startRecording_loaded b r st ad Hgate Hload)
    as (audio & m & _ & Hm & Heq).
  cbv zeta in Heq.
  pose proof (startRecording_stop b r st ad m Hgate Hload Hm) as Hstop.
  assert (Hmusic :
    collect asMusic (startRecording b r st) =
    collect asMusic (snd (prepare b st.(useBackgroundMusic) r.(bgmSourceThrows) m))
    ++ (if fst (drawLoop (recordingDuration ad)
                  (st.(useBackgroundMusic) && negb r.(bgmSourceThrows))
                  (isVideo m) 0 r.(timestamps))
           && (st.(useBackgroundMusic) && negb r.(bgmSourceThrows))
        then [ Pause Music ] else [])).
  { rewrite Heq, !collect_app, drawLoop_music, collect_if.
    cbn [collect asMusic app onstop].
    destruct (fst _); cbn [andb app]; rewrite ?app_nil_r; reflexivity. }
  rewrite prepare_music in Hmusic.
  destruct (startRecording_collect asRecorded b r st ad Hgate Hload)
    as (audio1 & m1 & _ & _ & Hrec); [not_a_frame_effect |].
  rewrite prepare_recorded in Hrec. cbn [collect asRecorded app onstop] in Hrec.
  assert (Hrecorded :
    collect asRecorded (startRecording b r st)
    = Narration :: (if st.(useBackgroundMusic) && negb r.(bgmSourceThrows)
                    then [ Music ] else [])).
  { rewrite Hrec, if_nil, app_nil_r. reflexivity. }
  clear Hrec.
  destruct (startRecording_collect asStart b r st ad Hgate Hload)
    as (audio2 & m2 & _ & _ & Hstart); [not_a_frame_effect |].
  rewrite prepare_start in Hstart. cbn [collect asStart app onstop] in Hstart.
  destruct (startRecording_collect asError b r st ad Hgate Hload)
    as (audio3 & m3 & _ & _ & Herr); [not_a_frame_effect |].
  rewrite prepare_error in Herr. cbn [collect asError app onstop] in Herr.
  split.
  { intro Hoff. rewrite Hmusic, Hoff. cbn [andb]. rewrite andb_false_r. reflexivity. }
  split.
  { intros Hon Hthrows. rewrite Hmusic, Hrecorded, Hon, Hthrows.
    cbn [andb negb]. rewrite andb_false_r. split; reflexivity. }
  split.
  { intros Hon Hok. rewrite Hmusic, Hrecorded, Hon, Hok. cbn [andb negb].
    rewrite Hon, Hok in Hstop. cbn [andb negb] in Hstop.
    split; [| reflexivity].
    destruct (fst (drawLoop (recordingDuration ad) true (isVideo m) 0 r.(timestamps))).
    - exists [ Pause Music ]. split; [reflexivity |].
      right. split; [reflexivity | now apply Hstop].
    - exists []. split; [reflexivity |].
      left. split; [reflexivity |]. intro Hin. apply Hstop in Hin. discriminate. }
  split.
  { rewrite Hrecorded.
    destruct st.(useBackgroundMusic), r.(bgmSourceThrows); cbn;
      intros [H | H]; try discriminate; try contradiction;
      try (destruct H; discriminate || contradiction).
    split; reflexivity. }
  split.
  { rewrite Hstart, if_nil. reflexivity. }
  assert (Hnone : collect asError (startRecording b r st) = []).
  { rewrite Herr, if_nil. reflexivity. }
  split; [exact Hnone |].
  rewrite error_run, Hnone. reflexivity.
Qed.

(** The sample recording with a music source that cannot be created. *)
Lemma background_music_is_optional_witness :
  canRecord ready = true
  /\ collect asMusic
       (startRecording sampleBrowser
          (mkRecordingRun (LoadedMetadata (Fin 1)) true [ 16; 2600 ]%Q [])
          ready)
     = [ NewAudio Music BGM_URL; SetVolume Music 0.15; SetLoop Music true ]
  /\ collect asStart
       (startRecording sampleBrowser
          (mkRecordingRun (LoadedMetadata (Fin 1)) true [ 16; 2600 ]%Q [])
          ready)
     = [ tt ].
Proof.
  pose proof (background_music_is_optional sampleBrowser
                (mkRecordingRun (LoadedMetadata (Fin 1)) true [ 16; 2600 ]%Q [])
                ready (Fin 1) eq_refl eq_refl)
    as (_ & Hthrows & _ & _ & Hstart & _).
  split; [reflexivity |].
  split; [apply Hthrows; reflexivity | exact Hstart].
Defined.

(** *** getSupportedMimeType *)

Lemma firstSupported_spec (supported : string -> bool) (types : list string) :
  (exists before after,
      types = before ++ firstSupported supported types :: after
      /\ supported (firstSupported supported types) = true
      /\ Forall (fun t => supported t = false) before)
  \/ (firstSupported supported types = ""
      /\ Forall (fun t => supported t = false) types).
Proof.
  induction types as [| t rest IH]; cbn.
  - right. split; [reflexivity | constructor].
  - destruct (supported t) eqn:Ht.
    + left. exists [], rest. repeat split; [exact Ht | constructor].
    + destruct IH as [(before & after & Heq & Hs & Hb) | [Hnone Hall]].
      * left. exists (t :: before), after.
        split; [cbn; f_equal; exact Heq |].
        split; [exact Hs | constructor; assumption].
      * right. split; [exact Hnone | constructor; assumption].
Qed.

(** C10.  [getSupportedMimeType] walks the candidates vp9/opus webm,
    vp8/opus webm, plain webm, mp4 in this order and returns the first that
    [MediaRecorder.isTypeSupported] accepts: every candidate before the
    result is unsupported and the result is supported; it returns the empty
    string exactly when no candidate is supported. *)
Theorem getSupportedMimeType_first_supported (b : Browser) :
  let chosen := getSupportedMimeType b in
  mimeTypes = [ "video/webm;codecs=vp9,opus"; "video/webm;codecs=vp8,opus";
                "video/webm"; "video/mp4" ]
  /\ ((exists before after,
         mimeTypes = before ++ chosen :: after
         /\ b.(isTypeSupported) chosen = true
         /\ Forall (fun t => b.(isTypeSupported) t = false) before)
      \/ (chosen = ""
          /\ Forall (fun t => b.(isTypeSupported) t = false) mimeTypes))
  /\ (chosen = "" <->
      Forall (fun t => b.(isTypeSupported) t = false) mimeTypes)
  /\ (chosen <> "" -> b.(isTypeSupported) chosen = true).
Proof.
  intro chosen. split; [reflexivity |].
  pose proof (firstSupported_spec b.(isTypeSupported) mimeTypes) as Hspec.
  fold (getSupportedMimeType b) in Hspec. fold chosen in Hspec.
  split; [exact Hspec |].
  split.
  - split.
    + intro Hempty. destruct Hspec as [(before & after & Heq & _ & _) | [_ Hall]].
      * exfalso. rewrite Hempty in Heq.
        assert (Hin : In "" mimeTypes) by (rewrite Heq; apply in_elt).
        cbn in Hin. repeat (destruct Hin as [Hin | Hin]; [discriminate |]).
        exact Hin.
      * exact Hall.
    + intro Hall. destruct Hspec as [(before & after & Heq & Hs & _) | [Hempty _]].
      * exfalso. rewrite Forall_forall in Hall.
        rewrite (Hall chosen) in Hs; [discriminate |].
        rewrite Heq. apply in_elt.
      * exact Hempty.
  - intro Hne. destruct Hspec as [(_ & _ & _ & Hs & _) | [Hempty _]].
    + exact Hs.
    + contradiction.
Qed.

Example getSupportedMimeType_sample :
  getSupportedMimeType sampleBrowser = "video/webm".
Proof. reflexivity. Qed.

(** On a browser that records plain webm and mp4, plain webm is chosen. *)
Lemma getSupportedMimeType_first_supported_witness :
  getSupportedMimeType sampleBrowser <> ""
  /\ sampleBrowser.(isTypeSupported) (getSupportedMimeType sampleBrowser) = true.
Proof.
  pose proof (getSupportedMimeType_first_supported sampleBrowser)
    as (_ & _ & _ & Hs).
  assert (Hne : getSupportedMimeType sampleBrowser <> "") by discriminate.
  split; [exact Hne | exact (Hs Hne)].
Defined.

(** *** handleMediaUpload *)

(** C8.  [handleMediaUpload] stores the uploaded file as a video if and only
    if its MIME type starts with video/, and as an image otherwise; it sets
    productInfo, audioUrl, videoBlobUrl and error to null and leaves every
    other cell as it was, the description, the manual headline and script,
    the voice and the script type among them.  Without a file it does
    nothing. *)
Theorem handleMediaUpload_resets_downstream (b : Browser) (file : Blob)
  (st : State) :
  let st' := run (handleMediaUpload b (Some file)) st in
  (exists m,
      st'.(mediaSource) = Some m
      /\ m.(url) = b.(createObjectURL) file
      /\ (m.(type) = Video <->
          exists rest, file.(blobType) = String.append "video/" rest)
      /\ (m.(type) = Image <->
          ~ exists rest, file.(blobType) = String.append "video/" rest))
  /\ st'.(productInfo) = None
  /\ st'.(audioUrl) = None
  /\ st'.(videoBlobUrl) = None
  /\ st'.(error) = None
  /\ st'.(userProductDescription) = st.(userProductDescription)
  /\ st'.(manualHeadline) = st.(manualHeadline)
  /\ st'.(manualScript) = st.(manualScript)
  /\ st'.(voiceGender) = st.(voiceGender)
  /\ st'.(activeScriptType) = st.(activeScriptType)
  /\ st'.(isAnalyzing) = st.(isAnalyzing)
  /\ st'.(isGeneratingAudio) = st.(isGeneratingAudio)
  /\ st'.(isRecording) = st.(isRecording)
  /\ st'.(recordingProgress) = st.(recordingProgress)
  /\ st'.(useBackgroundMusic) = st.(useBackgroundMusic)
  /\ handleMediaUpload b None = []
  /\ run (handleMediaUpload b None) st = st.
Proof.
  intro st'. split.
  - eexists. split; [reflexivity |]. split; [reflexivity |].
    cbn [type]. rewrite <- prefix_app.
    destruct (String.prefix "video/" file.(blobType)); split; split;
      congruence.
  - repeat split; reflexivity.
Qed.

Example handleMediaUpload_pdf :
  (run (handleMediaUpload sampleBrowser (Some (mkBlob [] "application/pdf")))
     ready).(mediaSource)
  = Some (mkMediaSource "blob:1" Image).
Proof. reflexivity. Qed.

End AppFacts.

(* ------------------------------------------------------------------ *)
(** ** The WAV blob as a whole *)

Module WavBlobFacts.

Import Wav WavFacts.
Local Open Scope Z_scope.

Lemma octet_range (v : Z) (k : nat) : 0 <= octet v k < 256.
Proof.
  unfold octet. change 255 with (Z.ones 8).
  rewrite Z.land_ones by lia. apply Z.mod_pos_bound. reflexivity.
Qed.

Lemma ToUint4_periodic (v k : Z) : ToUint 4 (v + k * 2 ^ 32) = ToUint 4 v.
Proof.
  unfold ToUint. change (2 ^ (8 * Z.of_nat 4)) with (2 ^ 32).
  apply Z_mod_plus_full.
Qed.

Lemma header_range (a c : Z) :
  Forall (fun b => 0 <= b < 256)
    ([82; 73; 70; 70] ++ octetsLE 4 a
     ++ [87; 65; 86; 69; 102; 109; 116; 32;
         16; 0; 0; 0; 1; 0; 1; 0; 192; 93; 0; 0; 128; 187; 0; 0;
         2; 0; 16; 0; 100; 97; 116; 97]
     ++ octetsLE 4 c).
Proof.
  unfold octetsLE. cbn [map seq app].
  repeat (constructor; [first [apply octet_range | lia] |]).
  constructor.
Qed.

(** The blob of [generateAudio] is a well-formed PCM WAV file.  For every
    decoded string of [n] bytes with [36 + n < 2^32], the blob exists, is
    [44 + n] bytes long, holds bytes only, and ends with the char codes of
    the string; its RIFF chunk size is the length of the blob less 8 and its
    data chunk size the length less 44; and its fmt chunk is consistent:
    the byte rate is the sample rate times the block align, and the block
    align is the channel count times the bytes of a sample. *)
Theorem wav_blob_well_formed (binaryString : string) :
  let n := Z.of_nat (String.length binaryString) in
  36 + n < 2 ^ 32 ->
  exists blob,
    wavBlob binaryString = Some blob
    /\ Z.of_nat (List.length blob) = 44 + n
    /\ Forall (fun b => 0 <= b < 256) blob
    /\ skipn 44 blob = charCodes binaryString
    /\ getUint32 blob 4 true = Some (Z.of_nat (List.length blob) - 8)
    /\ getUint32 blob 40 true = Some (Z.of_nat (List.length blob) - 44)
    /\ exists channels rate byteRate align bits,
        getUint16 blob 22 true = Some channels
        /\ getUint32 blob 24 true = Some rate
        /\ getUint32 blob 28 true = Some byteRate
        /\ getUint16 blob 32 true = Some align
        /\ getUint16 blob 34 true = Some bits
        /\ byteRate = rate * align
        /\ align * 8 = channels * bits.
Proof.
  intros n Hn.
  assert (Hlen : Z.of_nat (List.length (charCodes binaryString)) = n)
    by (unfold n; now rewrite charCodes_length).
  unfold wavBlob. rewrite Hlen, wavHeader_bytes. cbn [bind].
  eexists. split; [reflexivity |].
  assert (H36 : 0 <= 36 + n < 2 ^ 32) by (unfold n in *; lia).
  assert (H0 : 0 <= n < 2 ^ 32) by (unfold n in *; lia).
  split.
  { rewrite length_app, Nat2Z.inj_add, Hlen. reflexivity. }
  split.
  { apply Forall_app. split; [apply header_range | apply charCodes_range]. }
  split; [reflexivity |].
  assert (Hblob : Z.of_nat (List.length
            (([82; 73; 70; 70] ++ octetsLE 4 (ToUint 4 (36 + n))
              ++ [87; 65; 86; 69; 102; 109; 116; 32;
                  16; 0; 0; 0; 1; 0; 1; 0; 192; 93; 0; 0; 128; 187; 0; 0;
                  2; 0; 16; 0; 100; 97; 116; 97]
              ++ octetsLE 4 (ToUint 4 n)) ++ charCodes binaryString))
          = 44 + n).
  { rewrite length_app, Nat2Z.inj_add, Hlen. reflexivity. }
  rewrite Hblob. clear Hblob.
  unfold getUint32, getUint16, getUint.
  cbn [List.length app octetsLE map seq Nat.add Nat.leb firstn skipn].
  split.
  { change [octet (ToUint 4 (36 + n)) 0; octet (ToUint 4 (36 + n)) 1;
            octet (ToUint 4 (36 + n)) 2; octet (ToUint 4 (36 + n)) 3]
      with (octetsLE 4 (ToUint 4 (36 + n))).
    rewrite fromOctetsLE_octetsLE4 by apply ToUint4_range.
    unfold ToUint. change (2 ^ (8 * Z.of_nat 4)) with (2 ^ 32).
    rewrite Z.mod_small by exact H36. f_equal. lia. }
  split.
  { change [octet (ToUint 4 n) 0; octet (ToUint 4 n) 1;
            octet (ToUint 4 n) 2; octet (ToUint 4 n) 3]
      with (octetsLE 4 (ToUint 4 n)).
    rewrite fromOctetsLE_octetsLE4 by apply ToUint4_range.
    unfold ToUint. change (2 ^ (8 * Z.of_nat 4)) with (2 ^ 32).
    rewrite Z.mod_small by exact H0. f_equal. lia. }
  exists 1, 24000, 48000, 2, 16. repeat split; reflexivity.
Qed.

(** A two-byte narration gives a 46-byte file. *)
Lemma wav_blob_well_formed_witness :
  36 + Z.of_nat (String.length "ab") < 2 ^ 32
  /\ exists blob,
      wavBlob "ab" = Some blob /\ Z.of_nat (List.length blob) = 46.
Proof.
  assert (Hn : 36 + Z.of_nat (String.length "ab") < 2 ^ 32) by reflexivity.
  split; [exact Hn |].
  destruct (wav_blob_well_formed "ab" Hn) as (blob & Hb & Hl & _).
  exists blob. split; [exact Hb | exact Hl].
Defined.

(** The writes of the header never leave its 44 bytes, so [generateAudio]
    gets a blob for every decoded string; and the two size fields hold the
    sizes modulo 2^32, so payload lengths that differ by a multiple of 2^32
    get the same header. *)
Theorem wav_sizes_wrap_around (len k : Z) (binaryString : string) :
  wavBlob binaryString <> None
  /\ wavHeader (len + k * 2 ^ 32) = wavHeader len
  /\ exists header,
      wavHeader len = Some header
      /\ List.length header = 44%nat
      /\ getUint32 header 4 true = Some ((36 + len) mod 2 ^ 32)
      /\ getUint32 header 40 true = Some (len mod 2 ^ 32).
Proof.
  split.
  { unfold wavBlob. rewrite wavHeader_bytes. discriminate. }
  split.
  { rewrite !wavHeader_bytes.
    replace (36 + (len + k * 2 ^ 32)) with (36 + len + k * 2 ^ 32) by lia.
    now rewrite !ToUint4_periodic. }
  apply wavHeader_length_fields.
Qed.

End WavBlobFacts.

(* ------------------------------------------------------------------ *)
(** ** Where the picture is drawn *)

Module AnimLayoutFacts.

Import Anim AnimFacts.
Local Open Scope string_scope.
Local Open Scope R_scope.

(** With the scale 1.1 the picture overhangs the canvas by a twentieth of
    its width on either side, and spans it as long as the horizontal offset
    stays within that margin. *)
Lemma spansWidth_margin (cw ch aspect : R) (a : Placement) :
  a.(s) = 11 / 10 ->
  (spansWidth cw (drawRect cw ch aspect a) <-> - (cw / 20) <= a.(x) <= cw / 20).
Proof.
  intro Hs. unfold spansWidth, drawRect. cbn [left width]. rewrite Hs.
  split; intros [H1 H2]; split; lra.
Qed.

(** On the 1080 pixel wide canvas the margin is 54 pixels.  Panning,
    bouncing, vibrating, and a type that is absent or unknown keep the
    picture over the full width of the canvas at every progress; sliding
    does so only between 23% and 77% of the recording, and shows the white
    background at the side before and after. *)
Theorem picture_spans_canvas_width (animationType : option string)
  (p r1 r2 aspect : R) :
  0 <= p <= 1 -> 0 <= r1 < 1 -> 0 <= r2 < 1 ->
  let r := drawRect canvasWidth canvasHeight aspect
             (animate animationType p r1 r2) in
  r.(width) = 1188
  /\ (animTypeOf animationType <> "sliding" -> spansWidth canvasWidth r)
  /\ (animTypeOf animationType = "sliding" ->
      (spansWidth canvasWidth r <-> 23 / 100 <= p <= 77 / 100)).
Proof.
  intros Hp Hr1 Hr2 r. subst r.
  split.
  { unfold drawRect. cbn [width]. rewrite animate_scale. unfold canvasWidth. lra. }
  rewrite (spansWidth_margin canvasWidth canvasHeight aspect _
             (animate_scale animationType p r1 r2)).
  unfold canvasWidth, animate.
  destruct (String.eqb_spec (animTypeOf animationType) "panning") as [Ht | Ht].
  { rewrite Ht. cbn [x]. split; [| discriminate].
    intros _. pose proof (panning_range p Hp). lra. }
  destruct (String.eqb_spec (animTypeOf animationType) "bouncing") as [Hb | Hb].
  { rewrite Hb. cbn [x]. split; [intros _; lra | discriminate]. }
  destruct (String.eqb_spec (animTypeOf animationType) "vibrating") as [Hv | Hv].
  { rewrite Hv. cbn [x]. split; [intros _; lra | discriminate]. }
  destruct (String.eqb_spec (animTypeOf animationType) "sliding") as [Hs | Hs].
  { cbn [x]. split; [contradiction |]. intros _. split; intros [H1 H2]; split; lra. }
  cbn [x]. split; [intros _; lra | contradiction].
Qed.

(** Sliding, a tenth of the way through: a strip at the left is bare. *)
Lemma picture_spans_canvas_width_witness :
  0 <= 1 / 10 <= 1
  /\ ~ spansWidth canvasWidth
         (drawRect canvasWidth canvasHeight 1
            (animate (Some "sliding") (1 / 10) 0 0)).
Proof.
  assert (Hp : 0 <= 1 / 10 <= 1) by lra.
  assert (Hr : 0 <= 0 < 1) by lra.
  pose proof (picture_spans_canvas_width (Some "sliding") (1 / 10) 0 0 1
                Hp Hr Hr) as (_ & _ & Hslide).
  split; [exact Hp |].
  intro H. apply (Hslide eq_refl) in H. lra.
Defined.

End AnimLayoutFacts.

(* ------------------------------------------------------------------ *)
(** ** The handlers: what they write and what they leave *)

Module HandlerFacts.

Import JsNum JsNumFacts App AppFacts.
Local Open Scope string_scope.
Local Open Scope list_scope.

Lemma sameInputs_refl (st : State) : sameInputs st st.
Proof. repeat split. Qed.

Lemma recordingEffect_apply (e : Effect) (st : State) :
  recordingEffect e = true -> sameInputs st (apply st e).
Proof. destruct e; try discriminate; intros _; repeat split. Qed.

Lemma sameInputs_trans (st1 st2 st3 : State) :
  sameInputs st1 st2 -> sameInputs st2 st3 -> sameInputs st1 st3.
Proof.
  unfold sameInputs.
  intros (a1 & a2 & a3 & a4 & a5 & a6 & a7 & a8 & a9 & a10 & a11 & a12)
         (c1 & c2 & c3 & c4 & c5 & c6 & c7 & c8 & c9 & c10 & c11 & c12).
  repeat split; congruence.
Qed.

Lemma recordingEffects_run (effects : list Effect) :
  Forall (fun e => recordingEffect e = true) effects ->
  forall st, sameInputs st (run effects st).
Proof.
  induction 1 as [| e effects He _ IH]; intro st.
  - apply sameInputs_refl.
  - change (run (e :: effects) st) with (run effects (apply st e)).
    eapply sameInputs_trans; [apply recordingEffect_apply, He | apply IH].
Qed.

Lemma frameEffect_recordingEffect (e : Effect) :
  frameEffect e = true -> recordingEffect e = true.
Proof. destruct e; try discriminate; reflexivity. Qed.

Lemma prepare_recordingEffects (b : Browser) (enabled throws : bool)
  (m : MediaSource) :
  Forall (fun e => recordingEffect e = true) (snd (prepare b enabled throws m)).
Proof.
  unfold prepare.
  destruct enabled, throws, (isVideo m), (audioContextSuspended b);
    cbn [snd app setupBackgroundMusic]; repeat constructor.
Qed.

Lemma startRecording_recordingEffects (b : Browser) (r : RecordingRun)
  (st : State) :
  Forall (fun e => recordingEffect e = true) (startRecording b r st).
Proof.
  destruct (canRecord st) eqn:Hgate.
  - destruct r.(audioLoad) as [ad | |] eqn:Hload.
    + destruct (startRecording_loaded b r st ad Hgate Hload)
        as (audio & m & _ & _ & Heq).
      cbv zeta in Heq. rewrite Heq.
      repeat (apply Forall_app; split).
      * repeat constructor.
      * apply prepare_recordingEffects.
      * eapply Forall_impl; [| apply drawLoop_frameEffects].
        apply frameEffect_recordingEffect.
      * destruct (fst _); repeat constructor.
    + destruct (startRecording_open b r st Hgate) as (audio & m & _ & _ & ->).
      rewrite Hload. repeat constructor.
    + destruct (startRecording_open b r st Hgate) as (audio & m & _ & _ & ->).
      rewrite Hload. repeat constructor.
  - rewrite (startRecording_closed b r st Hgate). constructor.
Qed.

(** [startRecording] writes four cells only (isRecording, recordingProgress,
    videoBlobUrl, error): in every outcome the media source, the analysis,
    the narration URL, the texts, the voice, the script type, the music
    switch and the other two busy flags are as before.  Once past its gate
    it discards the previous video at once: unless the recorder has been
    stopped, videoBlobUrl is null afterwards, also when the narration fails
    to load; and in that case no stream is captured and no recorder is
    created or started. *)
Theorem startRecording_discards_previous_video (b : Browser)
  (r : RecordingRun) (st : State) :
  let effects := startRecording b r st in
  sameInputs st (run effects st)
  /\ (canRecord st = true -> ~ In RecorderStop effects ->
      (run effects st).(videoBlobUrl) = None)
  /\ (canRecord st = true ->
      r.(audioLoad) = LoadError \/ r.(audioLoad) = LoadTimeout ->
      ~ In RecorderStop effects
      /\ (run effects st).(recordingProgress) = Fin 0
      /\ collect asCapture effects = []
      /\ collect asRecorder effects = []
      /\ collect asStart effects = []).
Proof.
  intro effects. subst effects.
  split; [apply recordingEffects_run, startRecording_recordingEffects |].
  split.
  - intros Hgate Hnot. rewrite videoBlobUrl_run.
    destruct r.(audioLoad) as [ad | |] eqn:Hload.
    + destruct (startRecording_collect asVideoBlobUrl b r st ad Hgate Hload)
        as (audio & m & _ & Hm & Hurl);
        [intros e He; destruct e; try discriminate; reflexivity |].
      rewrite (startRecording_stop b r st ad m Hgate Hload Hm) in Hnot.
      apply not_true_is_false in Hnot.
      rewrite Hurl, prepare_videoBlobUrl, Hnot. reflexivity.
    + destruct (startRecording_open b r st Hgate) as (audio & m & _ & _ & ->).
      rewrite Hload. reflexivity.
    + destruct (startRecording_open b r st Hgate) as (audio & m & _ & _ & ->).
      rewrite Hload. reflexivity.
  - intros Hgate Hfail.
    destruct (startRecording_open b r st Hgate) as (audio & m & _ & _ & ->).
    destruct Hfail as [-> | ->].
    + split; [| repeat split].
      cbn. intro H. repeat (destruct H as [H | H]; [discriminate |]). exact H.
    + split; [| repeat split].
      cbn. intro H. repeat (destruct H as [H | H]; [discriminate |]). exact H.
Qed.

(** The sample state with an old video, and a narration that times out. *)
Lemma startRecording_discards_previous_video_witness :
  canRecord ready = true
  /\ (run (startRecording sampleBrowser
             (mkRecordingRun LoadTimeout false [] []) ready) ready).(videoBlobUrl)
     = None.
Proof.
  pose proof (startRecording_discards_previous_video sampleBrowser
                (mkRecordingRun LoadTimeout false [] []) ready)
    as (_ & Hnone & Hfail).
  split; [reflexivity |].
  apply (Hnone eq_refl).
  apply (Hfail eq_refl). right. reflexivity.
Defined.

End HandlerFacts.

(* ------------------------------------------------------------------ *)
(** ** The recording: frames, clean-up, and what the bar shows *)

Module RecordingFacts.

Import JsNum JsNumFacts App AppFacts.
Local Open Scope string_scope.
Local Open Scope list_scope.
Local Open Scope Q_scope.








(** A [startTime] that is zero is an unset one. *)
Lemma drawLoop_unset (D : jsnum) (bgm v : bool) (s : Q) (frames : list Q) :
  Qeq_bool s 0 = true ->
  drawLoop D bgm v s frames = drawLoop D bgm v 0 frames.
Proof.
  intro Hs. destruct frames as [| t rest]; [reflexivity |].
  rewrite !drawLoop_cons. cbv zeta. rewrite Hs.
  change (Qeq_bool 0 0) with true. reflexivity.
Qed.

Lemma progressOf_zero (D : jsnum) (e : Q) :
  positiveDuration D -> e == 0 -> progressOf D e == 0.
Proof.
  destruct D as [| | | d]; cbn [positiveDuration progressOf]; intros HD He;
    try contradiction; [reflexivity |].
  assert (Hq : e / d == 0) by (rewrite He; unfold Qdiv; ring).
  destruct (Qle_bool (e / d) 1) eqn:H1; [exact Hq |].
  apply Qle_bool_false in H1. rewrite Hq in H1. discriminate.
Qed.

(** The first frame of a recording.  With a duration that is positive or
    infinite, the first call of [draw] shows a progress of 0 and asks for
    another frame, so no recording stops on its first frame; and a first
    timestamp of 0 leaves the clock unset, so that the frame after it is
    treated as the first one again. *)
Theorem first_frame_shows_zero (D : jsnum) (bgm v : bool) (t : Q)
  (rest : list Q) :
  positiveDuration D ->
  let next := drawLoop D bgm v (if Qeq_bool t 0 then 0 else t) rest in
  exists p,
    p == 0
    /\ drawLoop D bgm v 0 (t :: rest)
       = (fst next,
          [ setRecordingProgress (Fin (p * 100)); Paint (Fin p);
            RequestAnimationFrame ] ++ snd next).
Proof.
  intros HD next. subst next.
  exists (progressOf D (t - t)).
  assert (Hzero : progressOf D (t - t) == 0)
    by (apply progressOf_zero; [exact HD | ring]).
  split; [exact Hzero |].
  rewrite drawLoop_cons. cbv zeta. change (Qeq_bool 0 0) with true. cbv iota.
  rewrite (progressAt_value D (t - t) HD). cbn [jslt jsmul].
  assert (Hlt : Qltb (progressOf D (t - t)) 1 = true)
    by (apply Qltb_lt; rewrite Hzero; reflexivity).
  rewrite Hlt.
  destruct (Qeq_bool t 0) eqn:Ht; [| reflexivity].
  now rewrite (drawLoop_unset D bgm v t rest Ht).
Qed.

(** A narration of one second, a first timestamp of 0, then 16. *)
Lemma first_frame_shows_zero_witness :
  positiveDuration (recordingDuration (Fin 1))
  /\ fst (drawLoop (recordingDuration (Fin 1)) false false 0 [ 0; 16 ]) = false.
Proof.
  assert (HD : positiveDuration (recordingDuration (Fin 1))) by reflexivity.
  split; [exact HD |].
  destruct (first_frame_shows_zero (recordingDuration (Fin 1)) false false 0
              [ 16 ] HD) as (p & _ & ->).
  reflexivity.
Defined.

(** Once the clock is set, the frames drawn are those up to and including
    the first one that comes a full duration after the start: the loop
    behaves as if the later frames had never been delivered, it paints one
    picture per frame of that prefix, and it has stopped exactly when some
    delivered frame came that late. *)
Theorem frames_are_drawn_until_the_duration_has_elapsed (d s : Q)
  (bgm v : bool) (frames : list Q) :
  0 < d -> ~ s == 0 ->
  drawLoop (Fin d) bgm v s frames
  = drawLoop (Fin d) bgm v s (untilElapsed s d frames)
  /\ List.length (collect asPaint (snd (drawLoop (Fin d) bgm v s frames)))
     = List.length (untilElapsed s d frames)
  /\ (fst (drawLoop (Fin d) bgm v s frames) = true <->
      exists t, In t frames /\ d <= t - s).
Proof.
  intros Hd Hs.
  pose proof (Qeq_bool_neq s 0 Hs) as Hs0.
  induction frames as [| t rest (IH1 & IH2 & IH3)].
  - repeat split; try discriminate. intros (t & [] & _).
  - cbn [untilElapsed].
    destruct (Qle_bool d (t - s)) eqn:Hlate.
    + assert (Hstop : jslt (progressAt (Fin d) (t - s)) (Fin 1) = false).
      { destruct (jslt (progressAt (Fin d) (t - s)) (Fin 1)) eqn:H; [| reflexivity].
        apply (again_iff (t - s) d Hd) in H. apply Qle_bool_iff in Hlate.
        exfalso. apply (Qlt_irrefl d). eapply Qle_lt_trans; eassumption. }
      rewrite !drawLoop_cons. cbv zeta. rewrite Hs0, Hstop. cbn [fst snd].
      split; [reflexivity |].
      split.
      { cbn [app collect asPaint]. rewrite stopEffects_paint. reflexivity. }
      split; [| reflexivity].
      intros _. exists t. split; [left; reflexivity | apply Qle_bool_iff, Hlate].
    + assert (Hagain : jslt (progressAt (Fin d) (t - s)) (Fin 1) = true).
      { apply (again_iff (t - s) d Hd). apply Qle_bool_false, Hlate. }
      rewrite !drawLoop_cons. cbv zeta. rewrite Hs0, Hagain. cbn [fst snd].
      split; [now rewrite <- IH1 |].
      split.
      { cbn [app collect asPaint List.length]. now rewrite IH2. }
      rewrite IH3. split.
      * intros (t' & Hin & Hle). exists t'. split; [right; exact Hin | exact Hle].
      * intros (t' & [<- | Hin] & Hle).
        -- apply Qle_bool_iff in Hle. congruence.
        -- exists t'. split; assumption.
Qed.

(** 2500 ms from a start at 16: the frame at 2600 is the last one drawn. *)
Lemma frames_are_drawn_until_the_duration_has_elapsed_witness :
  0 < 2500 /\ ~ 16 == 0
  /\ List.length
       (collect asPaint
          (snd (drawLoop (Fin 2500) false false 16 [ 1216; 2600; 2700 ])))
     = 2%nat.
Proof.
  assert (Hd : 0 < 2500) by reflexivity.
  assert (Hs : ~ 16 == 0) by discriminate.
  split; [exact Hd |]. split; [exact Hs |].
  destruct (frames_are_drawn_until_the_duration_has_elapsed 2500 16 false false
              [ 1216; 2600; 2700 ] Hd Hs) as (_ & -> & _).
  reflexivity.
Defined.

End RecordingFacts.

(* ------------------------------------------------------------------ *)
(** ** The progress bar and its label *)

Module ProgressFacts.

Import JsNum JsNumFacts App AppFacts.
Local Open Scope string_scope.
Local Open Scope list_scope.
Local Open Scope Q_scope.

Lemma recordingProgress_run : forall effects st,
  (run effects st).(recordingProgress)
  = latest (collect asProgress effects) st.(recordingProgress).
Proof. cell_is_latest. Qed.

Lemma latest_last {A : Type} (writes : list A) (a before : A) :
  latest (writes ++ [ a ]) before = a.
Proof. unfold latest. now rewrite fold_left_app. Qed.

Lemma prepare_paint (b : Browser) (enabled throws : bool) (m : MediaSource) :
  collect asPaint (snd (prepare b enabled throws m)) = [].
Proof. prepare_cases b enabled throws m. Qed.

Lemma progressOf_le_one (D : jsnum) (e : Q) :
  positiveDuration D -> progressOf D e <= 1.
Proof.
  destruct D as [| | | d]; cbn [positiveDuration progressOf]; intro HD;
    try contradiction; [discriminate |].
  destruct (Qle_bool (e / d) 1) eqn:H1; [apply Qle_bool_iff, H1 | apply Qle_refl].
Qed.

(** With a positive duration the first frame asks for another one. *)
Lemma first_frame_again (D : jsnum) (t : Q) :
  positiveDuration D -> jslt (progressAt D (t - t)) (Fin 1) = true.
Proof.
  intro HD. rewrite (progressAt_value D (t - t) HD). cbn [jslt].
  apply Qltb_lt.
  destruct D as [| | | d]; cbn [positiveDuration progressOf] in *;
    try contradiction; [reflexivity |].
  assert (Hq : (t - t) / d == 0) by (unfold Qdiv; ring).
  destruct (Qle_bool ((t - t) / d) 1) eqn:H1; [rewrite Hq; reflexivity |].
  apply Qle_bool_false in H1. rewrite Hq in H1. discriminate.
Qed.

(** The values shown during a recording, as in the proof of the range of
    the progress: finite, within [0, 100], never decreasing. *)
Lemma progress_values (b : Browser) (r : RecordingRun) (st : State) :
  (forall ad, r.(audioLoad) = LoadedMetadata ad -> mediaDuration ad) ->
  nondecreasing r.(timestamps) ->
  exists values : list Q,
    progressValues (startRecording b r st) = map Fin values
    /\ Forall (fun p => 0 <= p <= 100) values
    /\ nondecreasing values.
Proof.
  intros Hvalid Hsorted.
  destruct (startRecording_progress b r st) as [-> | [-> | (ad & m & Hload & ->)]].
  - exists []. repeat split. constructor.
  - exists [ 0 ]. repeat split. constructor; [split; discriminate | constructor].
  - pose proof (recordingDuration_positive ad (Hvalid ad Hload)) as HD.
    set (D := recordingDuration ad) in *.
    destruct (drawLoop_elapsed D (st.(useBackgroundMusic) && negb r.(bgmSourceThrows))
                (isVideo m) r.(timestamps) 0) as (drawn & later & He & _ & ->).
    pose proof (elapsedSeq_nondecreasing r.(timestamps) 0 Hsorted) as Hmono.
    pose proof (elapsedSeq_nonnegative r.(timestamps) 0 Hsorted (or_introl eq_refl))
      as Hpos.
    rewrite He in Hmono, Hpos.
    apply nondecreasing_prefix in Hmono. apply Forall_app in Hpos as [Hpos _].
    exists (0 :: map (fun e => progressOf D e * 100) drawn).
    assert (Hrange : Forall (fun p => 0 <= p <= 100)
                       (map (fun e => progressOf D e * 100) drawn)).
    { apply Forall_map. eapply Forall_impl; [| exact Hpos].
      intros e Hle. cbv beta.
      destruct (progressOf_range D e HD Hle) as [H0 H1]. split; Lqa.lra. }
    split.
    { cbn [map]. f_equal. rewrite map_map. apply map_ext.
      intro e. now rewrite (progressAt_value D e HD). }
    split.
    { constructor; [split; discriminate | exact Hrange]. }
    apply nondecreasing_cons.
    + eapply Forall_impl; [| exact Hrange]. intros p [Hp _]. exact Hp.
    + apply nondecreasing_map; [| exact Hmono].
      intros e1 e2 H12. pose proof (progressOf_monotone D e1 e2 HD H12). Lqa.lra.
Qed.

(** The label under the spinner, [Math.round(recordingProgress)] followed
    by a percent sign.  When the narration reports a duration that is not
    negative and the timestamps never decrease, every number the label
    shows during a call of [startRecording] is a whole number from 0 to 100,
    and the numbers never go down. *)
Theorem percent_label_counts_up (b : Browser) (r : RecordingRun) (st : State) :
  (forall ad, r.(audioLoad) = LoadedMetadata ad -> mediaDuration ad) ->
  nondecreasing r.(timestamps) ->
  exists labels : list Z,
    map mathRound (progressValues (startRecording b r st))
    = map (fun z => Fin (inject_Z z)) labels
    /\ Forall (fun z => (0 <= z <= 100)%Z) labels
    /\ nondecreasing (map inject_Z labels).
Proof.
  intros Hvalid Hsorted.
  destruct (progress_values b r st Hvalid Hsorted) as (values & -> & Hrange & Hmono).
  exists (map (fun q => Qfloor (q + (1 # 2))) values).
  split; [rewrite !map_map; reflexivity |].
  split.
  - apply Forall_map. eapply Forall_impl; [| exact Hrange].
    intros q [H0 H100]. cbv beta. split.
    + change 0%Z with (Qfloor 0). apply Qfloor_resp_le. Lqa.lra.
    + change 100%Z with (Qfloor (100 + (1 # 2))). apply Qfloor_resp_le. Lqa.lra.
  - rewrite map_map. apply nondecreasing_map; [| exact Hmono].
    intros a c Hac. rewrite <- Zle_Qle. apply Qfloor_resp_le. Lqa.lra.
Qed.

(** The sample recording shows 0, 0, 48 and 100. *)
Lemma percent_label_counts_up_witness :
  nondecreasing sampleRun.(timestamps)
  /\ exists labels : list Z,
      map mathRound (progressValues (startRecording sampleBrowser sampleRun ready))
      = map (fun z => Fin (inject_Z z)) labels
      /\ Forall (fun z => (0 <= z <= 100)%Z) labels.
Proof.
  assert (Hsorted : nondecreasing sampleRun.(timestamps)).
  { cbn. repeat split; discriminate. }
  assert (Hvalid : forall ad,
             sampleRun.(audioLoad) = LoadedMetadata ad -> mediaDuration ad).
  { intros ad H. injection H as <-. cbn. discriminate. }
  destruct (percent_label_counts_up sampleBrowser sampleRun ready Hvalid Hsorted)
    as (labels & Hl & Hr & _).
  split; [exact Hsorted |]. exists labels. split; assumption.
Defined.

Example percent_label_sample :
  map mathRound (progressValues (startRecording sampleBrowser sampleRun ready))
  = [ Fin 0; Fin 0; Fin 48; Fin 100 ].
Proof. reflexivity. Qed.

(** A recording that has stopped the recorder ends with the bar full.  When
    the narration reports a duration that is not negative, the last value
    passed to [setRecordingProgress] is 100, it is the value the state holds
    afterwards, and at least two frames were drawn. *)
Theorem finished_recording_shows_100 (b : Browser) (r : RecordingRun)
  (st : State) (ad : jsnum) :
  canRecord st = true ->
  r.(audioLoad) = LoadedMetadata ad ->
  mediaDuration ad ->
  let effects := startRecording b r st in
  In RecorderStop effects ->
  exists q shown,
    progressValues effects = shown ++ [ Fin q ]
    /\ q == 100
    /\ (run effects st).(recordingProgress) = Fin q
    /\ (2 <= List.length (collect asPaint effects))%nat.
Proof.
  intros Hgate Hload Hvalid effects Hin. subst effects.
  destruct (startRecording_loaded b r st ad Hgate Hload)
    as (audio & m & _ & Hm & Heq).
  cbv zeta in Heq.
  apply (startRecording_stop b r st ad m Hgate Hload Hm) in Hin.
  pose proof (recordingDuration_positive ad Hvalid) as HD.
  set (D := recordingDuration ad) in *.
  set (bgm := st.(useBackgroundMusic) && negb r.(bgmSourceThrows)) in *.
  assert (Hvalues : progressValues (startRecording b r st)
                    = Fin 0 :: collect asProgress
                                 (snd (drawLoop D bgm (isVideo m) 0 r.(timestamps)))).
  { unfold progressValues. rewrite Heq, !collect_app, prepare_progress, collect_if.
    cbn [collect asProgress app onstop]. now rewrite if_nil, app_nil_r. }
  assert (Hpaints : collect asPaint (startRecording b r st)
                    = collect asPaint
                        (snd (drawLoop D bgm (isVideo m) 0 r.(timestamps)))).
  { rewrite Heq, !collect_app, prepare_paint, collect_if.
    cbn [collect asPaint app onstop]. now rewrite if_nil, app_nil_r. }
  clear Heq.
  destruct (drawLoop_stopped D bgm (isVideo m) r.(timestamps) 0 Hin)
    as (before & p & pre & Hp & _ & Hlast & _ & _ & _).
  destruct (drawLoop_elapsed D bgm (isVideo m) r.(timestamps) 0)
    as (drawn & later & _ & Hpaint & Hprog).
  rewrite Hp in Hpaint. symmetry in Hpaint.
  apply map_eq_app in Hpaint as (drawn1 & drawn2 & -> & Hb & Hl).
  destruct drawn2 as [| e [| e' drawn2]]; try discriminate.
  injection Hl as Hl.
  rewrite map_app in Hprog. cbn [map] in Hprog.
  rewrite (progressAt_value D e HD) in Hprog, Hl. cbn [jsmul] in Hprog.
  subst p. cbn [jslt] in Hlast.
  assert (Hone : progressOf D e == 1).
  { apply Qle_antisym; [apply progressOf_le_one, HD |].
    unfold Qltb in Hlast. apply negb_false_iff, Qle_bool_iff in Hlast. exact Hlast. }
  exists (progressOf D e * 100),
         (Fin 0 :: map (fun e0 => jsmul (progressAt D e0) (Fin 100)) drawn1).
  split; [rewrite Hvalues, Hprog; reflexivity |].
  split; [rewrite Hone; reflexivity |].
  split.
  { rewrite recordingProgress_run.
    change (collect asProgress (startRecording b r st))
      with (progressValues (startRecording b r st)).
    rewrite Hvalues, Hprog, app_comm_cons. apply latest_last. }
  rewrite Hpaints.
  destruct r.(timestamps) as [| t rest]; [discriminate |].
  rewrite drawLoop_cons in Hin |- *. cbv zeta in Hin |- *.
  change (Qeq_bool 0 0) with true in Hin |- *. cbv iota in Hin |- *.
  rewrite (first_frame_again D t HD) in Hin |- *. cbn [fst snd] in Hin |- *.
  destruct (drawLoop_stopped D bgm (isVideo m) rest t Hin)
    as (before' & p' & _ & Hp' & _).
  cbn [app collect asPaint]. rewrite Hp'. cbn [List.length].
  rewrite length_app. cbn [List.length]. lia.
Qed.

(** The sample recording ends at 100. *)
Lemma finished_recording_shows_100_witness :
  canRecord ready = true
  /\ exists q,
      (run (startRecording sampleBrowser sampleRun ready) ready).(recordingProgress)
      = Fin q /\ q == 100.
Proof.
  split; [reflexivity |].
  assert (Hvalid : mediaDuration (Fin 1)) by (cbn; discriminate).
  assert (Hin : In RecorderStop (startRecording sampleBrowser sampleRun ready))
    by (apply in_stop; vm_compute; discriminate).
  destruct (finished_recording_shows_100 sampleBrowser sampleRun ready (Fin 1)
              eq_refl eq_refl Hvalid Hin) as (q & _ & _ & Hq & Hfinal & _).
  exists q. split; assumption.
Defined.

End ProgressFacts.

(* ------------------------------------------------------------------ *)
(** ** Upload, analysis and narration: what each outcome leaves behind *)

Module PipelineFacts.

Import JsNum App AppFacts Session.
Local Open Scope string_scope.
Local Open Scope list_scope.

Lemma wavBlob_some (binaryString : string) :
  exists blob, Wav.wavBlob binaryString = Some blob.
Proof.
  unfold Wav.wavBlob. rewrite WavFacts.wavHeader_bytes. eexists. reflexivity.
Qed.

Lemma orElse_nonempty (a : option string) (fallback : string) :
  fallback <> "" -> orElse a fallback <> "".
Proof.
  intro Hf. destruct a as [v |]; cbn [orElse]; [| exact Hf].
  destruct (String.eqb_spec v ""); assumption.
Qed.

(** A second upload supersedes the first: the state after two uploads in a
    row is the state after the second alone, whatever the two files are. *)
Theorem second_upload_supersedes_first (b : Browser) (f1 : option Blob)
  (f2 : Blob) (st : State) :
  run (handleMediaUpload b (Some f2)) (run (handleMediaUpload b f1) st)
  = run (handleMediaUpload b (Some f2)) st.
Proof. destruct f1; reflexivity. Qed.

(** What a call of [analyzeProduct] past its gate leaves behind.  A parsed
    object becomes productInfo and overwrites the manual headline and the
    manual script with its own (the empty string where it has none), and
    the error is cleared; a parsed 0, empty string or false does the same
    with a productInfo that reads as null.  A thrown value that has
    properties leaves productInfo and the manual texts alone and stores a
    message that starts with the fixed prefix and goes on with the message
    of the exception or, if that is missing or empty, with the hint about
    the API key.  A thrown undefined or null stores nothing: the error stays
    cleared and productInfo and the manual texts stay as they were.  A
    parsed null sets productInfo to null and stores such a message.  In
    every case the busy flag is down and the media source, the narration
    URL and the video URL stay as they were. *)
Theorem analyzeProduct_outcomes (outcome : AnalysisOutcome) (st : State) :
  st.(mediaSource) <> None ->
  let st' := run (analyzeProduct outcome st) st in
  st'.(audioUrl) = st.(audioUrl)
  /\ st'.(videoBlobUrl) = st.(videoBlobUrl)
  /\ st'.(mediaSource) = st.(mediaSource)
  /\ st'.(isAnalyzing) = false
  /\ match outcome with
     | AnalysisParsed data =>
         st'.(productInfo) = Some data
         /\ st'.(manualHeadline) = orElse data.(headline) ""
         /\ st'.(manualScript) = orElse data.(script) ""
         /\ st'.(error) = None
     | AnalysisParsedFalsy =>
         st'.(productInfo) = None
         /\ st'.(manualHeadline) = ""
         /\ st'.(manualScript) = ""
         /\ st'.(error) = None
     | AnalysisThrew message =>
         st'.(productInfo) = st.(productInfo)
         /\ st'.(manualHeadline) = st.(manualHeadline)
         /\ st'.(manualScript) = st.(manualScript)
         /\ exists text,
             st'.(error) = Some (String.append "Erro na análise: " text)
             /\ text <> ""
             /\ (forall m, message = Some m -> m <> "" -> text = m)
             /\ (message = None \/ message = Some "" ->
                 text = "Verifique sua GEMINI_API_KEY no Vercel.")
     | AnalysisThrewNullish =>
         st'.(productInfo) = st.(productInfo)
         /\ st'.(manualHeadline) = st.(manualHeadline)
         /\ st'.(manualScript) = st.(manualScript)
         /\ st'.(error) = None
     | AnalysisParsedNull message =>
         st'.(productInfo) = None
         /\ st'.(manualHeadline) = st.(manualHeadline)
         /\ st'.(manualScript) = st.(manualScript)
         /\ exists text,
             st'.(error) = Some (String.append "Erro na análise: " text)
             /\ text <> ""
     end.
Proof.
  intros Hm st'. subst st'. unfold analyzeProduct.
  destruct st.(mediaSource) as [m |] eqn:Hsrc; [| contradiction].
  assert (Htext : forall message,
             orElse message "Verifique sua GEMINI_API_KEY no Vercel." <> "")
    by (intro message; apply orElse_nonempty; discriminate).
  destruct outcome as [message | data | message | |].
  - repeat split; try (cbn; congruence).
    eexists. split; [reflexivity |]. split; [apply Htext |].
    split.
    + intros t -> Ht. cbn [orElse].
      destruct (String.eqb_spec t ""); [contradiction | reflexivity].
    + intros [-> | ->]; reflexivity.
  - repeat split; cbn; congruence.
  - repeat split; try (cbn; congruence).
    eexists. split; [reflexivity | apply Htext].
  - repeat split; cbn; congruence.
  - repeat split; cbn; congruence.
Qed.

(** The model answers with a product called Fone. *)
Lemma analyzeProduct_outcomes_witness :
  ready.(mediaSource) <> None
  /\ (run (analyzeProduct (AnalysisParsed sampleInfo) ready) ready).(manualScript)
     = "Olha o que achei!".
Proof.
  assert (Hm : ready.(mediaSource) <> None) by discriminate.
  split; [exact Hm |].
  pose proof (analyzeProduct_outcomes (AnalysisParsed sampleInfo) ready Hm)
    as (_ & _ & _ & _ & _ & _ & Hs & _).
  exact Hs.
Defined.

(** Right after a successful analysis the two tabs hold the same texts: a
    script that the analysis returned is the script to narrate whether the
    automatic or the manual tab is selected, and [generateAudio] passes its
    gate in one tab exactly when it does in the other; the same holds for a
    headline that the analysis returned. *)
Theorem analysis_fills_both_tabs (data : ProductInfo) (st : State) :
  st.(mediaSource) <> None ->
  let st' := run (analyzeProduct (AnalysisParsed data) st) st in
  present (scriptToUse (setActiveScriptType Auto st'))
  = present (scriptToUse (setActiveScriptType Manual st'))
  /\ (forall t, data.(script) = Some t -> t <> "" ->
        scriptToUse (setActiveScriptType Auto st') = Some t
        /\ scriptToUse (setActiveScriptType Manual st') = Some t)
  /\ (forall h, data.(headline) = Some h -> h <> "" ->
        currentHeadline (setActiveScriptType Auto st') = Some h
        /\ currentHeadline (setActiveScriptType Manual st') = Some h).
Proof.
  intros Hm st'. subst st'. unfold analyzeProduct.
  destruct st.(mediaSource) as [m |]; [| contradiction].
  unfold scriptToUse, currentHeadline. cbn.
  split.
  { destruct data.(script) as [t |]; cbn; [| reflexivity].
    destruct (String.eqb_spec t ""); [subst; reflexivity |].
    cbn. now apply String.eqb_neq in n as ->. }
  split.
  - intros t -> Ht. cbn. split; [reflexivity |].
    apply String.eqb_neq in Ht. now rewrite Ht.
  - intros h -> Hh. cbn. split; [reflexivity |].
    apply String.eqb_neq in Hh. now rewrite Hh.
Qed.

(** The sample answer shows up in the manual tab as well. *)
Lemma analysis_fills_both_tabs_witness :
  ready.(mediaSource) <> None
  /\ scriptToUse
       (setActiveScriptType Manual
          (run (analyzeProduct (AnalysisParsed sampleInfo) ready) ready))
     = Some "Olha o que achei!".
Proof.
  assert (Hm : ready.(mediaSource) <> None) by discriminate.
  split; [exact Hm |].
  pose proof (analysis_fills_both_tabs sampleInfo ready Hm) as (_ & Hs & _).
  apply (Hs "Olha o que achei!"); [reflexivity | discriminate].
Defined.

(** What a call of [generateAudio] past its gate leaves behind.  Decoded
    audio gives a URL for a blob of type audio/wav that holds the WAV file,
    and no error.  A response without audio ends silently: the narration
    URL is the old one and the error is cleared.  An exception keeps the old
    URL and stores the fixed message.  In every case the flag is down again
    and the media, the analysis, the texts and the video of an earlier run
    stay as they were. *)
Theorem generateAudio_outcomes (b : Browser) (outcome : SpeechOutcome)
  (st : State) :
  present (scriptToUse st) = true ->
  let st' := run (generateAudio b outcome st) st in
  st'.(isGeneratingAudio) = false
  /\ st'.(mediaSource) = st.(mediaSource)
  /\ st'.(productInfo) = st.(productInfo)
  /\ st'.(manualHeadline) = st.(manualHeadline)
  /\ st'.(manualScript) = st.(manualScript)
  /\ st'.(videoBlobUrl) = st.(videoBlobUrl)
  /\ match outcome with
     | SpeechDecoded binaryString =>
         exists bytes,
           Wav.wavBlob binaryString = Some bytes
           /\ st'.(audioUrl) = Some (b.(createObjectURL) (mkBlob bytes "audio/wav"))
           /\ st'.(error) = None
     | SpeechEmpty => st'.(audioUrl) = st.(audioUrl) /\ st'.(error) = None
     | SpeechThrew =>
         st'.(audioUrl) = st.(audioUrl)
         /\ st'.(error) = Some "Erro ao gerar a narração."
     end.
Proof.
  intros Hp st'. subst st'. unfold generateAudio. rewrite Hp. cbn [negb].
  destruct outcome as [| | binaryString].
  - repeat split.
  - repeat split.
  - destruct (wavBlob_some binaryString) as (bytes & Hbytes).
    rewrite Hbytes. repeat split. exists bytes. repeat split.
Qed.

(** The sample state, and a response that carries no audio. *)
Lemma generateAudio_outcomes_witness :
  present (scriptToUse ready) = true
  /\ (run (generateAudio sampleBrowser SpeechEmpty ready) ready).(audioUrl)
     = ready.(audioUrl).
Proof.
  split; [reflexivity |].
  pose proof (generateAudio_outcomes sampleBrowser SpeechEmpty ready eq_refl)
    as (_ & _ & _ & _ & _ & _ & Ha & _).
  exact Ha.
Defined.

(** The name under which the video is saved ends in .webm whatever was
    recorded.  On a browser that supports none of the three webm candidates
    but does support mp4, a recording that stops makes its one blob with the
    type video/mp4, and the download name still ends in .webm. *)
Theorem download_name_ignores_recorded_type (b : Browser) (r : RecordingRun)
  (st : State) (ad : jsnum) (now : string) :
  b.(isTypeSupported) "video/webm;codecs=vp9,opus" = false ->
  b.(isTypeSupported) "video/webm;codecs=vp8,opus" = false ->
  b.(isTypeSupported) "video/webm" = false ->
  b.(isTypeSupported) "video/mp4" = true ->
  canRecord st = true ->
  r.(audioLoad) = LoadedMetadata ad ->
  In RecorderStop (startRecording b r st) ->
  collect asBlob (startRecording b r st) = [ (r.(dataEvents), "video/mp4") ]
  /\ collect asRecorder (startRecording b r st)
     = [ (getVideoTracks (b.(captureStream) 30)
          ++ getAudioTracks b.(destinationStream), "video/mp4") ]
  /\ exists stem, downloadName now = String.append stem ".webm".
Proof.
  intros H9 H8 Hw H4 Hgate Hload Hin.
  assert (Hmime : getSupportedMimeType b = "video/mp4").
  { unfold getSupportedMimeType, mimeTypes. cbn [firstSupported].
    now rewrite H9, H8, Hw, H4. }
  destruct (startRecording_collect asBlob b r st ad Hgate Hload)
    as (audio & m & _ & Hm & Hblob);
    [intros e He; destruct e; try discriminate; reflexivity |].
  destruct (startRecording_collect asRecorder b r st ad Hgate Hload)
    as (audio' & m' & _ & _ & Hrec);
    [intros e He; destruct e; try discriminate; reflexivity |].
  apply (startRecording_stop b r st ad m Hgate Hload Hm) in Hin.
  rewrite Hin, prepare_blob in Hblob.
  rewrite prepare_recorder, if_nil in Hrec.
  cbn [collect asBlob asRecorder app onstop] in Hblob, Hrec.
  rewrite Hmime in Hblob, Hrec.
  split; [exact Hblob |]. split; [exact Hrec |].
  exists (String.append "shopee-achadinho-" now).
  unfold downloadName. clear.
  induction "shopee-achadinho-" as [| c pre IH]; cbn; [reflexivity | now rewrite IH].
Qed.

End PipelineFacts.

(* ------------------------------------------------------------------ *)
(** ** Sessions: the states the page can reach *)

Module SessionFacts.

Import JsNum App AppFacts HandlerFacts PipelineFacts Session.
Local Open Scope string_scope.
Local Open Scope list_scope.

Lemma coherent_commit (st : State) : coherent st -> consistent (commit st).
Proof. intro H. split; [exact H | reflexivity]. Qed.

Lemma present_isSome (a : option string) : present a = true -> isSome a = true.
Proof. destruct a; [reflexivity | discriminate]. Qed.

Lemma coherent_upload (b : Browser) (file : option Blob) (st : State) :
  coherent st -> coherent (run (handleMediaUpload b file) st).
Proof.
  intros (H1 & H2 & H3 & H4 & H5 & H6). destruct file as [f |].
  - repeat split; try assumption; cbn; try discriminate; reflexivity.
  - repeat split; assumption.
Qed.

Lemma coherent_analyze (outcome : AnalysisOutcome) (st : State) :
  coherent st -> isSome st.(mediaSource) = true ->
  coherent (run (analyzeProduct outcome st) st).
Proof.
  intros (H1 & H2 & H3 & H4 & H5 & H6) Hm. unfold analyzeProduct.
  destruct st.(mediaSource) as [m |] eqn:Hsrc; [| discriminate].
  destruct outcome; repeat split; cbn; try rewrite Hsrc; try assumption;
    try reflexivity; try discriminate.
Qed.

Lemma coherent_generate (b : Browser) (outcome : SpeechOutcome) (st : State) :
  coherent st -> isSome st.(productInfo) = true ->
  coherent (run (generateAudio b outcome st) st).
Proof.
  intros (H1 & H2 & H3 & H4 & H5 & H6) Hinfo. unfold generateAudio.
  destruct (present (scriptToUse st)); cbn [negb].
  - destruct outcome as [| | binaryString].
    + repeat split; cbn; try assumption; reflexivity.
    + repeat split; cbn; try assumption; reflexivity.
    + destruct (wavBlob_some binaryString) as (bytes & ->).
      repeat split; cbn; try assumption; try reflexivity.
      intros _. apply H1, Hinfo.
  - repeat split; assumption.
Qed.

Lemma canRecord_media (st : State) :
  canRecord st = true -> isSome st.(mediaSource) = true.
Proof.
  unfold canRecord.
  destruct st.(canvasRef), (present st.(audioUrl)), (isSome st.(mediaSource));
    try discriminate; reflexivity.
Qed.

Lemma coherent_record (b : Browser) (r : RecordingRun) (st : State) :
  coherent st -> coherent (run (startRecording b r st) st).
Proof.
  intros (H1 & H2 & H3 & H4 & H5 & H6).
  destruct (canRecord st) eqn:Hgate.
  - pose proof (recordingEffects_run _ (startRecording_recordingEffects b r st) st)
      as (Em & _ & _ & _ & _ & _ & Ea & Eg & Ei & Eu & _).
    pose proof (canRecord_media st Hgate) as Hmedia.
    unfold coherent. rewrite Em, Ea, Eg, Ei, Eu.
    repeat split; try assumption; intros _; exact Hmedia.
  - rewrite (startRecording_closed b r st Hgate). repeat split; assumption.
Qed.

Lemma coherent_editInfo (f : ProductInfo -> ProductInfo) (st : State) :
  coherent st -> coherent (editInfo f st).
Proof.
  intros (H1 & H2 & H3 & H4 & H5 & H6). unfold editInfo.
  destruct st.(productInfo) as [info |] eqn:Hinfo.
  - repeat split; cbn; assumption.
  - unfold coherent. rewrite Hinfo. repeat split; assumption.
Qed.

Lemma coherent_late (b : Browser) (l : Late) (st : State) :
  coherent st -> st.(isRecording) = true ->
  coherent
    match l with
    | LateFrame progress => run [ setRecordingProgress progress ] st
    | LateStop chunks => run (onstop b chunks (getSupportedMimeType b)) st
    end.
Proof.
  intros (H1 & H2 & H3 & H4 & H5 & H6) Hrec. destruct l as [progress | chunks].
  - repeat split; assumption.
  - repeat split; cbn; try assumption.
    + intros _. apply H6, Hrec.
    + discriminate.
Qed.

(** The invariant of the sessions, by induction on the events. *)
Lemma reachable_consistent (b : Browser) (st : State) :
  reachable b st -> consistent st.
Proof.
  induction 1 as [| ev st Hreach [IH Hcanvas] Hen | l st Hreach [IH Hcanvas] Hrec].
  - split; [repeat split; discriminate | reflexivity].
  - unfold step. apply coherent_commit.
    destruct ev; cbn [enabled] in Hen.
    + apply coherent_upload, IH.
    + exact IH.
    + exact IH.
    + apply coherent_analyze; [exact IH |].
      unfold analyzeDisabled in Hen. destruct (isSome st.(mediaSource));
        [reflexivity | discriminate].
    + apply coherent_generate; [exact IH |].
      destruct (isSome st.(productInfo)); [reflexivity | discriminate].
    + apply coherent_record, IH.
    + exact IH.
    + exact IH.
    + apply coherent_editInfo, IH.
    + apply coherent_editInfo, IH.
    + destruct IH as (H1 & H2 & H3 & H4 & H5 & H6). repeat split; assumption.
    + destruct IH as (H1 & H2 & H3 & H4 & H5 & H6). repeat split; assumption.
  - unfold late. apply coherent_commit. apply coherent_late; assumption.
Qed.

(** Sessions keep the media under everything else.  In every state the page
    can reach, also with a recording that goes on while other controls are
    used, there is an analysis only if there is media, a narration URL only
    if there is media, a video URL only if there is media, and a recording
    runs only if there is media; no analysis or narration request is under
    way between events; and the canvas is on the page exactly when there is
    an analysis. *)
Theorem sessions_keep_the_pipeline_order (b : Browser) (st : State) :
  reachable b st ->
  (st.(productInfo) <> None -> st.(mediaSource) <> None)
  /\ (st.(audioUrl) <> None -> st.(mediaSource) <> None)
  /\ (st.(videoBlobUrl) <> None -> st.(mediaSource) <> None)
  /\ (st.(isRecording) = true -> st.(mediaSource) <> None)
  /\ st.(isAnalyzing) = false
  /\ st.(isGeneratingAudio) = false
  /\ st.(canvasRef) = isSome st.(productInfo).
Proof.
  intro Hreach.
  destruct (reachable_consistent b st Hreach)
    as [(H1 & H2 & H3 & H4 & H5 & H6) Hc].
  repeat split; try assumption.
  - destruct st.(productInfo); [| contradiction].
    destruct st.(mediaSource); [discriminate | specialize (H1 eq_refl); discriminate].
  - destruct st.(audioUrl); [| contradiction].
    destruct st.(mediaSource); [discriminate | specialize (H2 eq_refl); discriminate].
  - destruct st.(videoBlobUrl); [| contradiction].
    destruct st.(mediaSource); [discriminate | specialize (H3 eq_refl); discriminate].
  - intros Hrec.
    destruct st.(mediaSource); [discriminate | specialize (H6 Hrec); discriminate].
Qed.

(** After an upload and an analysis the state keeps the order. *)
Lemma sessions_keep_the_pipeline_order_witness :
  reachable sampleBrowser
    (step sampleBrowser (Analyze (AnalysisParsed sampleInfo))
       (step sampleBrowser (Upload (Some (mkBlob [] "image/png"))) initial))
  /\ (step sampleBrowser (Analyze (AnalysisParsed sampleInfo))
        (step sampleBrowser (Upload (Some (mkBlob [] "image/png"))) initial)).(canvasRef)
     = true.
Proof.
  assert (Hreach : reachable sampleBrowser
            (step sampleBrowser (Analyze (AnalysisParsed sampleInfo))
               (step sampleBrowser (Upload (Some (mkBlob [] "image/png"))) initial))).
  { apply reachable_step; [| reflexivity].
    apply reachable_step; [| reflexivity].
    apply reachable_initial. }
  split; [exact Hreach |].
  destruct (sessions_keep_the_pipeline_order sampleBrowser _ Hreach)
    as (_ & _ & _ & _ & _ & _ & Hc).
  exact Hc.
Defined.

(** In such a session the two buttons with a matching [disabled] attribute
    never fire a handler that returns at its gate.  The record button is on
    the page and enabled exactly when [startRecording] passes its gate and
    no recording is marked as running, and a click then raises isRecording;
    the analyze button, when enabled, raises isAnalyzing. *)
Theorem record_and_analyze_buttons_match_their_gates (b : Browser)
  (st : State) (r : RecordingRun) (outcome : AnalysisOutcome) :
  reachable b st ->
  enabled (Record r) st = canRecord st && negb st.(isRecording)
  /\ (enabled (Record r) st = true ->
      hd_error (startRecording b r st) = Some (setIsRecording true))
  /\ (enabled (Analyze outcome) st = true ->
      hd_error (analyzeProduct outcome st) = Some (setIsAnalyzing true)).
Proof.
  intro Hreach.
  destruct (reachable_consistent b st Hreach)
    as [(H1 & H2 & H3 & H4 & H5 & H6) Hcanvas].
  assert (Heq : enabled (Record r) st = canRecord st && negb st.(isRecording)).
  { cbn [enabled]. unfold recordDisabled, canRecord. rewrite Hcanvas.
    destruct (isSome st.(productInfo)) eqn:Hinfo; [| reflexivity].
    rewrite (H1 eq_refl).
    destruct (present st.(audioUrl)), st.(isRecording); reflexivity. }
  split; [exact Heq |].
  split.
  - rewrite Heq. intro Hen. apply andb_true_iff in Hen as [Hgate _].
    destruct (startRecording_open b r st Hgate) as (audio & m & _ & _ & ->).
    reflexivity.
  - cbn [enabled]. unfold analyzeDisabled, analyzeProduct. intro Hen.
    destruct st.(mediaSource); [reflexivity | discriminate].
Qed.

(** A session that has uploaded, analysed and narrated may record. *)
Lemma record_and_analyze_buttons_match_their_gates_witness :
  reachable sampleBrowser
    (step sampleBrowser (Generate (SpeechDecoded "ab"))
       (step sampleBrowser (Analyze (AnalysisParsed sampleInfo))
          (step sampleBrowser (Upload (Some (mkBlob [] "image/png"))) initial)))
  /\ hd_error
       (startRecording sampleBrowser sampleRun
          (step sampleBrowser (Generate (SpeechDecoded "ab"))
             (step sampleBrowser (Analyze (AnalysisParsed sampleInfo))
                (step sampleBrowser (Upload (Some (mkBlob [] "image/png")))
                   initial))))
     = Some (setIsRecording true).
Proof.
  assert (Hreach : reachable sampleBrowser
            (step sampleBrowser (Generate (SpeechDecoded "ab"))
               (step sampleBrowser (Analyze (AnalysisParsed sampleInfo))
                  (step sampleBrowser (Upload (Some (mkBlob [] "image/png")))
                     initial)))).
  { apply reachable_step; [| reflexivity].
    apply reachable_step; [| reflexivity].
    apply reachable_step; [| reflexivity].
    apply reachable_initial. }
  split; [exact Hreach |].
  destruct (record_and_analyze_buttons_match_their_gates sampleBrowser _ sampleRun
              (AnalysisThrew None) Hreach) as (_ & Hrec & _).
  apply Hrec. reflexivity.
Defined.

(** The voice buttons and the gate of [generateAudio] do not match.  In the
    manual tab the button under the texts is enabled only when the manual
    script is there, so a click on it starts the request.  In the automatic
    tab, with an analysis whose script is absent or empty, the button is
    enabled all the same and a click on it does nothing at all. *)
Theorem voice_button_can_do_nothing (b : Browser) (outcome : SpeechOutcome)
  (st : State) :
  (isManual st = true -> bottomGenerateDisabled st = false ->
     hd_error (generateAudio b outcome st) = Some (setIsGeneratingAudio true))
  /\ (forall info,
        st.(productInfo) = Some info -> isManual st = false ->
        present info.(script) = false -> st.(isGeneratingAudio) = false ->
        bottomGenerateDisabled st = false
        /\ enabled (Generate outcome) st = true
        /\ generateAudio b outcome st = []).
Proof.
  split.
  - unfold bottomGenerateDisabled, isManual, generateAudio, scriptToUse.
    destruct st.(activeScriptType); [discriminate |].
    intros _ Hen. apply orb_false_iff in Hen as [_ Hen]. cbn [andb] in Hen.
    apply negb_false_iff in Hen. rewrite Hen. reflexivity.
  - intros info Hinfo Hauto Hscript Hidle.
    unfold isManual in Hauto.
    assert (Hbottom : bottomGenerateDisabled st = false).
    { unfold bottomGenerateDisabled, isManual. rewrite Hidle.
      destruct st.(activeScriptType); [reflexivity | discriminate]. }
    split; [exact Hbottom |].
    split.
    + cbn [enabled]. rewrite Hinfo, Hbottom. cbn. apply orb_true_r.
    + unfold generateAudio, scriptToUse. rewrite Hinfo.
      destruct st.(activeScriptType); [| discriminate].
      now rewrite Hscript.
Qed.

(** A reachable state of that kind: the analysis came back without a
    script. *)
Lemma voice_button_can_do_nothing_witness :
  reachable sampleBrowser
    (step sampleBrowser
       (Analyze (AnalysisParsed (mkProductInfo "Fone" "" [] None None None)))
       (step sampleBrowser (Upload (Some (mkBlob [] "image/png"))) initial))
  /\ generateAudio sampleBrowser SpeechThrew
       (step sampleBrowser
          (Analyze (AnalysisParsed (mkProductInfo "Fone" "" [] None None None)))
          (step sampleBrowser (Upload (Some (mkBlob [] "image/png"))) initial))
     = [].
Proof.
  split.
  { apply reachable_step; [| reflexivity].
    apply reachable_step; [| reflexivity].
    apply reachable_initial. }
  pose proof (voice_button_can_do_nothing sampleBrowser SpeechThrew
                (step sampleBrowser
                   (Analyze (AnalysisParsed (mkProductInfo "Fone" "" [] None None None)))
                   (step sampleBrowser (Upload (Some (mkBlob [] "image/png")))
                      initial)))
    as (_ & Hauto).
  apply (Hauto (mkProductInfo "Fone" "" [] None None None)); reflexivity.
Defined.



(** A browser that records mp4 only, and the sample recording on it. *)
Lemma download_name_ignores_recorded_type_witness :
  canRecord ready = true
  /\ collect asBlob (startRecording mp4Browser sampleRun ready)
     = [ (sampleRun.(dataEvents), "video/mp4") ]
  /\ exists stem, downloadName "1767225600000" = String.append stem ".webm".
Proof.
  split; [reflexivity |].
  assert (Hin : In RecorderStop (startRecording mp4Browser sampleRun ready))
    by (apply in_stop; vm_compute; discriminate).
  destruct (download_name_ignores_recorded_type mp4Browser sampleRun ready (Fin 1)
              "1767225600000" eq_refl eq_refl eq_refl eq_refl eq_refl eq_refl Hin)
    as (Hblob & _ & Hname).
  split; [exact Hblob | exact Hname].
Defined.

(** A recording that outlives an upload.  When a file is chosen while a
    recording runs, and the recorder stops afterwards, the page ends up with
    the video of the old media and nothing else of the pipeline: the video
    URL is set although the narration URL and the analysis are null, the
    recording flag is down, and the gate of [startRecording] is closed. *)
Theorem recording_that_outlives_an_upload (b : Browser) (file : Blob)
  (chunks : list (list Z)) (st : State) :
  reachable b st ->
  st.(isRecording) = true ->
  let st' := late b (LateStop chunks) (step b (Upload (Some file)) st) in
  reachable b st'
  /\ st'.(videoBlobUrl)
     = Some (b.(createObjectURL)
               (mkBlob (List.concat chunks) (getSupportedMimeType b)))
  /\ st'.(audioUrl) = None
  /\ st'.(productInfo) = None
  /\ st'.(isRecording) = false
  /\ canRecord st' = false.
Proof.
  intros Hreach Hrec st'. subst st'.
  split.
  - apply reachable_late; [| exact Hrec].
    apply reachable_step; [exact Hreach | reflexivity].
  - repeat split.
Qed.

(** A session that starts a recording, of which one frame has come. *)
Lemma recording_that_outlives_an_upload_witness :
  reachable sampleBrowser
    (step sampleBrowser
       (Record (mkRecordingRun (LoadedMetadata (Fin 1)) false [ 16 ]%Q []))
       (step sampleBrowser (Generate (SpeechDecoded "ab"))
          (step sampleBrowser (Analyze (AnalysisParsed sampleInfo))
             (step sampleBrowser (Upload (Some (mkBlob [] "image/png")))
                initial))))
  /\ (late sampleBrowser (LateStop [ [ 1%Z ] ])
        (step sampleBrowser (Upload (Some (mkBlob [] "image/png")))
           (step sampleBrowser
              (Record (mkRecordingRun (LoadedMetadata (Fin 1)) false [ 16 ]%Q []))
              (step sampleBrowser (Generate (SpeechDecoded "ab"))
                 (step sampleBrowser (Analyze (AnalysisParsed sampleInfo))
                    (step sampleBrowser (Upload (Some (mkBlob [] "image/png")))
                       initial)))))).(audioUrl)
     = None.
Proof.
  assert (Hreach : reachable sampleBrowser
            (step sampleBrowser
               (Record (mkRecordingRun (LoadedMetadata (Fin 1)) false [ 16 ]%Q []))
               (step sampleBrowser (Generate (SpeechDecoded "ab"))
                  (step sampleBrowser (Analyze (AnalysisParsed sampleInfo))
                     (step sampleBrowser (Upload (Some (mkBlob [] "image/png")))
                        initial))))).
  { apply reachable_step; [| reflexivity].
    apply reachable_step; [| reflexivity].
    apply reachable_step; [| reflexivity].
    apply reachable_step; [| reflexivity].
    apply reachable_initial. }
  split; [exact Hreach |].
  destruct (recording_that_outlives_an_upload sampleBrowser
              (mkBlob [] "image/png") [ [ 1%Z ] ] _ Hreach eq_refl)
    as (_ & _ & Haudio & _).
  exact Haudio.
Defined.

End SessionFacts.
